(** * Marketing OS: scoring, prioritising, fetching and briefing

    A shallow embedding of [marketing_os.py] and of the query loop of
    [twitter_listener.py], with the properties of the scorer, the
    prioritiser, the fetch loops and the briefing builder.

    Conventions of the embedding:
    - a Python [int] is a [Z]; a Python [float] is an IEEE-754 binary64
      value, represented by [spec_float] with precision 53 and maximal
      exponent 1024, so that [*], [+] and [round] on floats are the
      correctly rounded operations the interpreter performs;
    - a Python [str] is a [string], the bytes of its UTF-8 encoding;
      a term made of ASCII characters, as all the terms of the
      vocabularies are, occurs in a text exactly when its bytes occur
      in the bytes of the text;
    - [Str.lower] is [str.lower] on ASCII text.  Outside ASCII
      [str.lower] follows the Unicode tables, so what is stated of the
      lower-cased text of every post is stated of
      [score_post_lowered_by], the scorer with the lower-casing it
      calls as a parameter;
    - a post dictionary is a record with one field per key;
    - [print] and [time.sleep] append to an event trace;
    - a call to a remote service is a function from the request to
      either an error or the answer. *)

From Stdlib Require Import ZArith List String Ascii Bool Lia.
From Stdlib Require Import SpecFloat DecimalString.
From stdpp Require Import gmap strings list.

Local Open Scope Z_scope.

(* ===================================================================== *)
(** ** Strings *)
(* ===================================================================== *)

Module Str.

(** [str.lower] on one ASCII character. *)
Definition lower_ascii (c : ascii) : ascii :=
  let n := N_of_ascii c in
  if ((65 <=? n)%N && (n <=? 90)%N)%bool then ascii_of_N (n + 32) else c.

(** [s.lower()] for a text of ASCII characters: the other bytes are
    left as they are, where [str.lower] follows the Unicode tables. *)
Fixpoint lower (s : string) : string :=
  match s with
  | EmptyString => EmptyString
  | String c rest => String (lower_ascii c) (lower rest)
  end.

(** [s.startswith(start)] *)
Fixpoint startswith (start s : string) : bool :=
  match start with
  | EmptyString => true
  | String a start' =>
      match s with
      | EmptyString => false
      | String b s' => Ascii.eqb a b && startswith start' s'
      end
  end.

(** [term in text]: [term] occurs in [text] as a contiguous substring. *)
Fixpoint contains (term text : string) : bool :=
  startswith term text
  || match text with
     | EmptyString => false
     | String _ rest => contains term rest
     end.

(** [sum(1 for term in terms if term in text)] *)
Definition count_in (terms : list string) (text : string) : Z :=
  fold_left (fun acc term => if contains term text then acc + 1 else acc)
            terms 0.

(** [any(term in text for term in terms)] *)
Definition any_in (terms : list string) (text : string) : bool :=
  existsb (fun term => contains term text) terms.

(** [str(n)] and [f"{n}"] for an integer. *)
Definition of_Z (n : Z) : string := NilZero.string_of_int (Z.to_int n).

(** [s.zfill(width)] for a string without sign. *)
Definition zfill (width : nat) (s : string) : string :=
  Nat.iter (width - String.length s) (String "0") s.

(** An integer field that [strftime] and [isoformat] pad with zeros
    to two digits. *)
Definition pad2 (n : Z) : string := zfill 2 (of_Z n).

(** [sep.join(parts)] *)
Fixpoint join (sep : string) (parts : list string) : string :=
  match parts with
  | [] => EmptyString
  | [p] => p
  | p :: rest => p +:+ sep +:+ join sep rest
  end.

(** [s.split("/")[-1]]: what follows the last slash of [s], all of [s]
    when it has none.  [acc] is the segment read so far. *)
Fixpoint last_segment_from (acc s : string) : string :=
  match s with
  | EmptyString => acc
  | String c rest =>
      if Ascii.eqb c "/" then last_segment_from EmptyString rest
      else last_segment_from (acc +:+ String c EmptyString) rest
  end.

Definition last_segment (s : string) : string :=
  last_segment_from EmptyString s.

End Str.

(* ===================================================================== *)
(** ** Binary64 arithmetic *)
(* ===================================================================== *)

Module F64.

Definition prec : Z := 53.
Definition emax : Z := 1024.

(** [float(n)] for an integer [n], as done implicitly by [n * w]. *)
Definition of_int (n : Z) : spec_float := binary_normalize prec emax n 0 false.

Definition mul : spec_float -> spec_float -> spec_float := SFmul prec emax.
Definition add : spec_float -> spec_float -> spec_float := SFadd prec emax.
Definition div : spec_float -> spec_float -> spec_float := SFdiv prec emax.

(** The literals [0.30], [0.25] and [0.15]: the doubles nearest to the
    decimal numbers, [0x1.3333333333333p-2], [0x1p-2] and
    [0x1.3333333333333p-3]. *)
Definition lit_0_30 : spec_float := S754_finite false 5404319552844595 (-54).
Definition lit_0_25 : spec_float := S754_finite false 4503599627370496 (-54).
Definition lit_0_15 : spec_float := S754_finite false 5404319552844595 (-55).

(** [n / d] rounded to an integer, ties to the even neighbour
    ([d] positive). *)
Definition round_half_even_div (n d : Z) : Z :=
  let q := n / d in
  let r := n mod d in
  match 2 * r ?= d with
  | Lt => q
  | Gt => q + 1
  | Eq => if Z.even q then q else q + 1
  end.

(** [round(x)] for a float [x]: the nearest integer, ties to even;
    [None] where Python raises (infinities and NaN). *)
Definition round (x : spec_float) : option Z :=
  match x with
  | S754_zero _ => Some 0
  | S754_finite s m e =>
      let mag :=
        if 0 <=? e then Zpos m * 2 ^ e
        else round_half_even_div (Zpos m) (2 ^ (- e)) in
      Some (if s then - mag else mag)
  | S754_infinity _ | S754_nan => None
  end.

End F64.

(* ===================================================================== *)
(** ** Data model *)
(* ===================================================================== *)

(** The post dictionary built by the extractors and read by the scorer
    and the briefing.  [views], [title], [description] and [channel_url]
    are set by the YouTube extractor only. *)
Record NormalizedPost := {
  platform : string;
  post_id : string;
  url : string;
  author_handle : string;
  author_name : string;
  text : string;
  created_at : string;
  likes : Z;
  replies : Z;
  reposts : Z;
  engagement_total : Z;
  matched_query : string;
  views : option Z;
  title : option string;
  description : option string;
  channel_url : option string
}.

(** The dictionary returned by [score_post]. *)
Record ScoreBreakdown := {
  total : Z;
  icp_match : Z;
  topic_relevance : Z;
  reach_potential : Z;
  timing : Z;
  conversation_stage : Z
}.

Inductive Priority := low | medium | high.

(** [config["scorer"]["thresholds"]], every level of which may be
    absent. *)
Record Thresholds := {
  th_high : option Z;
  th_medium : option Z
}.

(** [config["listener"][platform]] *)
Record ListenerConfig := {
  enabled : option bool;
  posts_per_query : option Z;
  videos_per_query : option Z;
  language : option string;
  max_age_days : option Z
}.

Record Config := {
  scorer_thresholds : option Thresholds;
  listener_bluesky : option ListenerConfig;
  listener_youtube : option ListenerConfig;
  bluesky_username : option string;
  bluesky_password : option string;
  youtube_api_key : option string
}.

(** [d.get(key, default)] on an optional entry. *)
Definition get {A : Type} (entry : option A) (default : A) : A :=
  match entry with
  | Some v => v
  | None => default
  end.

(* ===================================================================== *)
(** ** Scoring *)
(* ===================================================================== *)

Module Vocabulary.
Local Open Scope string_scope.

Definition high_value_terms : list string :=
  [ "own my data"; "data sovereignty"; "self-sovereign";
    "privacy by design"; "decentralized"; "peer-to-peer";
    "no single point of failure"; "big tech"; "walled gardens";
    "surveillance capitalism"; "self-hosting"; "homelab"; "cypherpunk";
    "open web"; "the web we were promised"; "digital rights";
    "data ownership" ].

Definition question_signals : list string :=
  [ "is there an alternative"; "looking for"; "anyone know";
    "what's actually"; "recommendations for"; "trying to find";
    "frustrated with"; "tired of"; "concerned about"; "worried about" ].

Definition low_value_terms : list string :=
  [ "token price"; "to the moon"; "nft"; "airdrop"; "presale";
    "enterprise solution"; "b2b"; "roi"; "kpi" ].

Definition direct_relevance : list string :=
  [ "decentralized storage"; "encrypted storage"; "private storage";
    "data privacy"; "end-to-end encryption"; "self-encrypting";
    "no servers"; "serverless"; "permanent storage";
    "censorship resistant" ].

Definition adjacent_topics : list string :=
  [ "ipfs"; "filecoin"; "storj"; "sia"; "nextcloud"; "syncthing";
    "proton"; "signal"; "cloud storage"; "google drive"; "dropbox";
    "aws"; "azure"; "cloud costs" ].

Definition question_markers : list string :=
  [ "?"; "anyone"; "looking for"; "recommendations"; "trying to" ].

Definition frustration_markers : list string :=
  [ "frustrated"; "tired of"; "hate"; "annoyed"; "sick of" ].

Definition decided_markers : list string :=
  [ "i use"; "switched to"; "moved to"; "loving" ].

End Vocabulary.

Import Vocabulary.

(** ICP match of the lower-cased text. *)
Definition icp_score_of (text : string) : Z :=
  let high_matches := Str.count_in high_value_terms text in
  let question_matches := Str.count_in question_signals text in
  let low_matches := Str.count_in low_value_terms text in
  let icp_score := Z.min 100 (high_matches * 20 + question_matches * 25) in
  let icp_score := Z.max 0 (icp_score - low_matches * 30) in
  if icp_score =? 0 then 30 else icp_score.

(** Topic relevance of the lower-cased text. *)
Definition topic_score_of (text : string) : Z :=
  let direct_matches := Str.count_in direct_relevance text in
  let adjacent_matches := Str.count_in adjacent_topics text in
  let topic_score := Z.min 100 (direct_matches * 30 + adjacent_matches * 15) in
  if topic_score =? 0 then 25 else topic_score.

(** Reach potential of an engagement total. *)
Definition reach_score_of (engagement : Z) : Z :=
  if engagement >=? 100 then 100
  else if engagement >=? 50 then 80
  else if engagement >=? 20 then 60
  else if engagement >=? 10 then 40
  else if engagement >=? 5 then 25
  else 10.

(** Conversation stage of the lower-cased text. *)
Definition stage_score_of (text : string) : Z :=
  if Str.any_in question_markers text then 85
  else if Str.any_in frustration_markers text then 75
  else if Str.any_in decided_markers text then 30
  else 50.

(** The float [total] of [score_post], summed left to right. *)
Definition weighted_sum (icp topic reach timing stage : Z) : spec_float :=
  F64.add
    (F64.add
       (F64.add
          (F64.add (F64.mul (F64.of_int icp) F64.lit_0_30)
                   (F64.mul (F64.of_int topic) F64.lit_0_25))
          (F64.mul (F64.of_int reach) F64.lit_0_15))
       (F64.mul (F64.of_int timing) F64.lit_0_15))
    (F64.mul (F64.of_int stage) F64.lit_0_15).

(** [score_post(post, icp_context, positioning_context)].  [None] stands
    for the exception [round] raises on a float that is not finite. *)
Definition score_post (post : NormalizedPost)
    (icp_context positioning_context : string) : option ScoreBreakdown :=
  let text := Str.lower (text post) in
  let engagement := engagement_total post in
  let icp_score := icp_score_of text in
  let topic_score := topic_score_of text in
  let reach_score := reach_score_of engagement in
  let timing_score := 80 in
  let stage_score := stage_score_of text in
  match F64.round (weighted_sum icp_score topic_score reach_score
                                timing_score stage_score) with
  | Some rounded =>
      Some {| total := rounded;
              icp_match := icp_score;
              topic_relevance := topic_score;
              reach_potential := reach_score;
              timing := timing_score;
              conversation_stage := stage_score |}
  | None => None
  end.

(** [score_post(post, icp_context, positioning_context)] with the
    built-in [str.lower] it calls on the text of the post as the
    parameter [lower]; [score_post] is the instance at [Str.lower]. *)
Definition score_post_lowered_by (lower : string -> string)
    (post : NormalizedPost) (icp_context positioning_context : string)
    : option ScoreBreakdown :=
  let text := lower (text post) in
  let engagement := engagement_total post in
  let icp_score := icp_score_of text in
  let topic_score := topic_score_of text in
  let reach_score := reach_score_of engagement in
  let timing_score := 80 in
  let stage_score := stage_score_of text in
  match F64.round (weighted_sum icp_score topic_score reach_score
                                timing_score stage_score) with
  | Some rounded =>
      Some {| total := rounded;
              icp_match := icp_score;
              topic_relevance := topic_score;
              reach_potential := reach_score;
              timing := timing_score;
              conversation_stage := stage_score |}
  | None => None
  end.

(** [get_priority(score, config)] *)
Definition get_priority (score : Z) (config : Config) : Priority :=
  let thresholds := get (scorer_thresholds config)
                        {| th_high := None; th_medium := None |} in
  let high_threshold := get (th_high thresholds) 70 in
  let medium_threshold := get (th_medium thresholds) 50 in
  if score >=? high_threshold then high
  else if score >=? medium_threshold then medium
  else low.

(** Order of the tiers: low < medium < high. *)
Definition priority_rank (p : Priority) : Z :=
  match p with
  | low => 0
  | medium => 1
  | high => 2
  end.

Definition priority_le (p q : Priority) : Prop :=
  priority_rank p <= priority_rank q.

(** A configuration file with no entry at all. *)
Definition empty_config : Config :=
  {| scorer_thresholds := None;
     listener_bluesky := None;
     listener_youtube := None;
     bluesky_username := None;
     bluesky_password := None;
     youtube_api_key := None |}.

(** A post with the given text and engagement and nothing else. *)
Definition bare_post (body : string) (engagement : Z) : NormalizedPost :=
  {| platform := ""; post_id := ""; url := ""; author_handle := "";
     author_name := ""; text := body; created_at := "";
     likes := 0; replies := 0; reposts := 0;
     engagement_total := engagement; matched_query := "";
     views := None; title := None; description := None;
     channel_url := None |}.

(* ===================================================================== *)
(** ** Effects: console, clock, file system *)
(* ===================================================================== *)

(** What a run does besides computing: the texts it prints and the
    pauses it takes, in order. *)
Inductive Event :=
| Print (line : string)
| Sleep (milliseconds : Z).

(** A reading of [datetime.now()]. *)
Record DateTime := {
  year : Z;
  month : Z;
  day : Z;
  hour : Z;
  minute : Z;
  second : Z;
  microsecond : Z
}.

Module Clock.
Local Open Scope string_scope.

(** [%b] in the C locale. *)
Definition month_abbr (m : Z) : string :=
  nth (Z.to_nat (m - 1)%Z)
      [ "Jan"; "Feb"; "Mar"; "Apr"; "May"; "Jun";
        "Jul"; "Aug"; "Sep"; "Oct"; "Nov"; "Dec" ] "".

(** [now.strftime("%Y-%b-%d")] *)
Definition date_str (now : DateTime) : string :=
  Str.of_Z (year now) +:+ "-" +:+ month_abbr (month now) +:+ "-"
  +:+ Str.pad2 (day now).

(** [now.strftime("%H%M")] *)
Definition time_str (now : DateTime) : string :=
  Str.pad2 (hour now) +:+ Str.pad2 (minute now).

(** [now.isoformat()] *)
Definition isoformat (now : DateTime) : string :=
  Str.zfill 4 (Str.of_Z (year now)) +:+ "-" +:+ Str.pad2 (month now)
  +:+ "-" +:+ Str.pad2 (day now) +:+ "T" +:+ Str.pad2 (hour now)
  +:+ ":" +:+ Str.pad2 (minute now) +:+ ":" +:+ Str.pad2 (second now)
  +:+ (if (microsecond now =? 0)%Z then ""
       else "." +:+ Str.zfill 6 (Str.of_Z (microsecond now))).

End Clock.

(** The files of the output directory: path to content. *)
Abbreviation FileSystem := (gmap string string).

(* ===================================================================== *)
(** ** Daily briefing *)
(* ===================================================================== *)

(** [{**post, "score": score, "priority": priority}] *)
Record ScoredPost := {
  post : NormalizedPost;
  score : ScoreBreakdown;
  priority : Priority
}.

(** The [stats] dictionary of a run. *)
Record Stats := {
  platforms : string;
  queries_run : Z;
  total_fetched : Z;
  unique_posts : Z
}.

Definition Priority_eqb (p q : Priority) : bool :=
  match p, q with
  | low, low | medium, medium | high, high => true
  | _, _ => false
  end.

(** [len(l)] *)
Definition len {A : Type} (l : list A) : Z := Z.of_nat (length l).

(** [l[:stop]], where a negative [stop] counts from the end. *)
Definition slice_to {A : Type} (l : list A) (stop : Z) : list A :=
  if stop <? 0 then take (Z.to_nat (Z.max 0 (len l + stop))) l
  else take (Z.to_nat stop) l.

(** Insertion of a post in a list sorted by decreasing total, before
    the first element that does not beat it. *)
Fixpoint insert_by_total (p : ScoredPost) (sorted : list ScoredPost)
    : list ScoredPost :=
  match sorted with
  | [] => [p]
  | q :: rest =>
      if total (score p) >=? total (score q) then p :: q :: rest
      else q :: insert_by_total p rest
  end.

(** [sorted(posts, key=lambda x: x["score"]["total"], reverse=True)]:
    decreasing totals, equal totals in their original order. *)
Definition sorted_by_total (posts : list ScoredPost) : list ScoredPost :=
  fold_right insert_by_total [] posts.

(** [sum(1 for p in posts if p["priority"] == tier)] *)
Definition count_priority (tier : Priority) (posts : list ScoredPost) : Z :=
  fold_left (fun acc p => if Priority_eqb (priority p) tier then acc + 1
                          else acc)
            posts 0.

Module Briefing.
Local Open Scope string_scope.

Definition badge (p : Priority) : string :=
  match p with
  | high => "HIGH SIGNAL"
  | medium => "Medium"
  | low => "Low"
  end.

(** The lines of one detailed entry, ranked [i]. *)
Definition entry_lines (i : Z) (sp : ScoredPost) : list string :=
  let p := post sp in
  let s := score sp in
  [ "### " +:+ Str.of_Z i +:+ ". @" +:+ author_handle p +:+ " — Score: "
      +:+ Str.of_Z (total s) +:+ " (" +:+ badge (priority sp) +:+ ")";
    "";
    "**" +:+ author_name p +:+ "** · " +:+ Str.of_Z (likes p)
      +:+ " likes · " +:+ Str.of_Z (replies p) +:+ " replies · "
      +:+ Str.of_Z (reposts p) +:+ " reposts";
    "";
    "> " +:+ text p;
    "";
    "**Matched query:** `" +:+ matched_query p +:+ "`";
    "**Link:** " +:+ url p;
    "";
    "<details><summary>Score breakdown</summary>";
    "";
    "| Dimension | Score |";
    "|-----------|-------|";
    "| ICP Match | " +:+ Str.of_Z (icp_match s) +:+ " |";
    "| Topic Relevance | " +:+ Str.of_Z (topic_relevance s) +:+ " |";
    "| Reach Potential | " +:+ Str.of_Z (reach_potential s) +:+ " |";
    "| Timing | " +:+ Str.of_Z (timing s) +:+ " |";
    "| Conversation Stage | " +:+ Str.of_Z (conversation_stage s) +:+ " |";
    "";
    "</details>";
    "";
    "---";
    "" ].

(** [for i, post in enumerate(top_posts, i): ...] *)
Fixpoint entries_from (i : Z) (top_posts : list ScoredPost) : list string :=
  match top_posts with
  | [] => []
  | sp :: rest => (entry_lines i sp ++ entries_from (i + 1)%Z rest)%list
  end.

Definition frontmatter (now : DateTime) (stats : Stats)
    (showing high_count medium_count : Z) : list string :=
  [ "---";
    "date: " +:+ Clock.date_str now;
    "generated: " +:+ Clock.isoformat now;
    "posts_scanned: " +:+ Str.of_Z (total_fetched stats);
    "showing: " +:+ Str.of_Z showing;
    "high_priority_total: " +:+ Str.of_Z high_count;
    "medium_priority_total: " +:+ Str.of_Z medium_count;
    "status: unreviewed";
    "---";
    "" ].

Definition summary (stats : Stats) (showing high_count : Z) : list string :=
  ([ "## Summary";
     "";
     "Scanned **" +:+ Str.of_Z (total_fetched stats) +:+ "** posts across "
       +:+ platforms stats +:+ ".";
     "Showing top **" +:+ Str.of_Z showing +:+ "** ranked by score.";
     "" ]
   ++ (if (high_count >? 0)%Z
       then [ "**" +:+ Str.of_Z high_count
                +:+ "** high-signal posts found in this batch." ]
       else [])
   ++ [ "" ])%list.

Definition statistics (stats : Stats) (high_count medium_count low_count : Z)
    : list string :=
  [ "## Run Statistics";
    "";
    "| Metric | Value |";
    "|--------|-------|";
    "| Platforms | " +:+ platforms stats +:+ " |";
    "| Queries run | " +:+ Str.of_Z (queries_run stats) +:+ " |";
    "| Posts scanned | " +:+ Str.of_Z (total_fetched stats) +:+ " |";
    "| High signal (70+) | " +:+ Str.of_Z high_count +:+ " |";
    "| Medium signal (50-69) | " +:+ Str.of_Z medium_count +:+ " |";
    "| Low signal (<50) | " +:+ Str.of_Z low_count +:+ " |";
    "" ].

(** The posts given a detailed entry. *)
Definition top_posts (scored_posts : list ScoredPost) (max_results : Z)
    : list ScoredPost :=
  slice_to (sorted_by_total scored_posts) max_results.

(** The [lines] list of [generate_briefing] before it is joined. *)
Definition lines (now : DateTime) (scored_posts : list ScoredPost)
    (config : Config) (stats : Stats) (max_results : Z) : list string :=
  let top := top_posts scored_posts max_results in
  let high_count := count_priority high scored_posts in
  let medium_count := count_priority medium scored_posts in
  let low_count := count_priority low scored_posts in
  (frontmatter now stats (len top) high_count medium_count
   ++ summary stats (len top) high_count
   ++ [ "## Top Opportunities"; "" ]
   ++ entries_from 1 top
   ++ statistics stats high_count medium_count low_count)%list.

(** A line that opens a detailed entry. *)
Definition is_entry_heading (line : string) : bool :=
  Str.startswith "### " line.

(** Number of detailed entries of a briefing, read off its lines. *)
Definition entry_count (briefing_lines : list string) : Z :=
  len (List.filter is_entry_heading briefing_lines).

End Briefing.

(** [generate_briefing(scored_posts, config, stats, max_results)], with
    the clock reading it takes. *)
Definition generate_briefing (now : DateTime) (scored_posts : list ScoredPost)
    (config : Config) (stats : Stats) (max_results : Z) : string :=
  Str.join (String "010" EmptyString)
           (Briefing.lines now scored_posts config stats max_results).

(** [save_briefing(content, config)], with the clock reading it takes,
    the project root and the files before the call; it returns the
    files after the call and the path written.  Directories are not
    modelled: [mkdir] with [exist_ok] changes no file. *)
Definition save_briefing (now : DateTime) (project_root : string)
    (content : string) (config : Config) (fs : FileSystem)
    : FileSystem * string :=
  let review_path := (project_root +:+ "/Daily Review")%string in
  let date_str := Clock.date_str now in
  let time_str := Clock.time_str now in
  let filename :=
    (date_str +:+ " - Daily Briefing (" +:+ time_str +:+ ").md")%string in
  let filepath := (review_path +:+ "/" +:+ filename)%string in
  (<[filepath := content]> fs, filepath).

(* ===================================================================== *)
(** ** Fetch loops: shared state *)
(* ===================================================================== *)

(** An answer of a remote service: the exception message, or the
    payload. *)
Definition Response (A : Type) : Type := (string + A)%type.

(** The variables of a fetch loop: the posts kept so far, the
    identifiers seen so far, and the events so far. *)
Record FetchState := {
  all_posts : list NormalizedPost;
  seen_ids : gset string;
  trace : list Event
}.

Definition initial_fetch_state (events : list Event) : FetchState :=
  {| all_posts := []; seen_ids := ∅; trace := events |}.

Definition emit (e : Event) (st : FetchState) : FetchState :=
  {| all_posts := all_posts st; seen_ids := seen_ids st;
     trace := trace st ++ [e] |}.

(** [seen_ids.add(p["post_id"]); all_posts.append(p)] *)
Definition keep (p : NormalizedPost) (st : FetchState) : FetchState :=
  {| all_posts := all_posts st ++ [p];
     seen_ids := {[ post_id p ]} ∪ seen_ids st;
     trace := trace st |}.

(** [for i, query in enumerate(queries, i): body], the loop variables
    being threaded through [body]. *)
Fixpoint for_enumerate (body : Z -> string -> FetchState -> FetchState)
    (i : Z) (queries : list string) (st : FetchState) : FetchState :=
  match queries with
  | [] => st
  | query :: rest => for_enumerate body (i + 1) rest (body i query st)
  end.

(** The progress line [f"  [{i}/{n}] {query}"], printed with [end=" "]. *)
Definition progress_line (i n : Z) (query : string) : string :=
  ("  [" +:+ Str.of_Z i +:+ "/" +:+ Str.of_Z n +:+ "] " +:+ query)%string.

(** Python truthiness of a string. *)
Definition truthy (s : string) : bool := negb (String.eqb s "").

(* ===================================================================== *)
(** ** Bluesky *)
(* ===================================================================== *)

(** What the extractor reads from a search hit; [None] is an attribute
    or key that is absent (or [None] for a counter). *)
Record BlueskyFields := {
  raw_handle : option string;
  raw_display_name : option string;
  raw_uri : option string;
  raw_text : option string;
  raw_created_at : option string;
  raw_like_count : option Z;
  raw_reply_count : option Z;
  raw_repost_count : option Z
}.

(** A search hit comes either as an SDK object (it has a [record]
    attribute) or as a plain mapping with camel-case keys. *)
Inductive BlueskyHit :=
| SdkObject (fields : BlueskyFields)
| Mapping (fields : BlueskyFields).

Definition hit_fields (hit : BlueskyHit) : BlueskyFields :=
  match hit with
  | SdkObject f | Mapping f => f
  end.

(** The services the Bluesky fetcher calls. *)
Record BlueskyEnv := {
  atproto_available : bool;
  bluesky_queries : list string;
  bluesky_login : string -> string -> Response unit;
  search_posts : string -> Z -> option string -> Response (list BlueskyHit)
}.

(** [get_bluesky_client(config)]: [Some tt] is a logged-in client. *)
Definition get_bluesky_client (env : BlueskyEnv) (config : Config)
    : option unit * list Event :=
  if negb (atproto_available env) then (None, [])
  else
    let username := get (bluesky_username config) ""%string in
    let password := get (bluesky_password config) ""%string in
    if negb (truthy username) || negb (truthy password) then (None, [])
    else
      match bluesky_login env username password with
      | inr client => (Some client, [])
      | inl e => (None, [Print ("  Bluesky login failed: " +:+ e)%string])
      end.

(** [bluesky_search(client, query, limit, lang)] for a client that is
    not [None]. *)
Definition bluesky_search (env : BlueskyEnv) (query : string) (limit : Z)
    (lang : option string) : list BlueskyHit * list Event :=
  let lang_param :=
    match lang with
    | Some l => if truthy l then Some l else None
    | None => None
    end in
  match search_posts env query (Z.min limit 100) lang_param with
  | inr posts => (posts, [])
  | inl e =>
      ([], [Print ("  Error searching for '" +:+ query +:+ "': " +:+ e)%string])
  end.

(** The dictionary built from the fields read off a hit. *)
Definition bluesky_post_of (handle : string) (uri : string) (body : string)
    (created : string) (like_count reply_count repost_count : option Z)
    (display_name : string) : NormalizedPost :=
  let post_id := if truthy uri then Str.last_segment uri else ""%string in
  let web_url :=
    if truthy handle && truthy post_id
    then ("https://bsky.app/profile/" +:+ handle +:+ "/post/" +:+ post_id)%string
    else ""%string in
  let or0 (c : option Z) := get c 0 in
  {| platform := "bluesky";
     post_id := post_id;
     url := web_url;
     author_handle := handle;
     author_name := if truthy display_name then display_name else handle;
     text := body;
     created_at := created;
     likes := or0 like_count;
     replies := or0 reply_count;
     reposts := or0 repost_count;
     engagement_total :=
       or0 like_count + or0 reply_count + or0 repost_count;
     matched_query := "";
     views := None; title := None; description := None;
     channel_url := None |}.

(** [extract_bluesky_post(post)] *)
Definition extract_bluesky_post (hit : BlueskyHit) : NormalizedPost :=
  match hit with
  | SdkObject f =>
      (* attributes handle, uri, text, created_at, like_count, ... *)
      let handle := get (raw_handle f) ""%string in
      let uri := get (raw_uri f) ""%string in
      let body := get (raw_text f) ""%string in
      let created := get (raw_created_at f) ""%string in
      let display_name := get (raw_display_name f) handle in
      bluesky_post_of handle uri body created (raw_like_count f)
                      (raw_reply_count f) (raw_repost_count f) display_name
  | Mapping f =>
      (* keys handle, uri, text, createdAt, likeCount, ... *)
      let handle := get (raw_handle f) ""%string in
      let uri := get (raw_uri f) ""%string in
      let body := get (raw_text f) ""%string in
      let created := get (raw_created_at f) ""%string in
      let display_name := get (raw_display_name f) handle in
      bluesky_post_of handle uri body created (raw_like_count f)
                      (raw_reply_count f) (raw_repost_count f) display_name
  end.

(** [extracted["matched_query"] = query] *)
Definition with_matched_query (query : string) (p : NormalizedPost)
    : NormalizedPost :=
  {| platform := platform p; post_id := post_id p; url := url p;
     author_handle := author_handle p; author_name := author_name p;
     text := text p; created_at := created_at p; likes := likes p;
     replies := replies p; reposts := reposts p;
     engagement_total := engagement_total p; matched_query := query;
     views := views p; title := title p; description := description p;
     channel_url := channel_url p |}.

(** Body of [for post in posts] in [fetch_bluesky]. *)
Definition bluesky_collect (query : string) (st : FetchState)
    (hit : BlueskyHit) : FetchState :=
  let extracted := with_matched_query query (extract_bluesky_post hit) in
  if decide (post_id extracted ∈ seen_ids st) then st
  else keep extracted st.

(** Body of [for i, query in enumerate(queries, 1)] in [fetch_bluesky];
    [n] is [len(queries)]. *)
Definition bluesky_step (env : BlueskyEnv) (limit : Z) (lang : string)
    (n i : Z) (query : string) (st : FetchState) : FetchState :=
  let st := emit (Print (progress_line i n query)) st in
  let '(posts, events) := bluesky_search env query limit (Some lang) in
  let st := fold_left (fun s e => emit e s) events st in
  let st := emit (Print ("-> " +:+ Str.of_Z (len posts) +:+ " posts")%string) st in
  let st := fold_left (bluesky_collect query) posts st in
  if i <? n then emit (Sleep 300) st else st.

(** The query loop of [fetch_bluesky]. *)
Definition bluesky_loop (env : BlueskyEnv) (limit : Z) (lang : string)
    (queries : list string) (st : FetchState) : FetchState :=
  for_enumerate (bluesky_step env limit lang (len queries)) 1 queries st.

(** [fetch_bluesky(config)]: the posts returned and the events. *)
Definition fetch_bluesky (env : BlueskyEnv) (config : Config)
    : list NormalizedPost * list Event :=
  let listener_config :=
    get (listener_bluesky config)
        {| enabled := None; posts_per_query := None;
           videos_per_query := None; language := None;
           max_age_days := None |} in
  if negb (get (enabled listener_config) false)
  then ([], [Print "Bluesky: Disabled in config"])
  else if negb (atproto_available env)
  then ([], [Print "Bluesky: atproto SDK not installed. Run: pip3 install atproto"])
  else
    let queries := bluesky_queries env in
    match queries with
    | [] => ([], [Print "Bluesky: No active queries"])
    | _ :: _ =>
        let posts_per_query := get (posts_per_query listener_config) 25 in
        let lang := get (language listener_config) "en"%string in
        let banner :=
          Print ("Bluesky: " +:+ Str.of_Z (len queries) +:+ " queries, "
                 +:+ Str.of_Z posts_per_query +:+ " posts each")%string in
        let '(client, login_events) := get_bluesky_client env config in
        match client with
        | None =>
            ([], banner :: login_events ++ [Print "Bluesky: Authentication failed"])
        | Some _ =>
            let st :=
              bluesky_loop env posts_per_query lang queries
                           (initial_fetch_state (banner :: login_events)) in
            (all_posts st, trace st)
        end
    end.

(* ===================================================================== *)
(** ** YouTube *)
(* ===================================================================== *)

(** An item of a search answer; [None] is an absent key. *)
Record YouTubeItem := {
  item_video_id : option string;
  snippet_title : option string;
  snippet_description : option string;
  snippet_channel_title : option string;
  snippet_channel_id : option string;
  snippet_published_at : option string
}.

(** An item of a statistics answer, counters already parsed. *)
Record YouTubeStatsItem := {
  stats_id : option string;
  stats_view_count : option Z;
  stats_like_count : option Z;
  stats_comment_count : option Z
}.

(** A value of the dictionary returned by [fetch_youtube_stats]. *)
Record VideoStats := {
  stat_views : Z;
  stat_likes : Z;
  stat_comments : Z
}.

(** The services the YouTube fetcher calls: the query file, the cut-off
    date computed from the clock, the search endpoint (key, query,
    maxResults, publishedAfter) and the statistics endpoint (key, ids). *)
Record YouTubeEnv := {
  youtube_queries : list string;
  published_after_date : Z -> string;
  youtube_search : string -> string -> Z -> string -> Response (list YouTubeItem);
  youtube_videos : string -> list string -> Response (list YouTubeStatsItem)
}.

(** [fetch_youtube_stats(api_key, video_ids)] *)
Definition fetch_youtube_stats (env : YouTubeEnv) (api_key : string)
    (video_ids : list string) : gmap string VideoStats :=
  match youtube_videos env api_key video_ids with
  | inr items =>
      fold_left
        (fun result item =>
           <[ get (stats_id item) ""%string :=
                {| stat_views := get (stats_view_count item) 0;
                   stat_likes := get (stats_like_count item) 0;
                   stat_comments := get (stats_comment_count item) 0 |} ]>
             result)
        items ∅
  | inl _ => ∅
  end.

(** [extract_youtube_video(item, query, stats)]; [stats] is [None] for
    the empty dictionary. *)
Definition extract_youtube_video (item : YouTubeItem) (query : string)
    (stats : option VideoStats) : NormalizedPost :=
  let video_id := get (item_video_id item) ""%string in
  let video_title := get (snippet_title item) ""%string in
  let video_description := get (snippet_description item) ""%string in
  let channel_name := get (snippet_channel_title item) ""%string in
  let channel_id := get (snippet_channel_id item) ""%string in
  let published_at := get (snippet_published_at item) ""%string in
  let video_url := ("https://www.youtube.com/watch?v=" +:+ video_id)%string in
  let channel :=
    if truthy channel_id
    then ("https://www.youtube.com/channel/" +:+ channel_id)%string
    else ""%string in
  let view_count := match stats with Some s => stat_views s | None => 0 end in
  let like_count := match stats with Some s => stat_likes s | None => 0 end in
  let comment_count :=
    match stats with Some s => stat_comments s | None => 0 end in
  {| platform := "youtube";
     post_id := video_id;
     url := video_url;
     author_handle := channel_name;
     author_name := channel_name;
     text :=
       if truthy video_description
       then ("**" +:+ video_title +:+ "**" +:+ String "010" (String "010" "")
             +:+ video_description)%string
       else ("**" +:+ video_title +:+ "**")%string;
     created_at := published_at;
     likes := like_count;
     replies := comment_count;
     reposts := 0;
     engagement_total := like_count + comment_count;
     matched_query := query;
     views := Some view_count;
     title := Some video_title;
     description := Some video_description;
     channel_url := Some channel |}.

(** Body of [for item in items] in [fetch_youtube]. *)
Definition youtube_collect (query : string) (stats : gmap string VideoStats)
    (st : FetchState) (item : YouTubeItem) : FetchState :=
  let video_id := get (item_video_id item) ""%string in
  if negb (truthy video_id) then st
  else if decide (video_id ∈ seen_ids st) then st
  else keep (extract_youtube_video item query (stats !! video_id)) st.

(** Body of [for i, query in enumerate(queries, 1)] in [fetch_youtube]:
    the [try] block, its [except] clause with [continue], and the pause
    that only a query without exception reaches. *)
Definition youtube_step (env : YouTubeEnv) (api_key : string)
    (listener_config : ListenerConfig) (n i : Z) (query : string)
    (st : FetchState) : FetchState :=
  let st := emit (Print (progress_line i n query)) st in
  let max_results := Z.min (get (videos_per_query listener_config) 10) 50 in
  let published_after :=
    published_after_date env (get (max_age_days listener_config) 90) in
  match youtube_search env api_key query max_results published_after with
  | inr items =>
      let st :=
        emit (Print ("-> " +:+ Str.of_Z (len items) +:+ " videos")%string) st in
      let video_ids := omap item_video_id items in
      let stats :=
        match video_ids with
        | [] => ∅
        | _ :: _ => fetch_youtube_stats env api_key video_ids
        end in
      let st := fold_left (youtube_collect query stats) items st in
      if i <? n then emit (Sleep 500) st else st
  | inl e => emit (Print ("-> ERROR: " +:+ e)%string) st
  end.

(** The query loop of [fetch_youtube]. *)
Definition youtube_loop (env : YouTubeEnv) (api_key : string)
    (listener_config : ListenerConfig) (queries : list string)
    (st : FetchState) : FetchState :=
  for_enumerate (youtube_step env api_key listener_config (len queries))
                1 queries st.

(** [fetch_youtube(config)]: the videos returned and the events. *)
Definition fetch_youtube (env : YouTubeEnv) (config : Config)
    : list NormalizedPost * list Event :=
  let listener_config :=
    get (listener_youtube config)
        {| enabled := None; posts_per_query := None;
           videos_per_query := None; language := None;
           max_age_days := None |} in
  if negb (get (enabled listener_config) false)
  then ([], [Print "YouTube: Disabled in config"])
  else
    let api_key := get (youtube_api_key config) ""%string in
    if negb (truthy api_key)
    then ([], [Print "YouTube: No API key in config. Get one from Google Cloud Console."])
    else
      let queries := youtube_queries env in
      match queries with
      | [] => ([], [Print "YouTube: No active queries in queries/youtube.yaml"])
      | _ :: _ =>
          let per_query := get (videos_per_query listener_config) 10 in
          let banner :=
            Print ("YouTube: " +:+ Str.of_Z (len queries) +:+ " queries, "
                   +:+ Str.of_Z per_query +:+ " videos each")%string in
          let st :=
            youtube_loop env api_key listener_config queries
                         (initial_fetch_state [banner]) in
          (all_posts st, trace st)
      end.

(* ===================================================================== *)
(** ** Twitter listener *)
(* ===================================================================== *)

(** A tweet of a scraper answer; [None] is an absent key. *)
Record Tweet := {
  tweet_id : option string;
  tweet_author_user_name : option string;
  tweet_author_name : option string;
  tweet_author_followers : option Z;
  tweet_author_description : option string;
  tweet_text : option string;
  tweet_url : option string;
  tweet_created_at : option string;
  tweet_like_count : option Z;
  tweet_retweet_count : option Z;
  tweet_reply_count : option Z;
  tweet_is_reply : option bool
}.

(** [config["twitter"]] *)
Record TwitterConfig := {
  search_queries : option (list string);
  tweets_per_query : option Z;
  min_likes : option Z;
  min_replies : option Z;
  twitter_language : option string
}.

(** The variables of the listener's query loop: the URLs already in the
    inbox, the files of the inbox, the three counters and the events. *)
Record ListenerState := {
  existing_urls : gset string;
  inbox : FileSystem;
  total_found : Z;
  total_new : Z;
  total_saved : Z;
  console : list Event
}.

Definition say (line : string) (st : ListenerState) : ListenerState :=
  {| existing_urls := existing_urls st; inbox := inbox st;
     total_found := total_found st; total_new := total_new st;
     total_saved := total_saved st;
     console := console st ++ [Print line] |}.

(** [total_found += n] *)
Definition found (n : Z) (st : ListenerState) : ListenerState :=
  {| existing_urls := existing_urls st; inbox := inbox st;
     total_found := total_found st + n;
     total_new := total_new st; total_saved := total_saved st;
     console := console st |}.

Section TwitterListener.

(** The scraper actor (query, maxTweets, language); the MD5-based
    identifier of a URL; the markdown rendering of a tweet; the
    [%Y-%m-%d-%H%M] reading of the clock; the inbox directory. *)
Variable scraper : string -> Z -> string -> Response (list Tweet).
Variable generate_signal_id : string -> string.
Variable tweet_to_markdown : Tweet -> string -> string.
Variable timestamp : string.
Variable inbox_path : string.

(** [save_signal(signal_content, tweet_url, inbox_path)] *)
Definition save_signal (signal_content url : string) (fs : FileSystem)
    : FileSystem * string :=
  let signal_id := generate_signal_id url in
  let filename := (timestamp +:+ "-twitter-" +:+ signal_id +:+ ".md")%string in
  let filepath := (inbox_path +:+ "/" +:+ filename)%string in
  (<[filepath := signal_content]> fs, filename).

(** Body of [for tweet in tweets] in [run_listener], for a rendering
    and a writing that raise nothing; [listener_collect_raising] below
    is the body with their exceptions. *)
Definition listener_collect (cfg : TwitterConfig) (query : string)
    (st : ListenerState) (tweet : Tweet) : ListenerState :=
  let url := get (tweet_url tweet) ""%string in
  if decide (url ∈ existing_urls st) then st
  else
    let like_count := get (tweet_like_count tweet) 0 in
    let reply_count := get (tweet_reply_count tweet) 0 in
    if (like_count <? get (min_likes cfg) 0)
       || (reply_count <? get (min_replies cfg) 0)
    then st
    else
      let signal_md := tweet_to_markdown tweet query in
      let '(fs, name) := save_signal signal_md url (inbox st) in
      {| existing_urls := {[ url ]} ∪ existing_urls st;
         inbox := fs;
         total_found := total_found st;
         total_new := total_new st + 1;
         total_saved := total_saved st + 1;
         console := console st ++ [Print ("  + Saved: " +:+ name)%string] |}.

(** Body of [for query in search_queries] in [run_listener]: the
    [try] block and its [except] clause with [continue]. *)
Definition listener_step (cfg : TwitterConfig) (st : ListenerState)
    (query : string) : ListenerState :=
  let st := say ("Searching: " +:+ query) st in
  match scraper query (get (tweets_per_query cfg) 20)
                (get (twitter_language cfg) "en"%string) with
  | inr tweets =>
      let st :=
        say ("  Found: " +:+ Str.of_Z (len tweets) +:+ " tweets") st in
      let st := found (len tweets) st in
      let st := fold_left (listener_collect cfg query) tweets st in
      say "" st
  | inl e => say ("  ERROR: " +:+ e) st
  end.

(** The query loop of [run_listener(config, config_dir)], from the
    URLs and files found in the inbox, and the value it returns. *)
Definition run_listener_loop (cfg : TwitterConfig) (urls : gset string)
    (fs : FileSystem) : ListenerState :=
  fold_left (listener_step cfg)
            (get (search_queries cfg) [])
            {| existing_urls := urls; inbox := fs; total_found := 0;
               total_new := 0; total_saved := 0; console := [] |}.

Definition run_listener (cfg : TwitterConfig) (urls : gset string)
    (fs : FileSystem) : Z :=
  total_saved (run_listener_loop cfg urls fs).

End TwitterListener.

(* ===================================================================== *)
(** ** Specification-side definitions *)
(* ===================================================================== *)



(** [term] is present in [text] as a substring: some text before it
    and some text after it make up [text]. *)
Definition occurs_in (term text : string) : Prop :=
  exists before after : string, text = (before +:+ term +:+ after)%string.

(** [n] is the number of terms of the vocabulary [terms] that are
    present in [text]: each term of the list counts for one when it
    occurs, however often, and for nothing when it does not. *)
Fixpoint presence_count (terms : list string) (text : string) (n : Z)
    : Prop :=
  match terms with
  | [] => n = 0
  | term :: rest =>
      (occurs_in term text /\ presence_count rest text (n - 1))
      \/ (~ occurs_in term text /\ presence_count rest text n)
  end.


(** The exact weighted sum of five sub-scores, times 100. *)
Definition weighted_sum_x100 (icp topic reach timing stage : Z) : Z :=
  30 * icp + 25 * topic + 15 * reach + 15 * timing + 15 * stage.

(** The total as the specification words it: the exact weighted sum
    rounded to the nearest integer, ties to even. *)
Definition total_spec (icp topic reach timing stage : Z) : Z :=
  F64.round_half_even_div (weighted_sum_x100 icp topic reach timing stage) 100.

(** The path of the report of a run whose clock reads [now]. *)
Definition briefing_path (now : DateTime) (project_root : string) : string :=
  ((project_root +:+ "/Daily Review") +:+ "/"
   +:+ (Clock.date_str now +:+ " - Daily Briefing (" +:+ Clock.time_str now
        +:+ ").md"))%string.

#[global] Instance Priority_eq_dec : EqDecision Priority.
Proof. solve_decision. Defined.


(** The values each text- or engagement-based sub-score can take. *)
Definition icp_values : list Z :=
  [5; 10; 15; 20; 25; 30; 35; 40; 45; 50;
   55; 60; 65; 70; 75; 80; 85; 90; 95; 100].
Definition topic_values : list Z := [15; 25; 30; 45; 60; 75; 90; 100].
Definition reach_values : list Z := [100; 80; 60; 40; 25; 10].
Definition stage_values : list Z := [85; 75; 30; 50].

(** The float total of one combination of sub-scores is the rounded
    exact sum, is within half a point of it, and lies in [0, 100]. *)
Definition total_agrees (icp topic reach stage : Z) : bool :=
  match F64.round (weighted_sum icp topic reach 80 stage) with
  | Some t =>
      (t =? total_spec icp topic reach 80 stage)
      && (Z.abs (100 * t - weighted_sum_x100 icp topic reach 80 stage) <=? 50)
      && (0 <=? t) && (t <=? 100)
  | None => false
  end.

(** The post of the worked example. *)
Definition example_post : NormalizedPost :=
  bare_post "I'm looking for decentralized storage, tired of big tech" 12.

(** The default of [config["listener"][platform]]: no entry. *)
Definition no_listener_config : ListenerConfig :=
  {| enabled := None; posts_per_query := None; videos_per_query := None;
     language := None; max_age_days := None |}.

(** The same services with another query file. *)
Definition with_youtube_queries (env : YouTubeEnv) (queries : list string)
    : YouTubeEnv :=
  {| youtube_queries := queries;
     published_after_date := published_after_date env;
     youtube_search := youtube_search env;
     youtube_videos := youtube_videos env |}.

Definition with_bluesky_queries (env : BlueskyEnv) (queries : list string)
    : BlueskyEnv :=
  {| atproto_available := atproto_available env;
     bluesky_queries := queries;
     bluesky_login := bluesky_login env;
     search_posts := search_posts env |}.

Definition with_search_queries (cfg : TwitterConfig) (queries : list string)
    : TwitterConfig :=
  {| search_queries := Some queries;
     tweets_per_query := tweets_per_query cfg;
     min_likes := min_likes cfg;
     min_replies := min_replies cfg;
     twitter_language := twitter_language cfg |}.

(** The search request that [fetch_youtube] sends for [query] raises
    the exception [e]. *)
Definition youtube_request_fails (env : YouTubeEnv) (config : Config)
    (query e : string) : Prop :=
  let listener_config := get (listener_youtube config) no_listener_config in
  youtube_search env (get (youtube_api_key config) ""%string) query
                 (Z.min (get (videos_per_query listener_config) 10) 50)
                 (published_after_date
                    env (get (max_age_days listener_config) 90))
  = inl e.

(** The search request that [fetch_bluesky] sends for [query] raises
    the exception [e]. *)
Definition bluesky_request_fails (env : BlueskyEnv) (config : Config)
    (query e : string) : Prop :=
  let listener_config := get (listener_bluesky config) no_listener_config in
  let lang := get (language listener_config) "en"%string in
  search_posts env query
               (Z.min (get (posts_per_query listener_config) 25) 100)
               (if truthy lang then Some lang else None)
  = inl e.

(** [fetch_bluesky] gets as far as its query loop: the platform is
    enabled, the SDK is installed and the login succeeds. *)
Definition bluesky_ready (env : BlueskyEnv) (config : Config) : bool :=
  get (enabled (get (listener_bluesky config) no_listener_config)) false
  && atproto_available env
  && match fst (get_bluesky_client env config) with
     | Some _ => true
     | None => false
     end.

(** A search hit without a usable [uri]. *)
Definition without_uri (hit : BlueskyHit) : Prop :=
  raw_uri (hit_fields hit) = None \/ raw_uri (hit_fields hit) = Some ""%string.

(** Two states of a fetch loop with the same posts and the same
    identifiers, whatever was printed. *)
Definition same_data (st st' : FetchState) : Prop :=
  all_posts st = all_posts st' /\ seen_ids st = seen_ids st'.

(** A state reached from another by appending events only. *)
Definition extends (st st' : FetchState) : Prop :=
  exists more, trace st' = trace st ++ more.

(** Two states of the listener loop that differ at most by the
    console. *)
Definition same_signals (st st' : ListenerState) : Prop :=
  existing_urls st = existing_urls st' /\ inbox st = inbox st'
  /\ total_found st = total_found st' /\ total_new st = total_new st'
  /\ total_saved st = total_saved st'.

(** The identifiers of the kept posts are pairwise distinct and all
    recorded as seen. *)
Definition deduplicated (st : FetchState) : Prop :=
  NoDup (map post_id (all_posts st))
  /\ forall p, In p (all_posts st) -> post_id p ∈ seen_ids st.

(** Number of posts whose identifier is the empty string. *)
Definition empty_id_count (posts : list NormalizedPost) : nat :=
  length (filter (fun p => post_id p = ""%string) posts).

(* ===================================================================== *)
(** ** Sample inputs *)
(* ===================================================================== *)

Module Sample.
Local Open Scope string_scope.

(** Two runs of the same morning, 34 seconds apart. *)
Definition run_090307 : DateTime :=
  {| year := 2026; month := 1; day := 5; hour := 9; minute := 3;
     second := 7; microsecond := 0 |}.

Definition run_090341 : DateTime :=
  {| year := 2026; month := 1; day := 5; hour := 9; minute := 3;
     second := 41; microsecond := 0 |}.

Definition project_root : string := "/srv/marketing-os".

Definition scored (body : string) (engagement t : Z) (tier : Priority)
    : ScoredPost :=
  {| post := bare_post body engagement;
     score := {| total := t; icp_match := 30; topic_relevance := 25;
                 reach_potential := 10; timing := 80;
                 conversation_stage := 50 |};
     priority := tier |}.

Definition three_posts : list ScoredPost :=
  [ scored "first" 0 36 low; scored "second" 0 72 high;
    scored "third" 0 55 medium ].

Definition stats : Stats :=
  {| platforms := "Bluesky"; queries_run := 2; total_fetched := 3;
     unique_posts := 3 |}.

(** Two different hits, neither with a [uri]. *)
Definition hit_a : BlueskyHit :=
  SdkObject {| raw_handle := Some "ada.bsky.social";
               raw_display_name := Some "Ada"; raw_uri := None;
               raw_text := Some "Looking for decentralized storage";
               raw_created_at := Some "2026-01-05T08:00:00Z";
               raw_like_count := Some 3; raw_reply_count := None;
               raw_repost_count := Some 1 |}.

Definition hit_b : BlueskyHit :=
  Mapping {| raw_handle := Some "bob.bsky.social";
             raw_display_name := None; raw_uri := Some "";
             raw_text := Some "Tired of big tech";
             raw_created_at := Some "2026-01-05T08:30:00Z";
             raw_like_count := Some 12; raw_reply_count := Some 2;
             raw_repost_count := None |}.

Definition bluesky_config : Config :=
  {| scorer_thresholds := None;
     listener_bluesky :=
       Some {| enabled := Some true; posts_per_query := None;
               videos_per_query := None; language := None;
               max_age_days := None |};
     listener_youtube :=
       Some {| enabled := Some true; posts_per_query := None;
               videos_per_query := Some 5; language := None;
               max_age_days := None |};
     bluesky_username := Some "me.bsky.social";
     bluesky_password := Some "app-password";
     youtube_api_key := Some "key" |}.

(** A Bluesky service whose search fails on the query "storj" and
    answers the two hits above on any other query. *)
Definition bluesky_env : BlueskyEnv :=
  {| atproto_available := true;
     bluesky_queries := ["data sovereignty"; "storj"; "self-hosting"];
     bluesky_login := fun _ _ => inr tt;
     search_posts := fun query _ _ =>
       if String.eqb query "storj" then inl "rate limit exceeded"
       else inr [hit_a; hit_b] |}.

Definition video (id name : string) : YouTubeItem :=
  {| item_video_id := Some id; snippet_title := Some name;
     snippet_description := None; snippet_channel_title := Some "channel";
     snippet_channel_id := None; snippet_published_at := None |}.

(** A YouTube service whose search fails on the query "storj". *)
Definition youtube_env : YouTubeEnv :=
  {| youtube_queries := ["data sovereignty"; "storj"; "self-hosting"];
     published_after_date := fun _ => "2025-10-07T00:00:00Z";
     youtube_search := fun _ query _ _ =>
       if String.eqb query "storj" then inl "503 Server Error"
       else inr [video (query +:+ "-1") "one"; video "shared" "two"];
     youtube_videos := fun _ _ => inl "quota exceeded" |}.

Definition tweet (link : string) (like_count : Z) : Tweet :=
  {| tweet_id := None; tweet_author_user_name := Some "carol";
     tweet_author_name := None; tweet_author_followers := None;
     tweet_author_description := None; tweet_text := Some "text";
     tweet_url := Some link; tweet_created_at := None;
     tweet_like_count := Some like_count; tweet_retweet_count := None;
     tweet_reply_count := None; tweet_is_reply := None |}.

(** A scraper that fails on the query "storj". *)
Definition scraper (query : string) (max_tweets : Z) (lang : string)
    : Response (list Tweet) :=
  if String.eqb query "storj" then inl "actor run failed"
  else inr [tweet ("https://x.com/carol/status/" +:+ query) 4].

Definition twitter_config : TwitterConfig :=
  {| search_queries := None; tweets_per_query := None;
     min_likes := Some 1; min_replies := None;
     twitter_language := None |}.

End Sample.

(* ===================================================================== *)
(** ** Ranking: specification-side definitions *)
(* ===================================================================== *)

From Stdlib Require Import Sorted.

(** [a] is ranked no lower than [b]. *)
Definition outranks (a b : ScoredPost) : Prop :=
  total (score a) >= total (score b).

(** The posts of a list whose total is [t], in the order of the list. *)
Definition with_total (t : Z) (posts : list ScoredPost) : list ScoredPost :=
  filter (fun p => total (score p) = t) posts.

(* ===================================================================== *)
(** ** Fetchers: specification-side definitions *)
(* ===================================================================== *)

(** No slash in a string. *)
Definition slash_free (s : string) : Prop := Str.contains "/" s = false.

(** What holds of a post returned by [fetch_bluesky] for the queries
    [queries]. *)
Definition bluesky_post_ok (queries : list string) (p : NormalizedPost)
    : Prop :=
  platform p = "bluesky"%string
  /\ In (matched_query p) queries
  /\ engagement_total p = likes p + replies p + reposts p
  /\ slash_free (post_id p)
  /\ (url p = ""%string
      \/ (author_handle p <> ""%string /\ post_id p <> ""%string
          /\ url p = ("https://bsky.app/profile/" +:+ author_handle p
                      +:+ "/post/" +:+ post_id p)%string))
  /\ views p = None.

(** What holds of a video returned by [fetch_youtube] for the queries
    [queries]. *)
Definition youtube_post_ok (queries : list string) (p : NormalizedPost)
    : Prop :=
  platform p = "youtube"%string
  /\ In (matched_query p) queries
  /\ post_id p <> ""%string
  /\ url p = ("https://www.youtube.com/watch?v=" +:+ post_id p)%string
  /\ reposts p = 0
  /\ engagement_total p = likes p + replies p
  /\ views p <> None
  /\ author_handle p = author_name p.

(** A video for which no statistics were found. *)
Definition without_statistics (p : NormalizedPost) : Prop :=
  likes p = 0 /\ replies p = 0 /\ views p = Some 0
  /\ engagement_total p = 0.

(** A video as [extract_youtube_video] builds it when it is given no
    statistics: the counters at their default 0. *)
Definition without_counters (p : NormalizedPost) : NormalizedPost :=
  {| platform := platform p; post_id := post_id p; url := url p;
     author_handle := author_handle p; author_name := author_name p;
     text := text p; created_at := created_at p;
     likes := 0; replies := 0; reposts := reposts p;
     engagement_total := 0; matched_query := matched_query p;
     views := Some 0; title := title p; description := description p;
     channel_url := channel_url p |}.

(** The same services with another statistics endpoint. *)
Definition with_youtube_videos (env : YouTubeEnv)
    (videos : string -> list string -> Response (list YouTubeStatsItem))
    : YouTubeEnv :=
  {| youtube_queries := youtube_queries env;
     published_after_date := published_after_date env;
     youtube_search := youtube_search env;
     youtube_videos := videos |}.

(** A statistics endpoint that answers for every video asked. *)
Definition sample_video_statistics (key : string) (ids : list string)
    : Response (list YouTubeStatsItem) :=
  inr (map (fun id => {| stats_id := Some id;
                         stats_view_count := Some 1200;
                         stats_like_count := Some 40;
                         stats_comment_count := Some 7 |})
           ids).

(** Two states of the query loop of [fetch_youtube] that differ by
    the counters of the videos only. *)
Definition same_videos (s s' : FetchState) : Prop :=
  all_posts s = map without_counters (all_posts s')
  /\ seen_ids s = seen_ids s'
  /\ trace s = trace s'.

(* ===================================================================== *)
(** ** Twitter listener: signal files *)
(* ===================================================================== *)

Module Text.

(** The line feed. *)
Definition newline : ascii := "010"%char.
Definition nl : string := String newline EmptyString.

(** [s.split("\n")]; [acc] is the line read so far. *)
Fixpoint split_lines_from (acc s : string) : list string :=
  match s with
  | EmptyString => [acc]
  | String c rest =>
      if Ascii.eqb c newline then acc :: split_lines_from EmptyString rest
      else split_lines_from (acc +:+ String c EmptyString) rest
  end.

Definition split_lines (s : string) : list string :=
  split_lines_from EmptyString s.

(** [s.replace(old, new)] for a non-empty [old]: the occurrences of
    [old] are replaced from left to right, without overlap.  [skip] is
    the number of characters of a matched occurrence still to drop. *)
Fixpoint replace_from (old new s : string) (skip : nat) : string :=
  match s with
  | EmptyString => EmptyString
  | String c rest =>
      match skip with
      | S k => replace_from old new rest k
      | O =>
          if Str.startswith old s
          then (new +:+ replace_from old new rest (String.length old - 1))%string
          else String c (replace_from old new rest 0)
      end
  end.

Definition replace (old new s : string) : string := replace_from old new s 0.

(** The code points [c] for which [chr(c).isspace()] holds: the
    ASCII white space, the four separators 28 to 31, the next-line and
    no-break-space characters, and the Unicode spaces and line and
    paragraph separators. *)
Definition whitespace_code_points : list N :=
  [ 9; 10; 11; 12; 13; 28; 29; 30; 31; 32; 133; 160; 5760;
    8192; 8193; 8194; 8195; 8196; 8197; 8198; 8199; 8200; 8201; 8202;
    8232; 8233; 8239; 8287; 12288 ]%N.

(** The UTF-8 encoding of a code point below 65536. *)
Definition utf8 (c : N) : string :=
  if (c <? 128)%N then String (ascii_of_N c) EmptyString
  else if (c <? 2048)%N then
    String (ascii_of_N (192 + c / 64))
      (String (ascii_of_N (128 + c mod 64)) EmptyString)
  else
    String (ascii_of_N (224 + c / 4096))
      (String (ascii_of_N (128 + (c / 64) mod 64))
         (String (ascii_of_N (128 + c mod 64)) EmptyString)).

(** The white-space characters, encoded. *)
Definition whitespace : list string := map utf8 whitespace_code_points.

(** Number of bytes of the character of [spaces] that [s] starts
    with, 0 when it starts with none. *)
Definition space_width (spaces : list string) (s : string) : nat :=
  match List.find (fun w => Str.startswith w s) spaces with
  | Some w => String.length w
  | None => O
  end.

(** [s] without the characters of [spaces] it starts with; [skip] is
    the number of bytes of a matched character still to drop. *)
Fixpoint lstrip_from (spaces : list string) (skip : nat) (s : string)
    : string :=
  match s with
  | EmptyString => EmptyString
  | String c rest =>
      match skip with
      | S k => lstrip_from spaces k rest
      | O =>
          match space_width spaces s with
          | O => s
          | S k => lstrip_from spaces k rest
          end
      end
  end.

(** [s.lstrip()], [s.rstrip()], which is [lstrip] read from the end,
    and [s.strip()] *)
Definition lstrip (s : string) : string := lstrip_from whitespace 0 s.

Definition rstrip (s : string) : string :=
  String.rev (lstrip_from (map String.rev whitespace) 0 (String.rev s)).

Definition strip (s : string) : string := rstrip (lstrip s).

(** The digits of a number, least significant first, with a comma
    after every third digit that has a digit after it. *)
Fixpoint group3 (reversed : list ascii) : list ascii :=
  match reversed with
  | a :: b :: c :: rest =>
      match rest with
      | [] => reversed
      | _ :: _ => a :: b :: c :: ","%char :: group3 rest
      end
  | _ => reversed
  end.

(** [f"{n:,}"] for an integer. *)
Definition with_commas (n : Z) : string :=
  let digits := list_ascii_of_string (Str.of_Z (Z.abs n)) in
  let grouped := string_of_list_ascii (rev (group3 (rev digits))) in
  if n <? 0 then String "-" grouped else grouped.

End Text.

(** The tweet dictionary read with its defaults. *)
Module Signal.
Local Open Scope string_scope.

Definition author_username (t : Tweet) : string :=
  get (tweet_author_user_name t) "unknown".

Definition author_name (t : Tweet) : string :=
  get (tweet_author_name t) (author_username t).

(** The URL written in the file: the tweet's own, or the status link
    built from the user name and the tweet identifier. *)
Definition stored_url (t : Tweet) : string :=
  get (tweet_url t)
      ("https://twitter.com/" +:+ author_username t +:+ "/status/"
       +:+ get (tweet_id t) "").

(** [str(b).lower()] *)
Definition lower_bool (b : bool) : string := if b then "true" else "false".

(** The frontmatter block of [tweet_to_markdown], line by line. *)
Definition frontmatter_lines (detected_at : string)
    (generate_signal_id : string -> string) (t : Tweet)
    (matched_query : string) : list string :=
  let signal_id := generate_signal_id (stored_url t) in
  let author_name_escaped :=
    Text.replace (String "034" "") (String "092" (String "034" ""))
                 (author_name t) in
  [ "---";
    "id: " +:+ signal_id;
    "source: twitter";
    "url: " +:+ stored_url t;
    "author: " +:+ String "034" "" +:+ "@" +:+ author_username t
      +:+ String "034" "";
    "author_name: " +:+ String "034" "" +:+ author_name_escaped
      +:+ String "034" "";
    "author_followers: " +:+ Str.of_Z (get (tweet_author_followers t) 0%Z);
    "detected_at: " +:+ detected_at;
    "tweet_created_at: " +:+ get (tweet_created_at t) "";
    "keywords_matched:";
    "  - " +:+ String "034" "" +:+ matched_query +:+ String "034" "";
    "engagement:";
    "  likes: " +:+ Str.of_Z (get (tweet_like_count t) 0%Z);
    "  retweets: " +:+ Str.of_Z (get (tweet_retweet_count t) 0%Z);
    "  replies: " +:+ Str.of_Z (get (tweet_reply_count t) 0%Z);
    "is_reply: " +:+ lower_bool (get (tweet_is_reply t) false);
    "status: unscored";
    "---" ].

(** The body of [tweet_to_markdown], line by line; the text starts
    with a line feed and ends with one. *)
Definition body_lines (t : Tweet) (matched_query : string) : list string :=
  let author_bio := get (tweet_author_description t) "" in
  [ "";
    "## Original Tweet";
    "";
    get (tweet_text t) "";
    "";
    "## Author Context";
    "";
    "**@" +:+ author_username t +:+ "** (" +:+ author_name t +:+ ")";
    "- Followers: " +:+ Text.with_commas (get (tweet_author_followers t) 0%Z);
    "- Bio: " +:+ (if truthy author_bio then author_bio else "No bio");
    "";
    "## Engagement";
    "";
    "- Likes: " +:+ Str.of_Z (get (tweet_like_count t) 0%Z);
    "- Retweets: " +:+ Str.of_Z (get (tweet_retweet_count t) 0%Z);
    "- Replies: " +:+ Str.of_Z (get (tweet_reply_count t) 0%Z);
    "";
    "## Matched Query";
    "";
    "`" +:+ matched_query +:+ "`";
    "";
    "## Thread Context";
    "";
    if get (tweet_is_reply t) false
    then "This is a reply to another tweet."
    else "This is an original tweet (not a reply).";
    "" ].

(** [tweet_to_markdown(tweet, matched_query)], with the clock reading
    it takes and the identifier function it calls. *)
Definition tweet_to_markdown (detected_at : string)
    (generate_signal_id : string -> string) (t : Tweet)
    (matched_query : string) : string :=
  Str.join Text.nl
           (frontmatter_lines detected_at generate_signal_id t matched_query)
  +:+ Str.join Text.nl (body_lines t matched_query).

(** The URL a signal file stores: in the first line that starts with
    [url:], what is left when every [url:] is removed and the ends are
    stripped.  [None] when no line starts with [url:]. *)
Fixpoint url_of_lines (lines : list string) : option string :=
  match lines with
  | [] => None
  | line :: rest =>
      if Str.startswith "url:" line
      then Some (Text.strip (Text.replace "url:" "" line))
      else url_of_lines rest
  end.

Definition url_of_signal (content : string) : option string :=
  url_of_lines (Text.split_lines content).

(** Body of [for file in inbox_path.glob("*.md")] in
    [load_existing_urls]: a file is its name and its content, or the
    exception raised when reading it. *)
Definition load_file (acc : gset string * list Event)
    (file : string * Response string) : gset string * list Event :=
  let '(existing, events) := acc in
  let '(name, read) := file in
  match read with
  | inr content =>
      match url_of_signal content with
      | Some u => ({[ u ]} ∪ existing, events)
      | None => (existing, events)
      end
  | inl e =>
      (existing,
       (events
        ++ [Print ("Warning: Could not read " +:+ name +:+ ": " +:+ e)])%list)
  end.

(** [load_existing_urls(inbox_path)] on the markdown files of the
    inbox ([None] when the directory does not exist). *)
Definition load_existing_urls (files : option (list (string * Response string)))
    : gset string * list Event :=
  match files with
  | None => (∅, [])
  | Some files => fold_left load_file files (∅, [])
  end.

End Signal.

(** A URL that survives being written to a signal file and read back:
    one line, no [url:] inside, and no white space, ASCII or not, for
    [str.strip] to remove at either end. *)
Definition storable (u : string) : Prop :=
  Str.contains Text.nl u = false
  /\ Str.contains "url:" u = false
  /\ Text.strip u = u.

(** The URLs a run of the listener has to skip for a tweet not to be
    saved: the tweet is already known, or it is below a threshold. *)
Definition skipped (cfg : TwitterConfig) (urls : gset string) (t : Tweet)
    : Prop :=
  get (tweet_url t) ""%string ∈ urls
  \/ get (tweet_like_count t) 0 < get (min_likes cfg) 0
  \/ get (tweet_reply_count t) 0 < get (min_replies cfg) 0.

(* ===================================================================== *)
(** ** Twitter listener: exceptions inside the tweet loop *)
(* ===================================================================== *)

(** [total_new += 1] *)
Definition counted_new (st : ListenerState) : ListenerState :=
  {| existing_urls := existing_urls st; inbox := inbox st;
     total_found := total_found st; total_new := total_new st + 1;
     total_saved := total_saved st; console := console st |}.

(** The files after a failed [write_text]. *)
Definition with_inbox (fs : FileSystem) (st : ListenerState)
    : ListenerState :=
  {| existing_urls := existing_urls st; inbox := fs;
     total_found := total_found st; total_new := total_new st;
     total_saved := total_saved st; console := console st |}.

Section ListenerExceptions.

(** The scraper actor and the identifier of a URL, as above; the
    markdown rendering of a tweet, which raises on a tweet that is not
    of the shape it reads (an author that is null, a follower count
    that is not a number); [write_error path content fs], the
    exception [write_text] raises and the files it leaves, [None] when
    it succeeds; the clock reading and the inbox directory.  The URL
    and the counters of a tweet are read with their defaults, which
    raises nothing. *)
Variable scraper : string -> Z -> string -> Response (list Tweet).
Variable generate_signal_id : string -> string.
Variable tweet_to_markdown : Tweet -> string -> Response string.
Variable write_error : string -> string -> FileSystem
                       -> option (string * FileSystem).
Variable timestamp : string.
Variable inbox_path : string.

(** [save_signal(signal_content, tweet_url, inbox_path)]: the files
    after the call, and the exception raised or the name of the file
    written. *)
Definition save_signal_raising (signal_content url : string)
    (fs : FileSystem) : FileSystem * Response string :=
  let signal_id := generate_signal_id url in
  let filename := (timestamp +:+ "-twitter-" +:+ signal_id +:+ ".md")%string in
  let filepath := (inbox_path +:+ "/" +:+ filename)%string in
  match write_error filepath signal_content fs with
  | Some (e, fs') => (fs', inl e)
  | None => (<[filepath := signal_content]> fs, inr filename)
  end.

(** Body of [for tweet in tweets] in [run_listener]: the state after
    it and the exception it raised, if any.  The tweet is counted as
    new before it is rendered and saved, and as saved after. *)
Definition listener_collect_raising (cfg : TwitterConfig) (query : string)
    (st : ListenerState) (tweet : Tweet) : ListenerState * option string :=
  let url := get (tweet_url tweet) ""%string in
  if decide (url ∈ existing_urls st) then (st, None)
  else
    let like_count := get (tweet_like_count tweet) 0 in
    let reply_count := get (tweet_reply_count tweet) 0 in
    if (like_count <? get (min_likes cfg) 0)
       || (reply_count <? get (min_replies cfg) 0)
    then (st, None)
    else
      let st := counted_new st in
      match tweet_to_markdown tweet query with
      | inl e => (st, Some e)
      | inr signal_md =>
          match save_signal_raising signal_md url (inbox st) with
          | (fs, inl e) => (with_inbox fs st, Some e)
          | (fs, inr name) =>
              ({| existing_urls := {[ url ]} ∪ existing_urls st;
                  inbox := fs;
                  total_found := total_found st;
                  total_new := total_new st;
                  total_saved := total_saved st + 1;
                  console :=
                    console st ++ [Print ("  + Saved: " +:+ name)%string] |},
               None)
          end
      end.

(** [for tweet in tweets: ...]: the loop ends at the first exception,
    which leaves the tweets after it unexamined. *)
Fixpoint listener_tweets_raising (cfg : TwitterConfig) (query : string)
    (tweets : list Tweet) (st : ListenerState)
    : ListenerState * option string :=
  match tweets with
  | [] => (st, None)
  | tweet :: rest =>
      match listener_collect_raising cfg query st tweet with
      | (st, None) => listener_tweets_raising cfg query rest st
      | (st, Some e) => (st, Some e)
      end
  end.

(** Body of [for query in search_queries] in [run_listener]: the
    [try] block, which holds the request and the tweet loop, and its
    [except] clause with [continue]. *)
Definition listener_step_raising (cfg : TwitterConfig) (st : ListenerState)
    (query : string) : ListenerState :=
  let st := say ("Searching: " +:+ query) st in
  match scraper query (get (tweets_per_query cfg) 20)
                (get (twitter_language cfg) "en"%string) with
  | inr tweets =>
      let st :=
        say ("  Found: " +:+ Str.of_Z (len tweets) +:+ " tweets") st in
      let st := found (len tweets) st in
      match listener_tweets_raising cfg query tweets st with
      | (st, None) => say "" st
      | (st, Some e) => say ("  ERROR: " +:+ e) st
      end
  | inl e => say ("  ERROR: " +:+ e) st
  end.

(** The query loop of [run_listener(config, config_dir)], from the
    URLs and files found in the inbox. *)
Definition run_listener_loop_raising (cfg : TwitterConfig)
    (urls : gset string) (fs : FileSystem) : ListenerState :=
  fold_left (listener_step_raising cfg)
            (get (search_queries cfg) [])
            {| existing_urls := urls; inbox := fs; total_found := 0;
               total_new := 0; total_saved := 0; console := [] |}.

End ListenerExceptions.

(** The signals counted as new that were not saved: those whose
    rendering or writing raised. *)
Definition lost_signals (st : ListenerState) : Z :=
  total_new st - total_saved st.

(** The loop variables of the listener after [queries_done] queries
    of a run started from the URLs [urls0], [pending] tweets of the
    current answer being still to examine: no more signals saved than
    counted as new, no more counted as new than tweets found, at most
    one signal lost per query, no known URL forgotten, and one more
    URL known for each signal saved. *)
Definition listener_consistent (urls0 : gset string)
    (queries_done pending : Z) (st : ListenerState) : Prop :=
  0 <= total_saved st <= total_new st
  /\ total_new st + pending <= total_found st
  /\ lost_signals st <= queries_done
  /\ urls0 ⊆ existing_urls st
  /\ Z.of_nat (size (existing_urls st))
     = Z.of_nat (size urls0) + total_saved st.

(** A rendering that does not raise, and a [write_text] that does
    not. *)
Definition renders (render : Tweet -> string -> string)
    : Tweet -> string -> Response string :=
  fun tweet query => inr (render tweet query).

Definition writes : string -> string -> FileSystem
                    -> option (string * FileSystem) :=
  fun _ _ _ => None.

(* ===================================================================== *)
(** ** The pipeline *)
(* ===================================================================== *)

(** [--platform] *)
Inductive PlatformChoice :=
| only_bluesky
| only_youtube
| only_twitter
| all_platforms.

(** What [main] finds around it: the configuration file ([None] when
    it is missing), the two context files, the services of the two
    fetchers, the project root, and the readings of the clock at the
    start, in [generate_briefing] and in [save_briefing]. *)
Record MainEnv := {
  config_file : option Config;
  icp_profile : string;
  positioning : string;
  bluesky_services : BlueskyEnv;
  youtube_services : YouTubeEnv;
  root : string;
  started : DateTime;
  generated : DateTime;
  saved : DateTime
}.

(** How a run ends: by [sys.exit] with a status, or by returning. *)
Inductive Outcome :=
| Exited (status : Z)
| Returned.

Module Pipeline.
Local Open Scope string_scope.

(** ["=" * 60] *)
Definition rule : string := Nat.iter 60 (String "=") "".

(** [now.strftime("%Y-%m-%d %H:%M:%S")] *)
Definition started_str (now : DateTime) : string :=
  Str.of_Z (year now) +:+ "-" +:+ Str.pad2 (month now) +:+ "-"
  +:+ Str.pad2 (day now) +:+ " " +:+ Str.pad2 (hour now) +:+ ":"
  +:+ Str.pad2 (minute now) +:+ ":" +:+ Str.pad2 (second now).

(** The scoring loop of [main]; [None] when [score_post] raises. *)
Fixpoint score_all (config : Config) (icp_context positioning_context : string)
    (posts : list NormalizedPost) : option (list ScoredPost) :=
  match posts with
  | [] => Some []
  | p :: rest =>
      match score_post p icp_context positioning_context with
      | None => None
      | Some sc =>
          match score_all config icp_context positioning_context rest with
          | None => None
          | Some scored =>
              Some ({| post := p; score := sc;
                       priority := get_priority (total sc) config |}
                    :: scored)
          end
      end
  end.

(** [args.platform in [name, "all"]] *)
Definition runs_bluesky (choice : PlatformChoice) : bool :=
  match choice with
  | only_bluesky | all_platforms => true
  | _ => false
  end.

Definition runs_youtube (choice : PlatformChoice) : bool :=
  match choice with
  | only_youtube | all_platforms => true
  | _ => false
  end.

(** The posts of one platform, its name and its number of queries when
    it returned posts, and its events. *)
Definition platform_part {A : Type} (selected : bool) (name : string)
    (queries : list A) (fetched : list NormalizedPost * list Event)
    : list NormalizedPost * list string * Z * list Event :=
  if selected then
    match fst fetched with
    | [] => ([], [], 0%Z, snd fetched)
    | _ :: _ => (fst fetched, [name], len queries, snd fetched)
    end
  else ([], [], 0%Z, []).

(** The [stats] dictionary of [main]. *)
Definition stats_of (platforms_run : list string) (queries_run : Z)
    (all_posts : list NormalizedPost) : Stats :=
  {| platforms :=
       match platforms_run with
       | [] => "None"
       | _ :: _ => Str.join ", " platforms_run
       end;
     queries_run := queries_run;
     total_fetched := len all_posts;
     unique_posts := len all_posts |}.

(** The posts [main] scores: those of Bluesky, then those of
    YouTube. *)
Definition fetched_posts (choice : PlatformChoice) (env : MainEnv)
    (config : Config) : list NormalizedPost :=
  ((if runs_bluesky choice
    then fst (fetch_bluesky (bluesky_services env) config) else [])
   ++ (if runs_youtube choice
       then fst (fetch_youtube (youtube_services env) config) else []))%list.

End Pipeline.

(** [main()] with its two arguments, for a configuration of the shape
    the code reads (an entry is absent or of its type, never null):
    how the run ends, the files after it and the events; [None] when
    an exception escapes. *)
Definition main (choice : PlatformChoice) (dry_run : bool) (env : MainEnv)
    (fs : FileSystem) : option (Outcome * FileSystem * list Event) :=
  match config_file env with
  | None =>
      Some (Exited 1, fs,
            [Print ("Error: config.yaml not found at " +:+ root env
                    +:+ "/config.yaml")%string])
  | Some config =>
      let icp_context := icp_profile env in
      let positioning_context := positioning env in
      let banner :=
        [ Print (Text.nl +:+ Pipeline.rule)%string;
          Print "MARKETING OS - DAILY BRIEFING";
          Print Pipeline.rule;
          Print ("Started: " +:+ Pipeline.started_str (started env))%string ] in
      if dry_run then
        Some (Returned, fs,
              banner ++ [ Print "Mode: DRY RUN";
                          Print (Pipeline.rule +:+ Text.nl)%string ])
      else
        let '(bluesky_posts, bluesky_names, bluesky_count, bluesky_events) :=
          Pipeline.platform_part
            (Pipeline.runs_bluesky choice) "Bluesky"
            (bluesky_queries (bluesky_services env))
            (fetch_bluesky (bluesky_services env) config) in
        let '(youtube_posts, youtube_names, youtube_count, youtube_events) :=
          Pipeline.platform_part
            (Pipeline.runs_youtube choice) "YouTube"
            (youtube_queries (youtube_services env))
            (fetch_youtube (youtube_services env) config) in
        let all_posts := bluesky_posts ++ youtube_posts in
        let platforms_run := bluesky_names ++ youtube_names in
        let queries_run := 0 + bluesky_count + youtube_count in
        let events :=
          banner ++ bluesky_events ++ youtube_events
          ++ [ Print (Text.nl +:+ "Total fetched: " +:+ Str.of_Z (len all_posts)
                      +:+ " unique posts")%string ] in
        match all_posts with
        | [] =>
            Some (Returned, fs,
                  events
                  ++ [Print "No posts found. Check your configuration."])
        | _ :: _ =>
            match Pipeline.score_all config icp_context positioning_context
                                     all_posts with
            | None => None
            | Some scored_posts =>
                let high_count := count_priority high scored_posts in
                let medium_count := count_priority medium scored_posts in
                let low_count := count_priority low scored_posts in
                let stats :=
                  Pipeline.stats_of platforms_run queries_run all_posts in
                let briefing_content :=
                  generate_briefing (generated env) scored_posts config
                                    stats 10 in
                let '(fs', filepath) :=
                  save_briefing (saved env) (root env) briefing_content
                                config fs in
                Some (Returned, fs',
                      events
                      ++ [ Print "Scoring posts against ICP criteria...";
                           Print ("  High: " +:+ Str.of_Z high_count
                                  +:+ " | Medium: " +:+ Str.of_Z medium_count
                                  +:+ " | Low: " +:+ Str.of_Z low_count)%string;
                           Print (Text.nl +:+ Pipeline.rule)%string;
                           Print "COMPLETE";
                           Print Pipeline.rule;
                           Print "Daily Briefing saved to:";
                           Print ("  " +:+ filepath)%string;
                           Print (Text.nl +:+ "High priority: "
                                  +:+ Str.of_Z high_count
                                  +:+ " opportunities")%string;
                           Print ("Medium priority: "
                                  +:+ Str.of_Z medium_count
                                  +:+ " opportunities")%string;
                           Print (Pipeline.rule +:+ Text.nl)%string ])
            end
        end
  end.

(** A scored post as [main] builds it from a fetched post. *)
Definition scored_from (config : Config) (icp_context positioning_context : string)
    (p : NormalizedPost) (sp : ScoredPost) : Prop :=
  post sp = p
  /\ score_post p icp_context positioning_context = Some (score sp)
  /\ priority sp = get_priority (total (score sp)) config.

(** The same surroundings with other Bluesky services. *)
Definition with_bluesky_services (env : MainEnv) (services : BlueskyEnv)
    : MainEnv :=
  {| config_file := config_file env; icp_profile := icp_profile env;
     positioning := positioning env; bluesky_services := services;
     youtube_services := youtube_services env; root := root env;
     started := started env; generated := generated env;
     saved := saved env |}.

(** The same surroundings with other YouTube services. *)
Definition with_youtube_services (env : MainEnv) (services : YouTubeEnv)
    : MainEnv :=
  {| config_file := config_file env; icp_profile := icp_profile env;
     positioning := positioning env;
     bluesky_services := bluesky_services env;
     youtube_services := services; root := root env;
     started := started env; generated := generated env;
     saved := saved env |}.

(** Surroundings built on the sample services. *)
Definition sample_main_env : MainEnv :=
  {| config_file := Some Sample.bluesky_config;
     icp_profile := "profile"; positioning := "positioning";
     bluesky_services := Sample.bluesky_env;
     youtube_services := Sample.youtube_env;
     root := Sample.project_root;
     started := Sample.run_090307; generated := Sample.run_090307;
     saved := Sample.run_090341 |}.

(** The heading of the detailed entry of rank [i]. *)
Definition entry_heading (i : Z) (sp : ScoredPost) : string :=
  ("### " +:+ Str.of_Z i +:+ ". @" +:+ author_handle (post sp)
   +:+ " — Score: " +:+ Str.of_Z (total (score sp)) +:+ " ("
   +:+ Briefing.badge (priority sp) +:+ ")")%string.

(** The headings of a ranking, numbered from [i]. *)
Fixpoint headings_from (i : Z) (ranking : list ScoredPost) : list string :=
  match ranking with
  | [] => []
  | sp :: rest => entry_heading i sp :: headings_from (i + 1) rest
  end.

(** A line of the report that opens a detailed entry, in the text
    returned by [generate_briefing]. *)
Definition heading_lines (report : string) : list string :=
  List.filter Briefing.is_entry_heading (Text.split_lines report).

(** A field that starts no line of its own with a hash: it holds no
    line feed followed by [#]. *)
Definition no_hash_line (field : string) : Prop :=
  Str.contains (String Text.newline "#") field = false.

(** An item of [lines] that gives the report no heading of its own
    making: one line, or lines none of which starts with a hash. *)
Definition plain_item (item : string) : Prop :=
  Str.contains Text.nl item = false
  \/ (Str.startswith "#" item = false /\ no_hash_line item).

(** A post whose fields cannot pass for a heading of the report: the
    handle is one line, and name, text, matched query and link start
    no line with a hash. *)
Definition heading_free (sp : ScoredPost) : Prop :=
  Str.contains Text.nl (author_handle (post sp)) = false
  /\ no_hash_line (author_name (post sp))
  /\ no_hash_line (text (post sp))
  /\ no_hash_line (matched_query (post sp))
  /\ no_hash_line (url (post sp)).

(** Two scored posts, the first with a text of two lines that opens
    on a hashtag. *)
Definition sample_tagged_posts : list ScoredPost :=
  [ Sample.scored ("#selfhosting at last" +:+ Text.nl
                   +:+ "no more cloud bills")%string 12 61 medium;
    Sample.scored "second" 0 72 high ].

(** A post whose text goes on with a line of the form of a heading. *)
Definition sample_forging_post : ScoredPost :=
  Sample.scored ("nice" +:+ Text.nl
                 +:+ "### 2. @mallory — Score: 99 (HIGH SIGNAL)")%string
                0 36 low.

(* ===================================================================== *)
(** ** Properties of the scorer *)
(* ===================================================================== *)

Section Counting.

Lemma count_in_fold_bounds (text : string) (terms : list string) (acc : Z) :
  acc <= fold_left (fun a term => if Str.contains term text then a + 1 else a)
                   terms acc
      <= acc + len terms.
Proof.
  unfold len. revert acc.
  induction terms as [|term terms IH]; intros acc; simpl length; simpl fold_left.
  - lia.
  - destruct (Str.contains term text); specialize (IH (acc + 1)) as IH1;
      specialize (IH acc) as IH0; lia.
Qed.

Lemma count_in_bounds (terms : list string) (text : string) :
  0 <= Str.count_in terms text <= len terms.
Proof. apply (count_in_fold_bounds text terms 0). Qed.



End Counting.

Section SubScoreValues.

Lemma multiple_of_5_in_values (k : Z) :
  1 <= k <= 20 -> In (5 * k) icp_values.
Proof.
  intros Hk.
  assert (Hcases : k = 1 \/ k = 2 \/ k = 3 \/ k = 4 \/ k = 5 \/ k = 6
                   \/ k = 7 \/ k = 8 \/ k = 9 \/ k = 10 \/ k = 11 \/ k = 12
                   \/ k = 13 \/ k = 14 \/ k = 15 \/ k = 16 \/ k = 17
                   \/ k = 18 \/ k = 19 \/ k = 20) by lia.
  repeat (destruct Hcases as [-> | Hcases]; [simpl; tauto |]).
  subst k. simpl. tauto.
Qed.

Lemma icp_score_in_values (text : string) :
  In (icp_score_of text) icp_values.
Proof.
  unfold icp_score_of.
  pose proof (count_in_bounds high_value_terms text) as Hh.
  pose proof (count_in_bounds question_signals text) as Hq.
  pose proof (count_in_bounds low_value_terms text) as Hl.
  generalize dependent (Str.count_in high_value_terms text).
  generalize dependent (Str.count_in question_signals text).
  generalize dependent (Str.count_in low_value_terms text).
  intros l Hl q Hq h Hh.
  destruct (Z.eqb_spec (Z.max 0 (Z.min 100 (h * 20 + q * 25) - l * 30)) 0)
    as [_ | Hnz].
  - apply (multiple_of_5_in_values 6). lia.
  - assert (Hpos : 0 < Z.min 100 (h * 20 + q * 25) - l * 30) by lia.
    destruct (Z.le_gt_cases 100 (h * 20 + q * 25)) as [Hcap | Hcap].
    + replace (Z.max 0 (Z.min 100 (h * 20 + q * 25) - l * 30))
        with (5 * (20 - 6 * l)) by lia.
      apply multiple_of_5_in_values. lia.
    + replace (Z.max 0 (Z.min 100 (h * 20 + q * 25) - l * 30))
        with (5 * (4 * h + 5 * q - 6 * l)) by lia.
      apply multiple_of_5_in_values. lia.
Qed.

Lemma topic_score_in_values (text : string) :
  In (topic_score_of text) topic_values.
Proof.
  unfold topic_score_of.
  pose proof (count_in_bounds direct_relevance text) as Hd.
  pose proof (count_in_bounds adjacent_topics text) as Ha.
  generalize dependent (Str.count_in direct_relevance text).
  generalize dependent (Str.count_in adjacent_topics text).
  intros a Ha d Hd.
  destruct (Z.eqb_spec (Z.min 100 (d * 30 + a * 15)) 0) as [_ | Hnz].
  - simpl. tauto.
  - destruct (Z.le_gt_cases 100 (d * 30 + a * 15)) as [Hcap | Hcap].
    + rewrite Z.min_l by lia. simpl. tauto.
    + rewrite Z.min_r in * by lia.
      assert (Hcases : 2 * d + a = 1 \/ 2 * d + a = 2 \/ 2 * d + a = 3
                       \/ 2 * d + a = 4 \/ 2 * d + a = 5 \/ 2 * d + a = 6)
        by lia.
      replace (d * 30 + a * 15) with (15 * (2 * d + a)) by lia.
      destruct Hcases as [-> | [-> | [-> | [-> | [-> | ->]]]]];
        simpl; tauto.
Qed.

Lemma reach_score_in_values (engagement : Z) :
  In (reach_score_of engagement) reach_values.
Proof.
  unfold reach_score_of, reach_values.
  repeat (match goal with
          | |- context [if ?b then _ else _] => destruct b
          end; [simpl; tauto |]).
  simpl. tauto.
Qed.

Lemma stage_score_in_values (text : string) :
  In (stage_score_of text) stage_values.
Proof.
  unfold stage_score_of, stage_values.
  repeat (match goal with
          | |- context [if ?b then _ else _] => destruct b
          end; [simpl; tauto |]).
  simpl. tauto.
Qed.

End SubScoreValues.

Section TotalTable.

(** The three weight literals are the doubles nearest to 3/10, 1/4 and
    15/100: each is the correctly rounded quotient of two integers. *)
Example weight_literals :
  F64.div (F64.of_int 30) (F64.of_int 100) = F64.lit_0_30
  /\ F64.div (F64.of_int 25) (F64.of_int 100) = F64.lit_0_25
  /\ F64.div (F64.of_int 15) (F64.of_int 100) = F64.lit_0_15.
Proof. repeat split; vm_compute; reflexivity. Qed.

Lemma total_table :
  forallb (fun icp =>
    forallb (fun topic =>
      forallb (fun reach =>
        forallb (fun stage => total_agrees icp topic reach stage)
                stage_values)
              reach_values)
            topic_values)
          icp_values = true.
Proof. vm_compute. reflexivity. Qed.

Lemma total_agrees_on_values (icp topic reach stage : Z) :
  In icp icp_values -> In topic topic_values ->
  In reach reach_values -> In stage stage_values ->
  total_agrees icp topic reach stage = true.
Proof.
  intros Hi Ht Hr Hs.
  pose proof (proj1 (forallb_forall _ _) total_table icp Hi) as H1.
  pose proof (proj1 (forallb_forall _ _) H1 topic Ht) as H2.
  pose proof (proj1 (forallb_forall _ _) H2 reach Hr) as H3.
  exact (proj1 (forallb_forall _ _) H3 stage Hs).
Qed.

Lemma round_weighted_sum (icp topic reach stage : Z) :
  In icp icp_values -> In topic topic_values ->
  In reach reach_values -> In stage stage_values ->
  exists t,
    F64.round (weighted_sum icp topic reach 80 stage) = Some t
    /\ t = F64.round_half_even_div
             (30 * icp + 25 * topic + 15 * reach + 15 * 80 + 15 * stage) 100
    /\ Z.abs (100 * t
              - (30 * icp + 25 * topic + 15 * reach + 15 * 80 + 15 * stage))
       <= 50
    /\ 0 <= t <= 100.
Proof.
  intros Hi Ht Hr Hs.
  pose proof (total_agrees_on_values icp topic reach stage Hi Ht Hr Hs) as Hok.
  unfold total_agrees in Hok.
  generalize dependent (F64.round (weighted_sum icp topic reach 80 stage)).
  intros [t|] Hok; [| discriminate].
  exists t. split; [reflexivity |].
  apply andb_prop in Hok as [Hok Hle]. apply andb_prop in Hok as [Hok Hge].
  apply andb_prop in Hok as [Heq Hnear].
  apply Z.eqb_eq in Heq. apply Z.leb_le in Hnear, Hge, Hle. auto.
Qed.

(** [score_post] returns, and what it returns: the four computed
    sub-scores, the constant timing, and a total that is the exact
    weighted sum rounded half to even. *)
Lemma score_post_returns (p : NormalizedPost) (c1 c2 : string) :
  exists t,
    score_post p c1 c2
    = Some {| total := t;
              icp_match := icp_score_of (Str.lower (text p));
              topic_relevance := topic_score_of (Str.lower (text p));
              reach_potential := reach_score_of (engagement_total p);
              timing := 80;
              conversation_stage := stage_score_of (Str.lower (text p)) |}
    /\ t = F64.round_half_even_div
             (30 * icp_score_of (Str.lower (text p))
              + 25 * topic_score_of (Str.lower (text p))
              + 15 * reach_score_of (engagement_total p)
              + 15 * 80
              + 15 * stage_score_of (Str.lower (text p))) 100
    /\ Z.abs (100 * t
              - (30 * icp_score_of (Str.lower (text p))
                 + 25 * topic_score_of (Str.lower (text p))
                 + 15 * reach_score_of (engagement_total p)
                 + 15 * 80
                 + 15 * stage_score_of (Str.lower (text p))))
       <= 50
    /\ 0 <= t <= 100.
Proof.
  destruct (round_weighted_sum _ _ _ _
              (icp_score_in_values (Str.lower (text p)))
              (topic_score_in_values (Str.lower (text p)))
              (reach_score_in_values (engagement_total p))
              (stage_score_in_values (Str.lower (text p))))
    as (t & Hround & Hspec & Hnear & Hrange).
  exists t. unfold score_post. cbv zeta. rewrite Hround. auto.
Qed.

End TotalTable.

Section ScorerTheorems.

Lemma values_within (values : list Z) (v : Z) :
  forallb (fun x => (0 <=? x) && (x <=? 100)) values = true ->
  In v values -> 0 <= v <= 100.
Proof.
  intros Hall Hin.
  pose proof (proj1 (forallb_forall _ _) Hall v Hin) as Hv.
  apply andb_prop in Hv as [Hlo Hhi].
  apply Z.leb_le in Hlo, Hhi. lia.
Qed.

Lemma icp_score_range (text : string) : 0 <= icp_score_of text <= 100.
Proof.
  apply (values_within icp_values); [reflexivity | apply icp_score_in_values].
Qed.

Lemma topic_score_range (text : string) : 0 <= topic_score_of text <= 100.
Proof.
  apply (values_within topic_values);
    [reflexivity | apply topic_score_in_values].
Qed.

Lemma reach_score_range (engagement : Z) :
  0 <= reach_score_of engagement <= 100.
Proof.
  apply (values_within reach_values);
    [reflexivity | apply reach_score_in_values].
Qed.

Lemma stage_score_range (text : string) : 0 <= stage_score_of text <= 100.
Proof.
  apply (values_within stage_values);
    [reflexivity | apply stage_score_in_values].
Qed.

(** C1. For every post, [score_post] returns a breakdown; each of
    its five sub-scores is an integer between 0 and 100, and so is
    its weighted total. *)
Theorem score_post_ranges (p : NormalizedPost) (c1 c2 : string) :
  exists sb,
    score_post p c1 c2 = Some sb
    /\ 0 <= icp_match sb <= 100
    /\ 0 <= topic_relevance sb <= 100
    /\ 0 <= reach_potential sb <= 100
    /\ 0 <= timing sb <= 100
    /\ 0 <= conversation_stage sb <= 100
    /\ 0 <= total sb <= 100.
Proof.
  destruct (score_post_returns p c1 c2) as (t & Hsome & _ & _ & Hrange).
  eexists. split; [exact Hsome |]. cbn [icp_match topic_relevance
    reach_potential timing conversation_stage total].
  pose proof (icp_score_range (Str.lower (text p))).
  pose proof (topic_score_range (Str.lower (text p))).
  pose proof (reach_score_range (engagement_total p)).
  pose proof (stage_score_range (Str.lower (text p))).
  repeat split; lia.
Qed.

(** The scorer on a post without text and without engagement. *)
Lemma score_post_empty (p : NormalizedPost) (c1 c2 : string) :
  text p = ""%string -> engagement_total p = 0 ->
  score_post p c1 c2
  = Some {| total := 36; icp_match := 30; topic_relevance := 25;
            reach_potential := 10; timing := 80;
            conversation_stage := 50 |}.
Proof.
  intros Htext Hengagement. unfold score_post.
  rewrite Htext, Hengagement. vm_compute. reflexivity.
Qed.

(** C2. For every post, the total of [score_post] is the exact sum
    0.30 icp + 0.25 topic + 0.15 reach + 0.15 timing + 0.15 stage
    rounded to the nearest integer, ties going to the even
    neighbour, whatever the post; and a post with empty text and no
    engagement scores 30, 25, 10, 80, 50, total 36, priority low
    under the default thresholds. *)
Theorem score_post_total_rounding (p : NormalizedPost) (c1 c2 : string) :
  exists sb,
    score_post p c1 c2 = Some sb
    /\ total sb
       = F64.round_half_even_div
           (30 * icp_match sb + 25 * topic_relevance sb
            + 15 * reach_potential sb + 15 * timing sb
            + 15 * conversation_stage sb) 100
    /\ Z.abs (100 * total sb
              - (30 * icp_match sb + 25 * topic_relevance sb
                 + 15 * reach_potential sb + 15 * timing sb
                 + 15 * conversation_stage sb)) <= 50
    /\ (text p = ""%string -> engagement_total p = 0 ->
        sb = {| total := 36; icp_match := 30; topic_relevance := 25;
                reach_potential := 10; timing := 80;
                conversation_stage := 50 |}
        /\ get_priority (total sb) empty_config = low).
Proof.
  destruct (score_post_returns p c1 c2) as (t & Hsome & Hspec & Hnear & _).
  eexists. split; [exact Hsome |].
  cbn [icp_match topic_relevance reach_potential timing
       conversation_stage total].
  split; [exact Hspec |]. split; [exact Hnear |].
  intros Htext Hengagement.
  pose proof (score_post_empty p c1 c2 Htext Hengagement) as Hempty.
  rewrite Hsome in Hempty. injection Hempty as Ht Hicp Htopic Hreach Hstage.
  rewrite Ht, Hicp, Htopic, Hreach, Hstage. split; reflexivity.
Qed.

Lemma score_post_total_rounding_witness :
  exists sb,
    score_post (bare_post "" 0) "" "" = Some sb /\ total sb = 36
    /\ get_priority (total sb) empty_config = low.
Proof.
  destruct (score_post_total_rounding (bare_post "" 0) "" "")
    as (sb & Hsome & _ & _ & Hempty).
  exists sb. split; [exact Hsome |].
  destruct (Hempty eq_refl eq_refl) as [-> Hlow].
  split; [reflexivity | exact Hlow].
Defined.






(** The number of terms present is determined by the vocabulary and
    the text. *)
Lemma presence_count_unique (terms : list string) (text : string)
    (n m : Z) :
  presence_count terms text n -> presence_count terms text m -> n = m.
Proof.
  revert n m. induction terms as [|term terms IH]; intros n m; simpl.
  - lia.
  - intros [[Hn Hn'] | [Hn Hn']] [[Hm Hm'] | [Hm Hm']];
      try contradiction.
    + pose proof (IH _ _ Hn' Hm'). lia.
    + exact (IH _ _ Hn' Hm').
Qed.


(** The scorer returns whatever the lower-casing is: the four
    sub-scores computed on the lower-cased text and the engagement,
    the constant timing, and their rounded weighted sum. *)
Lemma score_post_lowered_by_returns (lower : string -> string)
    (p : NormalizedPost) (c1 c2 : string) :
  exists t,
    score_post_lowered_by lower p c1 c2
    = Some {| total := t;
              icp_match := icp_score_of (lower (text p));
              topic_relevance := topic_score_of (lower (text p));
              reach_potential := reach_score_of (engagement_total p);
              timing := 80;
              conversation_stage := stage_score_of (lower (text p)) |}
    /\ t = F64.round_half_even_div
             (30 * icp_score_of (lower (text p))
              + 25 * topic_score_of (lower (text p))
              + 15 * reach_score_of (engagement_total p)
              + 15 * 80
              + 15 * stage_score_of (lower (text p))) 100.
Proof.
  destruct (round_weighted_sum _ _ _ _
              (icp_score_in_values (lower (text p)))
              (topic_score_in_values (lower (text p)))
              (reach_score_in_values (engagement_total p))
              (stage_score_in_values (lower (text p))))
    as (t & Hround & Hspec & _).
  exists t. unfold score_post_lowered_by. cbv zeta. rewrite Hround. auto.
Qed.

(** [score_post] is the scorer at the lower-casing of ASCII text. *)
Lemma score_post_lowered_by_ascii (p : NormalizedPost) (c1 c2 : string) :
  score_post_lowered_by Str.lower p c1 c2 = score_post p c1 c2.
Proof.
  destruct (score_post_returns p c1 c2) as (t & Hsome & Ht & _).
  destruct (score_post_lowered_by_returns Str.lower p c1 c2)
    as (t' & Hsome' & Ht').
  rewrite Hsome, Hsome', Ht, Ht'. reflexivity.
Qed.


(** Outside ASCII the lower-casing can bring a term about: [str.lower]
    turns the dotted capital I into an i followed by a combining dot,
    so that "KPİ" holds the low-value term "kpi" once lower-cased and
    takes the 20 points of "decentralized" away. *)
Example icp_match_dotted_capital_i (lower : string -> string) :
  lower "decentralized KPİ"%string = "decentralized kpi̇"%string ->
  exists sb,
    score_post_lowered_by lower (bare_post "decentralized KPİ" 0) "" ""
    = Some sb
    /\ icp_match sb = 30.
Proof.
  intros Hlower.
  destruct (score_post_lowered_by_returns
              lower (bare_post "decentralized KPİ" 0) "" "")
    as (t & Hsome & _).
  eexists. split; [exact Hsome |].
  cbn [icp_match bare_post text]. rewrite Hlower.
  vm_compute. reflexivity.
Qed.

(** Matching is by substring, not by word: "roi" is found inside
    "heroic" and takes the 20 points of "homelab" away, which leaves
    the baseline. *)
Example icp_match_inside_a_word :
  icp_score_of (Str.lower "A heroic HomeLab") = 30
  /\ icp_score_of (Str.lower "A HomeLab") = 20.
Proof. split; vm_compute; reflexivity. Qed.

Lemma score_post_example (c1 c2 : string) :
  score_post example_post c1 c2
  = Some {| total := 65; icp_match := 90; topic_relevance := 30;
            reach_potential := 40; timing := 80;
            conversation_stage := 85 |}.
Proof. vm_compute. reflexivity. Qed.

(** C4, as the specification states it, does not hold: the ICP match
    of the example post is not 100 and its total is not 68. *)
Lemma score_post_example_not_100 :
  ~ (exists sb,
       score_post example_post "" "" = Some sb
       /\ icp_match sb = 100 /\ conversation_stage sb = 85
       /\ reach_potential sb = 40 /\ timing sb = 80 /\ total sb = 68
       /\ get_priority (total sb) empty_config = medium).
Proof.
  intros (sb & Hsome & Hicp & _).
  rewrite score_post_example in Hsome. injection Hsome as <-.
  discriminate Hicp.
Qed.

(** C4, amended. The example post (two high-value terms, two question
    terms, one direct-relevance term, engagement 12) scores ICP match
    90, topic relevance 30, reach 40, timing 80, conversation stage
    85 and total 65, which is priority medium under the default
    thresholds. *)
Theorem score_post_example_scores (c1 c2 : string) :
  exists sb,
    score_post example_post c1 c2 = Some sb
    /\ icp_match sb = 90 /\ topic_relevance sb = 30
    /\ conversation_stage sb = 85 /\ reach_potential sb = 40
    /\ timing sb = 80 /\ total sb = 65
    /\ get_priority (total sb) empty_config = medium.
Proof.
  eexists. split; [apply score_post_example |].
  repeat split; reflexivity.
Qed.

(** C5. Whatever the configured thresholds, a larger total never
    gets a lower tier. *)
Theorem get_priority_monotone (config : Config) (a b : Z) :
  a >= b -> priority_le (get_priority b config) (get_priority a config).
Proof.
  intros Hab. unfold priority_le, get_priority.
  generalize (get (th_high (get (scorer_thresholds config)
                                {| th_high := None; th_medium := None |})) 70).
  generalize (get (th_medium (get (scorer_thresholds config)
                                  {| th_high := None; th_medium := None |})) 50).
  intros m h.
  destruct (Z.geb_spec b h), (Z.geb_spec a h), (Z.geb_spec b m),
    (Z.geb_spec a m); simpl; lia.
Qed.

Lemma get_priority_monotone_witness :
  priority_le (get_priority 55 empty_config) (get_priority 72 empty_config).
Proof. apply get_priority_monotone. lia. Defined.

(** C9. The result of [score_post] does not depend on the two
    context arguments: any two pairs of contexts give the same
    breakdown for a post, and so does any repetition of a call. *)
Theorem score_post_ignores_context (p : NormalizedPost)
    (icp_context positioning_context icp_context' positioning_context' : string) :
  score_post p icp_context positioning_context
  = score_post p icp_context' positioning_context'.
Proof.
  destruct (score_post_returns p icp_context positioning_context)
    as (t & Hsome & Ht & _).
  destruct (score_post_returns p icp_context' positioning_context')
    as (t' & Hsome' & Ht' & _).
  rewrite Hsome, Hsome', Ht, Ht'. reflexivity.
Qed.

End ScorerTheorems.

(* ===================================================================== *)
(** ** Properties of the briefing *)
(* ===================================================================== *)

Section BriefingTheorems.

Lemma insert_by_total_length (p : ScoredPost) (sorted : list ScoredPost) :
  length (insert_by_total p sorted) = S (length sorted).
Proof.
  induction sorted as [|q rest IH]; simpl; [reflexivity |].
  destruct (total (score p) >=? total (score q)); simpl; [reflexivity |].
  rewrite IH. reflexivity.
Qed.

Lemma sorted_by_total_length (posts : list ScoredPost) :
  length (sorted_by_total posts) = length posts.
Proof.
  unfold sorted_by_total.
  induction posts as [|p posts IH]; simpl; [reflexivity |].
  rewrite insert_by_total_length, IH. reflexivity.
Qed.

Lemma slice_to_len {A : Type} (l : list A) (stop : Z) :
  0 <= stop -> len (slice_to l stop) = Z.min stop (len l).
Proof.
  intros Hstop. unfold slice_to, len.
  destruct (Z.ltb_spec stop 0) as [Hneg | _]; [lia |].
  rewrite length_take. lia.
Qed.

Lemma top_posts_len (scored_posts : list ScoredPost) (max_results : Z) :
  0 <= max_results ->
  len (Briefing.top_posts scored_posts max_results)
  = Z.min max_results (len scored_posts).
Proof.
  intros Hmax. unfold Briefing.top_posts.
  rewrite slice_to_len by assumption.
  unfold len. rewrite sorted_by_total_length. reflexivity.
Qed.




Lemma entry_heading_count_app (l1 l2 : list string) :
  Briefing.entry_count (l1 ++ l2)
  = Briefing.entry_count l1 + Briefing.entry_count l2.
Proof.
  unfold Briefing.entry_count, len.
  rewrite List.filter_app, length_app. lia.
Qed.

Lemma entry_lines_count (i : Z) (sp : ScoredPost) :
  Briefing.entry_count (Briefing.entry_lines i sp) = 1.
Proof. vm_compute. reflexivity. Qed.

Lemma entries_from_count (i : Z) (top : list ScoredPost) :
  Briefing.entry_count (Briefing.entries_from i top) = len top.
Proof.
  revert i. induction top as [|sp top IH]; intros i.
  - reflexivity.
  - cbn [Briefing.entries_from].
    rewrite entry_heading_count_app, entry_lines_count, IH.
    unfold len. simpl length. lia.
Qed.

Lemma frontmatter_count (now : DateTime) (stats : Stats) (s h m : Z) :
  Briefing.entry_count (Briefing.frontmatter now stats s h m) = 0.
Proof. vm_compute. reflexivity. Qed.

Lemma summary_count (stats : Stats) (s h : Z) :
  Briefing.entry_count (Briefing.summary stats s h) = 0.
Proof.
  unfold Briefing.summary. destruct (h >? 0); vm_compute; reflexivity.
Qed.

Lemma statistics_count (stats : Stats) (h m l : Z) :
  Briefing.entry_count (Briefing.statistics stats h m l) = 0.
Proof. vm_compute. reflexivity. Qed.

(** The briefing has one heading per selected post. *)
Lemma lines_entry_count (now : DateTime) (scored_posts : list ScoredPost)
    (config : Config) (stats : Stats) (max_results : Z) :
  Briefing.entry_count
    (Briefing.lines now scored_posts config stats max_results)
  = len (Briefing.top_posts scored_posts max_results).
Proof.
  unfold Briefing.lines. cbv zeta.
  rewrite !entry_heading_count_app.
  rewrite frontmatter_count, summary_count, entries_from_count,
    statistics_count.
  change (Briefing.entry_count ["## Top Opportunities"%string; ""%string])
    with 0.
  lia.
Qed.


(** [max_results] is a number of entries.  On a negative integer the
    slice [sorted_posts[:max_results]] counts from the end of the
    ranking instead, which is why the bound below is stated for the
    numbers of entries, zero included. *)
Lemma briefing_negative_max_results :
  ~ (Briefing.entry_count
       (Briefing.lines Sample.run_090307 Sample.three_posts empty_config
                       Sample.stats (-1))
     <= -1).
Proof. intros Hle. vm_compute in Hle. apply Hle. reflexivity. Qed.



Lemma save_briefing_writes (now : DateTime) (root content : string)
    (config : Config) (fs : FileSystem) :
  save_briefing now root content config fs
  = (<[briefing_path now root := content]> fs, briefing_path now root).
Proof. reflexivity. Qed.

(** Two clock readings of the same minute give the same path. *)
Lemma briefing_path_of_minute (now now' : DateTime) (root : string) :
  year now = year now' -> month now = month now' -> day now = day now' ->
  hour now = hour now' -> minute now = minute now' ->
  briefing_path now root = briefing_path now' root.
Proof.
  intros Hy Hm Hd Hh Hmin.
  unfold briefing_path, Clock.date_str, Clock.time_str.
  rewrite Hy, Hm, Hd, Hh, Hmin. reflexivity.
Qed.

(** C7 fails on the code. Two runs at different times of the same
    minute write to the same path, and the second run replaces the
    report of the first: after both, the only file holds the second
    report. *)
Theorem save_briefing_same_minute_overwrites :
  let first :=
    save_briefing Sample.run_090307 Sample.project_root "first report"
                  empty_config ∅ in
  let second :=
    save_briefing Sample.run_090341 Sample.project_root "second report"
                  empty_config (fst first) in
  Sample.run_090307 <> Sample.run_090341
  /\ snd first = snd second
  /\ snd first
     = "/srv/marketing-os/Daily Review/2026-Jan-05 - Daily Briefing (0903).md"%string
  /\ fst first !! snd first = Some "first report"%string
  /\ fst second !! snd first = Some "second report"%string
  /\ size (fst second) = 1%nat.
Proof.
  cbv zeta. rewrite !save_briefing_writes. cbn [fst snd].
  rewrite <- (briefing_path_of_minute Sample.run_090307 Sample.run_090341)
    by reflexivity.
  remember (briefing_path Sample.run_090307 Sample.project_root) as path
    eqn:Hpath.
  split; [discriminate |]. split; [reflexivity |].
  split; [rewrite Hpath; vm_compute; reflexivity |].
  split; [apply lookup_insert_eq |].
  split; [apply lookup_insert_eq |].
  rewrite insert_insert_eq, map_size_insert_None by apply lookup_empty.
  rewrite map_size_empty. reflexivity.
Qed.

End BriefingTheorems.

(* ===================================================================== *)
(** ** Properties of the fetch loops *)
(* ===================================================================== *)

Section SameData.

Lemma same_data_refl (st : FetchState) : same_data st st.
Proof. split; reflexivity. Qed.

Lemma same_data_sym (st st' : FetchState) :
  same_data st st' -> same_data st' st.
Proof. intros [Hp Hs]. split; congruence. Qed.

Lemma same_data_trans (st1 st2 st3 : FetchState) :
  same_data st1 st2 -> same_data st2 st3 -> same_data st1 st3.
Proof. intros [Hp Hs] [Hp' Hs']. split; congruence. Qed.

Lemma emit_same_data (e : Event) (st : FetchState) :
  same_data (emit e st) st.
Proof. split; reflexivity. Qed.

Lemma emit_all_same_data (events : list Event) (st : FetchState) :
  same_data (fold_left (fun s e => emit e s) events st) st.
Proof.
  revert st. induction events as [|e events IH]; intros st; simpl.
  - apply same_data_refl.
  - eapply same_data_trans; [apply IH | apply emit_same_data].
Qed.

Lemma keep_same_data (p : NormalizedPost) (st st' : FetchState) :
  same_data st st' -> same_data (keep p st) (keep p st').
Proof. intros [Hp Hs]. split; simpl; congruence. Qed.

Lemma fold_same_data {A : Type} (f : FetchState -> A -> FetchState)
    (items : list A) :
  (forall st st' x, same_data st st' -> same_data (f st x) (f st' x)) ->
  forall st st', same_data st st' ->
    same_data (fold_left f items st) (fold_left f items st').
Proof.
  intros Hf. induction items as [|x items IH]; intros st st' H; simpl.
  - exact H.
  - apply IH, Hf, H.
Qed.

Lemma cond_emit_same_data (b : bool) (e : Event) (st : FetchState) :
  same_data (if b then emit e st else st) st.
Proof. destruct b; [apply emit_same_data | apply same_data_refl]. Qed.

End SameData.

Section Traces.

Lemma extends_refl (st : FetchState) : extends st st.
Proof. exists []. symmetry. apply app_nil_r. Qed.

Lemma extends_trans (st1 st2 st3 : FetchState) :
  extends st1 st2 -> extends st2 st3 -> extends st1 st3.
Proof.
  intros [m1 H1] [m2 H2]. exists (m1 ++ m2).
  rewrite H2, H1, app_assoc. reflexivity.
Qed.

Lemma extends_emit (e : Event) (st : FetchState) : extends st (emit e st).
Proof. exists [e]. reflexivity. Qed.

Lemma extends_emit_all (events : list Event) (st : FetchState) :
  extends st (fold_left (fun s e => emit e s) events st).
Proof.
  revert st. induction events as [|e events IH]; intros st; simpl.
  - apply extends_refl.
  - eapply extends_trans; [apply extends_emit | apply IH].
Qed.

Lemma extends_cond_emit (b : bool) (e : Event) (st : FetchState) :
  extends st (if b then emit e st else st).
Proof. destruct b; [apply extends_emit | apply extends_refl]. Qed.

Lemma extends_fold {A : Type} (f : FetchState -> A -> FetchState)
    (items : list A) :
  (forall st x, extends st (f st x)) ->
  forall st, extends st (fold_left f items st).
Proof.
  intros Hf. induction items as [|x items IH]; intros st; simpl.
  - apply extends_refl.
  - eapply extends_trans; [apply Hf | apply IH].
Qed.

Lemma extends_In (e : Event) (st st' : FetchState) :
  extends st st' -> In e (trace st) -> In e (trace st').
Proof. intros [more ->] Hin. apply in_or_app. left. exact Hin. Qed.

Lemma In_emit (e : Event) (st : FetchState) : In e (trace (emit e st)).
Proof. simpl. apply in_or_app. right. left. reflexivity. Qed.

End Traces.

Section EnumerateLoop.

Variable body : Z -> string -> FetchState -> FetchState.

Lemma for_enumerate_app (i : Z) (qs1 qs2 : list string) (st : FetchState) :
  for_enumerate body i (qs1 ++ qs2) st
  = for_enumerate body (i + len qs1) qs2 (for_enumerate body i qs1 st).
Proof.
  unfold len. revert i st.
  induction qs1 as [|q qs1 IH]; intros i st; simpl.
  - f_equal. lia.
  - rewrite IH. f_equal. lia.
Qed.

Hypothesis body_extends : forall i q st, extends st (body i q st).

Lemma for_enumerate_extends (i : Z) (queries : list string)
    (st : FetchState) :
  extends st (for_enumerate body i queries st).
Proof.
  revert i st. induction queries as [|q queries IH]; intros i st; simpl.
  - apply extends_refl.
  - eapply extends_trans; [apply body_extends | apply IH].
Qed.

(** Every event a query leaves in the trace is in the trace of the
    whole loop. *)
Lemma for_enumerate_event (event : Z -> string -> Event) :
  (forall i q st, In (event i q) (trace (body i q st))) ->
  forall (i : Z) (queries : list string) (st : FetchState) (q : string),
    In q queries ->
    exists j, In (event j q) (trace (for_enumerate body i queries st)).
Proof.
  intros Hev i queries. revert i.
  induction queries as [|q0 queries IH]; intros i st q Hin;
    [destruct Hin |].
  destruct Hin as [-> | Hin]; simpl.
  - exists i. eapply extends_In; [apply for_enumerate_extends | apply Hev].
  - apply IH, Hin.
Qed.

(** Another body that keeps the same posts from the same posts. *)
Variable body' : Z -> string -> FetchState -> FetchState.
Hypothesis body_same_data :
  forall i i' q st st',
    same_data st st' -> same_data (body i q st) (body' i' q st').

Lemma for_enumerate_same_data (queries : list string) :
  forall i i' st st',
    same_data st st' ->
    same_data (for_enumerate body i queries st)
              (for_enumerate body' i' queries st').
Proof.
  induction queries as [|q queries IH]; intros i i' st st' H; simpl.
  - exact H.
  - apply IH, body_same_data, H.
Qed.

(** A query that leaves the posts untouched can be taken out of the
    list without changing the posts of the whole loop. *)
Lemma for_enumerate_skip (q : string) :
  (forall i st, same_data (body i q st) st) ->
  forall qs1 qs2 i i' st st',
    same_data st st' ->
    same_data (for_enumerate body i (qs1 ++ q :: qs2) st)
              (for_enumerate body' i' (qs1 ++ qs2) st').
Proof.
  intros Hskip qs1 qs2.
  induction qs1 as [|q1 qs1 IH]; intros i i' st st' H.
  - simpl. apply for_enumerate_same_data.
    eapply same_data_trans; [apply Hskip | exact H].
  - simpl. apply IH, body_same_data, H.
Qed.

End EnumerateLoop.

Section YouTubeLoop.

Variable env : YouTubeEnv.
Variable api_key : string.
Variable listener_config : ListenerConfig.

Lemma youtube_collect_same_data (query : string)
    (stats : gmap string VideoStats) (st st' : FetchState)
    (item : YouTubeItem) :
  same_data st st' ->
  same_data (youtube_collect query stats st item)
            (youtube_collect query stats st' item).
Proof.
  intros H. unfold youtube_collect.
  destruct (negb (truthy (get (item_video_id item) ""%string))); [exact H |].
  destruct H as [Hp Hs]. rewrite Hs.
  destruct (decide (get (item_video_id item) ""%string ∈ seen_ids st'));
    [split; assumption |].
  apply keep_same_data. split; assumption.
Qed.

Lemma youtube_collect_extends (query : string)
    (stats : gmap string VideoStats) (st : FetchState) (item : YouTubeItem) :
  extends st (youtube_collect query stats st item).
Proof.
  unfold youtube_collect.
  repeat match goal with
         | |- context [if ?b then _ else _] => destruct b
         end; try apply extends_refl.
  exists []. simpl. symmetry. apply app_nil_r.
Qed.

Lemma youtube_step_same_data (n n' i i' : Z) (query : string)
    (st st' : FetchState) :
  same_data st st' ->
  same_data (youtube_step env api_key listener_config n i query st)
            (youtube_step env api_key listener_config n' i' query st').
Proof.
  intros H. unfold youtube_step.
  destruct (youtube_search env api_key query _ _) as [e | items].
  - eapply same_data_trans; [apply emit_same_data |].
    eapply same_data_trans; [apply emit_same_data |].
    eapply same_data_trans; [exact H |].
    apply same_data_sym.
    eapply same_data_trans; [apply emit_same_data |].
    apply emit_same_data.
  - eapply same_data_trans; [apply cond_emit_same_data |].
    apply same_data_sym.
    eapply same_data_trans; [apply cond_emit_same_data |].
    apply same_data_sym.
    apply fold_same_data.
    + intros s s' x. apply youtube_collect_same_data.
    + eapply same_data_trans; [apply emit_same_data |].
      eapply same_data_trans; [apply emit_same_data |].
      eapply same_data_trans; [exact H |].
      apply same_data_sym.
      eapply same_data_trans; [apply emit_same_data |].
      apply emit_same_data.
Qed.

Lemma youtube_step_extends (n i : Z) (query : string) (st : FetchState) :
  extends st (youtube_step env api_key listener_config n i query st).
Proof.
  unfold youtube_step.
  eapply extends_trans; [apply (extends_emit (Print (progress_line i n query))) |].
  destruct (youtube_search env api_key query _ _) as [e | items].
  - apply extends_emit.
  - eapply extends_trans; [| apply extends_cond_emit].
    eapply extends_trans; [| apply extends_fold].
    + apply extends_emit.
    + intros s x. apply youtube_collect_extends.
Qed.

Lemma youtube_step_announces (n i : Z) (query : string) (st : FetchState) :
  In (Print (progress_line i n query))
     (trace (youtube_step env api_key listener_config n i query st)).
Proof.
  unfold youtube_step.
  destruct (youtube_search env api_key query _ _) as [e | items].
  - eapply extends_In; [apply extends_emit | apply In_emit].
  - eapply extends_In; [apply extends_cond_emit |].
    eapply extends_In;
      [apply extends_fold; intros s x; apply youtube_collect_extends |].
    eapply extends_In; [apply extends_emit | apply In_emit].
Qed.

Variable query e : string.
Hypothesis request_fails :
  youtube_search env api_key query
                 (Z.min (get (videos_per_query listener_config) 10) 50)
                 (published_after_date
                    env (get (max_age_days listener_config) 90))
  = inl e.

Lemma youtube_step_failure (n i : Z) (st : FetchState) :
  youtube_step env api_key listener_config n i query st
  = emit (Print ("-> ERROR: " +:+ e)%string)
         (emit (Print (progress_line i n query)) st).
Proof. unfold youtube_step. rewrite request_fails. reflexivity. Qed.

Lemma youtube_step_failure_same_data (n i : Z) (st : FetchState) :
  same_data (youtube_step env api_key listener_config n i query st) st.
Proof.
  rewrite youtube_step_failure.
  eapply same_data_trans; apply emit_same_data.
Qed.

(** A failing query changes neither the videos nor the identifiers
    of the loop, is reported, and the queries around it are run. *)
Lemma youtube_loop_failure (qs1 qs2 : list string) (st : FetchState) :
  let after :=
    youtube_loop env api_key listener_config (qs1 ++ query :: qs2) st in
  same_data after (youtube_loop env api_key listener_config (qs1 ++ qs2) st)
  /\ In (Print ("-> ERROR: " +:+ e)%string) (trace after)
  /\ forall q, In q (qs1 ++ query :: qs2) ->
       exists j, In (Print (progress_line
                              j (len (qs1 ++ query :: qs2)) q))
                    (trace after).
Proof.
  unfold youtube_loop. cbv zeta. split; [| split].
  - apply for_enumerate_skip.
    + intros i i' q st1 st2. apply youtube_step_same_data.
    + intros i st1. apply youtube_step_failure_same_data.
    + apply same_data_refl.
  - rewrite for_enumerate_app. simpl for_enumerate.
    eapply extends_In.
    + apply for_enumerate_extends. intros i q st1. apply youtube_step_extends.
    + rewrite youtube_step_failure. apply In_emit.
  - intros q Hq.
    apply (for_enumerate_event
             _ (fun i q st1 => youtube_step_extends _ i q st1)
             (fun j q => Print (progress_line
                                  j (len (qs1 ++ query :: qs2)) q))).
    + intros i q0 st1. apply youtube_step_announces.
    + exact Hq.
Qed.

End YouTubeLoop.

Section YouTubeFetcher.

Lemma youtube_loop_same_data (env : YouTubeEnv) (key : string)
    (lc : ListenerConfig) (queries : list string) (st st' : FetchState) :
  same_data st st' ->
  same_data (youtube_loop env key lc queries st)
            (youtube_loop env key lc queries st').
Proof.
  intros H. unfold youtube_loop.
  apply (for_enumerate_same_data
           _ _ (fun i i' q s s' Hs =>
                  youtube_step_same_data env key lc _ _ i i' q s s' Hs)).
  exact H.
Qed.

(** The videos [fetch_youtube] returns are those of its query loop,
    when the platform is enabled and has a key. *)
Lemma fetch_youtube_posts (env : YouTubeEnv) (config : Config) :
  fst (fetch_youtube env config)
  = if get (enabled (get (listener_youtube config) no_listener_config))
           false
       && truthy (get (youtube_api_key config) ""%string)
    then all_posts
           (youtube_loop env (get (youtube_api_key config) ""%string)
              (get (listener_youtube config) no_listener_config)
              (youtube_queries env) (initial_fetch_state []))
    else [].
Proof.
  unfold fetch_youtube, no_listener_config. cbv zeta.
  destruct (get (enabled _) false); cbn [negb andb fst]; [| reflexivity].
  destruct (truthy _); cbn [negb fst]; [| reflexivity].
  destruct (youtube_queries env) as [|q qs]; [reflexivity |].
  cbn [fst]. apply youtube_loop_same_data. split; reflexivity.
Qed.

(** The events of [fetch_youtube] are those of its query loop, when
    the platform is enabled, has a key and has queries. *)
Lemma fetch_youtube_trace (env : YouTubeEnv) (config : Config) :
  get (enabled (get (listener_youtube config) no_listener_config)) false
  = true ->
  truthy (get (youtube_api_key config) ""%string) = true ->
  youtube_queries env <> [] ->
  exists banner,
    snd (fetch_youtube env config)
    = trace (youtube_loop env (get (youtube_api_key config) ""%string)
               (get (listener_youtube config) no_listener_config)
               (youtube_queries env) (initial_fetch_state [banner])).
Proof.
  unfold fetch_youtube, no_listener_config. cbv zeta.
  intros -> -> Hqueries. cbn [negb].
  destruct (youtube_queries env) as [|q qs]; [contradiction |].
  eexists. reflexivity.
Qed.

(** Taking a failing query out of the query file does not change the
    videos [fetch_youtube] returns; with it, the error is printed
    and every query is run whenever the platform is enabled and has
    a key. *)
Lemma fetch_youtube_failure (env : YouTubeEnv) (config : Config)
    (qs1 qs2 : list string) (query e : string) :
  youtube_request_fails env config query e ->
  let run :=
    fetch_youtube (with_youtube_queries env (qs1 ++ query :: qs2)) config in
  fst run = fst (fetch_youtube (with_youtube_queries env (qs1 ++ qs2)) config)
  /\ (get (enabled (get (listener_youtube config) no_listener_config)) false
      = true ->
      truthy (get (youtube_api_key config) ""%string) = true ->
      In (Print ("-> ERROR: " +:+ e)%string) (snd run)
      /\ forall q, In q (qs1 ++ query :: qs2) ->
           exists j, In (Print (progress_line
                                  j (len (qs1 ++ query :: qs2)) q))
                        (snd run)).
Proof.
  unfold youtube_request_fails. cbv zeta. intros Hfail. split.
  - rewrite !fetch_youtube_posts.
    destruct (_ && _); [| reflexivity].
    cbn [youtube_queries with_youtube_queries].
    destruct (youtube_loop_failure
                (with_youtube_queries env (qs1 ++ query :: qs2))
                _ _ query e Hfail qs1 qs2 (initial_fetch_state []))
      as ([Hposts _] & _).
    rewrite Hposts. unfold youtube_loop.
    apply (for_enumerate_same_data
             _ _ (fun i i' q s s' Hs =>
                    youtube_step_same_data
                      (with_youtube_queries env (qs1 ++ query :: qs2))
                      _ _ _ _ i i' q s s' Hs)).
    split; reflexivity.
  - intros Henabled Hkey.
    destruct (fetch_youtube_trace
                (with_youtube_queries env (qs1 ++ query :: qs2)) config
                Henabled Hkey) as [banner ->].
    { cbn [youtube_queries with_youtube_queries].
      destruct qs1; discriminate. }
    cbn [youtube_queries with_youtube_queries].
    destruct (youtube_loop_failure
                (with_youtube_queries env (qs1 ++ query :: qs2))
                _ _ query e Hfail qs1 qs2 (initial_fetch_state [banner]))
      as (_ & Herr & Hall).
    split; [exact Herr | exact Hall].
Qed.

End YouTubeFetcher.

Section BlueskyLoop.

Variable env : BlueskyEnv.
Variable limit : Z.
Variable lang : string.

Lemma bluesky_collect_same_data (query : string) (st st' : FetchState)
    (hit : BlueskyHit) :
  same_data st st' ->
  same_data (bluesky_collect query st hit) (bluesky_collect query st' hit).
Proof.
  intros H. unfold bluesky_collect. cbv zeta.
  destruct H as [Hp Hs]. rewrite Hs.
  destruct (decide (_ ∈ seen_ids st')); [split; assumption |].
  apply keep_same_data. split; assumption.
Qed.

Lemma bluesky_collect_extends (query : string) (st : FetchState)
    (hit : BlueskyHit) :
  extends st (bluesky_collect query st hit).
Proof.
  unfold bluesky_collect. cbv zeta.
  destruct (decide _); [apply extends_refl |].
  exists []. simpl. symmetry. apply app_nil_r.
Qed.

Lemma bluesky_step_same_data (n n' i i' : Z) (query : string)
    (st st' : FetchState) :
  same_data st st' ->
  same_data (bluesky_step env limit lang n i query st)
            (bluesky_step env limit lang n' i' query st').
Proof.
  intros H. unfold bluesky_step.
  destruct (bluesky_search env query limit (Some lang)) as [posts events].
  eapply same_data_trans; [apply cond_emit_same_data |].
  apply same_data_sym.
  eapply same_data_trans; [apply cond_emit_same_data |].
  apply same_data_sym.
  apply fold_same_data.
  - intros s s' x. apply bluesky_collect_same_data.
  - eapply same_data_trans; [apply emit_same_data |].
    eapply same_data_trans; [apply emit_all_same_data |].
    eapply same_data_trans; [apply emit_same_data |].
    eapply same_data_trans; [exact H |].
    apply same_data_sym.
    eapply same_data_trans; [apply emit_same_data |].
    eapply same_data_trans; [apply emit_all_same_data |].
    apply emit_same_data.
Qed.

Lemma bluesky_step_extends (n i : Z) (query : string) (st : FetchState) :
  extends st (bluesky_step env limit lang n i query st).
Proof.
  unfold bluesky_step.
  destruct (bluesky_search env query limit (Some lang)) as [posts events].
  eapply extends_trans; [| apply extends_cond_emit].
  eapply extends_trans;
    [| apply extends_fold; intros s x; apply bluesky_collect_extends].
  eapply extends_trans; [| apply extends_emit].
  eapply extends_trans; [| apply extends_emit_all].
  apply extends_emit.
Qed.

Lemma bluesky_step_announces (n i : Z) (query : string) (st : FetchState) :
  In (Print (progress_line i n query))
     (trace (bluesky_step env limit lang n i query st)).
Proof.
  unfold bluesky_step.
  destruct (bluesky_search env query limit (Some lang)) as [posts events].
  eapply extends_In; [apply extends_cond_emit |].
  eapply extends_In;
    [apply extends_fold; intros s x; apply bluesky_collect_extends |].
  eapply extends_In; [apply extends_emit |].
  eapply extends_In; [apply extends_emit_all |].
  apply In_emit.
Qed.

Lemma bluesky_loop_same_data (queries : list string) (st st' : FetchState) :
  same_data st st' ->
  same_data (bluesky_loop env limit lang queries st)
            (bluesky_loop env limit lang queries st').
Proof.
  intros H. unfold bluesky_loop.
  apply (for_enumerate_same_data
           _ _ (fun i i' q s s' Hs =>
                  bluesky_step_same_data _ _ i i' q s s' Hs)).
  exact H.
Qed.

Section Deduplication.

Lemma emit_deduplicated (e : Event) (st : FetchState) :
  deduplicated st -> deduplicated (emit e st).
Proof. intros H. exact H. Qed.

Lemma emit_all_deduplicated (events : list Event) (st : FetchState) :
  deduplicated st ->
  deduplicated (fold_left (fun s e => emit e s) events st).
Proof.
  revert st. induction events as [|e events IH]; intros st H; simpl.
  - exact H.
  - apply IH, emit_deduplicated, H.
Qed.

Lemma keep_deduplicated (p : NormalizedPost) (st : FetchState) :
  post_id p ∉ seen_ids st -> deduplicated st -> deduplicated (keep p st).
Proof.
  intros Hnew [Hnodup Hseen]. split; simpl.
  - rewrite map_app. simpl.
    apply NoDup_app. split; [exact Hnodup |]. split.
    + intros x Hx Hx'. apply list_elem_of_singleton in Hx'. subst x.
      apply list_elem_of_In, in_map_iff in Hx as (q & Hq & Hin).
      apply Hnew. rewrite <- Hq. apply Hseen, Hin.
    + apply NoDup_singleton.
  - intros q Hin. apply in_app_or in Hin as [Hin | [<- | []]].
    + apply elem_of_union_r, Hseen, Hin.
    + apply elem_of_union_l, elem_of_singleton. reflexivity.
Qed.

Lemma bluesky_collect_deduplicated (query : string) (st : FetchState)
    (hit : BlueskyHit) :
  deduplicated st -> deduplicated (bluesky_collect query st hit).
Proof.
  intros H. unfold bluesky_collect. cbv zeta.
  destruct (decide _) as [Hin | Hnew]; [exact H |].
  apply keep_deduplicated; assumption.
Qed.

Lemma bluesky_step_deduplicated (n i : Z) (query : string)
    (st : FetchState) :
  deduplicated st ->
  deduplicated (bluesky_step env limit lang n i query st).
Proof.
  intros H. unfold bluesky_step.
  destruct (bluesky_search env query limit (Some lang)) as [posts events].
  assert (Hfold :
    deduplicated
      (fold_left (bluesky_collect query) posts
         (emit (Print ("-> " +:+ Str.of_Z (len posts) +:+ " posts")%string)
            (fold_left (fun s e => emit e s) events
               (emit (Print (progress_line i n query)) st))))).
  { generalize (emit (Print ("-> " +:+ Str.of_Z (len posts)
                             +:+ " posts")%string)
                  (fold_left (fun s e => emit e s) events
                     (emit (Print (progress_line i n query)) st))),
      (emit_deduplicated
         (Print ("-> " +:+ Str.of_Z (len posts) +:+ " posts")%string) _
         (emit_all_deduplicated events _
            (emit_deduplicated (Print (progress_line i n query)) _ H))).
    induction posts as [|hit posts IH]; intros s Hs; simpl.
    - exact Hs.
    - apply IH, bluesky_collect_deduplicated, Hs. }
  destruct (i <? n); [apply emit_deduplicated |]; exact Hfold.
Qed.

Lemma bluesky_loop_deduplicated (queries : list string)
    (st : FetchState) :
  deduplicated st ->
  deduplicated (bluesky_loop env limit lang queries st).
Proof.
  unfold bluesky_loop. generalize (len queries) 1.
  intros n i. revert i st.
  induction queries as [|q queries IH]; intros i st H; simpl.
  - exact H.
  - apply IH, bluesky_step_deduplicated, H.
Qed.

End Deduplication.

Variable query e : string.
Hypothesis request_fails :
  search_posts env query (Z.min limit 100)
               (if truthy lang then Some lang else None)
  = inl e.

Lemma bluesky_search_failure :
  bluesky_search env query limit (Some lang)
  = ([], [Print ("  Error searching for '" +:+ query +:+ "': " +:+ e)%string]).
Proof. unfold bluesky_search. rewrite request_fails. reflexivity. Qed.

Lemma bluesky_step_failure_same_data (n i : Z) (st : FetchState) :
  same_data (bluesky_step env limit lang n i query st) st.
Proof.
  unfold bluesky_step. rewrite bluesky_search_failure. simpl fold_left.
  eapply same_data_trans; [apply cond_emit_same_data |].
  eapply same_data_trans; [apply emit_same_data |].
  eapply same_data_trans; apply emit_same_data.
Qed.

Lemma bluesky_step_failure_reported (n i : Z) (st : FetchState) :
  In (Print ("  Error searching for '" +:+ query +:+ "': " +:+ e)%string)
     (trace (bluesky_step env limit lang n i query st)).
Proof.
  unfold bluesky_step. rewrite bluesky_search_failure. simpl fold_left.
  eapply extends_In; [apply extends_cond_emit |].
  eapply extends_In; [apply extends_emit |].
  apply In_emit.
Qed.

Lemma bluesky_loop_failure (qs1 qs2 : list string) (st : FetchState) :
  let after := bluesky_loop env limit lang (qs1 ++ query :: qs2) st in
  same_data after (bluesky_loop env limit lang (qs1 ++ qs2) st)
  /\ In (Print ("  Error searching for '" +:+ query +:+ "': " +:+ e)%string)
        (trace after)
  /\ forall q, In q (qs1 ++ query :: qs2) ->
       exists j, In (Print (progress_line
                              j (len (qs1 ++ query :: qs2)) q))
                    (trace after).
Proof.
  unfold bluesky_loop. cbv zeta. split; [| split].
  - apply for_enumerate_skip.
    + intros i i' q st1 st2. apply bluesky_step_same_data.
    + intros i st1. apply bluesky_step_failure_same_data.
    + apply same_data_refl.
  - rewrite for_enumerate_app. simpl for_enumerate.
    eapply extends_In.
    + apply for_enumerate_extends. intros i q st1.
      apply bluesky_step_extends.
    + apply bluesky_step_failure_reported.
  - intros q Hq.
    apply (for_enumerate_event
             _ (fun i q st1 => bluesky_step_extends _ i q st1)
             (fun j q => Print (progress_line
                                  j (len (qs1 ++ query :: qs2)) q))).
    + intros i q0 st1. apply bluesky_step_announces.
    + exact Hq.
Qed.

End BlueskyLoop.

Section BlueskyFetcher.

Lemma fetch_bluesky_posts (env : BlueskyEnv) (config : Config) :
  fst (fetch_bluesky env config)
  = if bluesky_ready env config
    then all_posts
           (bluesky_loop env
              (get (posts_per_query
                      (get (listener_bluesky config) no_listener_config)) 25)
              (get (language
                      (get (listener_bluesky config) no_listener_config))
                   "en"%string)
              (bluesky_queries env) (initial_fetch_state []))
    else [].
Proof.
  unfold fetch_bluesky, bluesky_ready, no_listener_config. cbv zeta.
  destruct (get (enabled _) false); cbn [negb andb fst]; [| reflexivity].
  destruct (atproto_available env); cbn [negb andb fst]; [| reflexivity].
  destruct (bluesky_queries env) as [|q qs] eqn:Hqueries.
  - cbn [fst]. destruct (fst (get_bluesky_client env config)); reflexivity.
  - destruct (get_bluesky_client env config) as [[client|] events];
      cbn [fst]; [| reflexivity].
    apply bluesky_loop_same_data. split; reflexivity.
Qed.

Lemma fetch_bluesky_trace (env : BlueskyEnv) (config : Config) :
  bluesky_ready env config = true ->
  bluesky_queries env <> [] ->
  exists events,
    snd (fetch_bluesky env config)
    = trace (bluesky_loop env
               (get (posts_per_query
                       (get (listener_bluesky config) no_listener_config)) 25)
               (get (language
                       (get (listener_bluesky config) no_listener_config))
                    "en"%string)
               (bluesky_queries env) (initial_fetch_state events)).
Proof.
  unfold fetch_bluesky, bluesky_ready, no_listener_config. cbv zeta.
  intros Hready Hqueries.
  destruct (get (enabled _) false); cbn [negb andb] in *; [| discriminate].
  destruct (atproto_available env); cbn [negb andb] in *; [| discriminate].
  destruct (bluesky_queries env) as [|q qs]; [contradiction |].
  destruct (get_bluesky_client env config) as [[client|] events];
    cbn [fst] in Hready; [| discriminate].
  eexists. reflexivity.
Qed.

Lemma bluesky_ready_queries (env : BlueskyEnv) (config : Config)
    (queries : list string) :
  bluesky_ready (with_bluesky_queries env queries) config
  = bluesky_ready env config.
Proof. reflexivity. Qed.

(** Taking a failing query out of the query file does not change the
    posts [fetch_bluesky] returns; with it, the error is printed and
    every query is run whenever the fetcher reaches its loop. *)
Lemma fetch_bluesky_failure (env : BlueskyEnv) (config : Config)
    (qs1 qs2 : list string) (query e : string) :
  bluesky_request_fails env config query e ->
  let run :=
    fetch_bluesky (with_bluesky_queries env (qs1 ++ query :: qs2)) config in
  fst run = fst (fetch_bluesky (with_bluesky_queries env (qs1 ++ qs2)) config)
  /\ (bluesky_ready env config = true ->
      In (Print ("  Error searching for '" +:+ query +:+ "': " +:+ e)%string)
         (snd run)
      /\ forall q, In q (qs1 ++ query :: qs2) ->
           exists j, In (Print (progress_line
                                  j (len (qs1 ++ query :: qs2)) q))
                        (snd run)).
Proof.
  unfold bluesky_request_fails. cbv zeta. intros Hfail. split.
  - rewrite !fetch_bluesky_posts, !bluesky_ready_queries.
    destruct (bluesky_ready env config); [| reflexivity].
    cbn [bluesky_queries with_bluesky_queries].
    destruct (bluesky_loop_failure
                (with_bluesky_queries env (qs1 ++ query :: qs2))
                _ _ query e Hfail qs1 qs2 (initial_fetch_state []))
      as ([Hposts _] & _).
    rewrite Hposts. unfold bluesky_loop.
    apply (for_enumerate_same_data
             _ _ (fun i i' q s s' Hs =>
                    bluesky_step_same_data
                      (with_bluesky_queries env (qs1 ++ query :: qs2))
                      _ _ _ _ i i' q s s' Hs)).
    split; reflexivity.
  - intros Hready.
    destruct (fetch_bluesky_trace
                (with_bluesky_queries env (qs1 ++ query :: qs2)) config)
      as [events ->].
    { rewrite bluesky_ready_queries. exact Hready. }
    { cbn [bluesky_queries with_bluesky_queries].
      destruct qs1; discriminate. }
    cbn [bluesky_queries with_bluesky_queries].
    destruct (bluesky_loop_failure
                (with_bluesky_queries env (qs1 ++ query :: qs2))
                _ _ query e Hfail qs1 qs2 (initial_fetch_state events))
      as (_ & Herr & Hall).
    split; [exact Herr | exact Hall].
Qed.

Lemma extract_without_uri (hit : BlueskyHit) :
  without_uri hit ->
  post_id (extract_bluesky_post hit) = ""%string
  /\ url (extract_bluesky_post hit) = ""%string.
Proof.
  unfold without_uri.
  destruct hit as [f | f]; cbn [hit_fields extract_bluesky_post];
    intros [-> | ->]; unfold bluesky_post_of; cbn [get truthy String.eqb negb post_id url];
    rewrite andb_false_r; split; reflexivity.
Qed.

Lemma no_id_no_match (k : string) (posts : list NormalizedPost) :
  ~ In k (map post_id posts) ->
  filter (fun p => post_id p = k) posts = [].
Proof.
  induction posts as [|p posts IH]; intros Hnot; [reflexivity |].
  rewrite filter_cons. simpl in Hnot.
  rewrite decide_False by (intros Heq; apply Hnot; left; exact Heq).
  apply IH. intros Hin. apply Hnot. right. exact Hin.
Qed.

Lemma distinct_ids_one_match (k : string) (posts : list NormalizedPost) :
  NoDup (map post_id posts) ->
  (length (filter (fun p => post_id p = k) posts) <= 1)%nat.
Proof.
  induction posts as [|p posts IH]; intros Hnodup; [simpl; lia |].
  simpl in Hnodup. apply NoDup_cons in Hnodup as [Hfresh Hnodup].
  rewrite filter_cons. destruct (decide (post_id p = k)) as [Heq | Hne].
  - rewrite no_id_no_match; [simpl; lia |].
    rewrite <- Heq. intros Hin. apply Hfresh, list_elem_of_In, Hin.
  - apply IH, Hnodup.
Qed.

(** C10. A search hit whose [uri] is absent or empty is given the
    identifier "" and the URL ""; deduplication then treats "" as an
    identifier like any other: whatever the services answer, the list
    [fetch_bluesky] returns has at most one post with the empty
    identifier, and of two hits without [uri] met in a row the
    second is dropped, however different the two are. *)
Theorem fetch_bluesky_empty_post_id :
  (forall hit, without_uri hit ->
     post_id (extract_bluesky_post hit) = ""%string
     /\ url (extract_bluesky_post hit) = ""%string)
  /\ (forall env config,
        (empty_id_count (fst (fetch_bluesky env config)) <= 1)%nat)
  /\ (forall query st hit hit',
        without_uri hit -> without_uri hit' ->
        ""%string ∉ seen_ids st ->
        fold_left (bluesky_collect query) [hit; hit'] st
        = keep (with_matched_query query (extract_bluesky_post hit)) st).
Proof.
  split; [exact extract_without_uri |]. split.
  - intros env config. unfold empty_id_count.
    rewrite fetch_bluesky_posts.
    destruct (bluesky_ready env config); [| simpl; lia].
    apply distinct_ids_one_match.
    apply (bluesky_loop_deduplicated env).
    split; [apply NoDup_nil; exact I | intros p []].
  - intros query st hit hit' Hhit Hhit' Hnew.
    destruct (extract_without_uri hit Hhit) as [Hid _].
    destruct (extract_without_uri hit' Hhit') as [Hid' _].
    cbn [fold_left]. unfold bluesky_collect at 2. cbv zeta.
    cbn [post_id with_matched_query]. rewrite Hid.
    rewrite decide_False by exact Hnew.
    unfold bluesky_collect. cbv zeta.
    cbn [post_id with_matched_query keep seen_ids]. rewrite Hid', Hid.
    rewrite decide_True; [reflexivity |].
    apply elem_of_union_l, elem_of_singleton. reflexivity.
Qed.

Lemma fetch_bluesky_empty_post_id_witness :
  post_id (extract_bluesky_post Sample.hit_b) = ""%string
  /\ fold_left (bluesky_collect "storj") [Sample.hit_a; Sample.hit_b]
               (initial_fetch_state [])
     = keep (with_matched_query "storj" (extract_bluesky_post Sample.hit_a))
            (initial_fetch_state []).
Proof.
  destruct fetch_bluesky_empty_post_id as (Hextract & _ & Hdrop).
  split.
  - apply Hextract. right. reflexivity.
  - apply Hdrop.
    + left. reflexivity.
    + right. reflexivity.
    + apply not_elem_of_empty.
Defined.

End BlueskyFetcher.

Section TwitterLoop.

Variable scraper : string -> Z -> string -> Response (list Tweet).
Variable generate_signal_id : string -> string.
Variable tweet_to_markdown : Tweet -> string -> string.
Variable timestamp : string.
Variable inbox_path : string.
Variable cfg : TwitterConfig.

Let step :=
  listener_step scraper generate_signal_id tweet_to_markdown timestamp
                inbox_path cfg.
Let collect :=
  listener_collect generate_signal_id tweet_to_markdown timestamp
                   inbox_path cfg.

Lemma same_signals_refl (st : ListenerState) : same_signals st st.
Proof. repeat split. Qed.

Lemma same_signals_trans (st1 st2 st3 : ListenerState) :
  same_signals st1 st2 -> same_signals st2 st3 -> same_signals st1 st3.
Proof.
  intros (H1 & H2 & H3 & H4 & H5) (H1' & H2' & H3' & H4' & H5').
  repeat split; congruence.
Qed.

Lemma same_signals_sym (st st' : ListenerState) :
  same_signals st st' -> same_signals st' st.
Proof. intros (H1 & H2 & H3 & H4 & H5). repeat split; congruence. Qed.

Lemma say_same_signals (line : string) (st : ListenerState) :
  same_signals (say line st) st.
Proof. repeat split. Qed.

Lemma say_console (line : string) (st : ListenerState) :
  console (say line st) = console st ++ [Print line].
Proof. reflexivity. Qed.

Lemma collect_same_signals (query : string) (st st' : ListenerState)
    (tweet : Tweet) :
  same_signals st st' ->
  same_signals (collect query st tweet) (collect query st' tweet).
Proof.
  intros (Hu & Hi & Hf & Hn & Hs). unfold collect, listener_collect.
  cbv zeta. rewrite Hu.
  destruct (decide _); [repeat split; assumption |].
  destruct (_ || _); [repeat split; assumption |].
  unfold save_signal. rewrite Hi.
  repeat split; simpl; congruence.
Qed.

Lemma collect_console (query : string) (st : ListenerState) (tweet : Tweet) :
  exists more, console (collect query st tweet) = console st ++ more.
Proof.
  unfold collect, listener_collect. cbv zeta.
  destruct (decide _); [exists []; symmetry; apply app_nil_r |].
  destruct (_ || _); [exists []; symmetry; apply app_nil_r |].
  unfold save_signal. eexists. reflexivity.
Qed.

Lemma collect_all_same_signals (query : string) (tweets : list Tweet) :
  forall st st', same_signals st st' ->
    same_signals (fold_left (collect query) tweets st)
                 (fold_left (collect query) tweets st').
Proof.
  induction tweets as [|t tweets IH]; intros st st' H; simpl.
  - exact H.
  - apply IH, collect_same_signals, H.
Qed.

Lemma collect_all_console (query : string) (tweets : list Tweet) :
  forall st, exists more,
    console (fold_left (collect query) tweets st) = console st ++ more.
Proof.
  induction tweets as [|t tweets IH]; intros st; simpl.
  - exists []. symmetry. apply app_nil_r.
  - destruct (IH (collect query st t)) as [m2 ->].
    destruct (collect_console query st t) as [m1 ->].
    exists (m1 ++ m2). rewrite app_assoc. reflexivity.
Qed.

Lemma found_same_signals (n : Z) (st st' : ListenerState) :
  same_signals st st' -> same_signals (found n st) (found n st').
Proof.
  intros (Hu & Hi & Hf & Hn & Hs). repeat split; simpl; congruence.
Qed.

Lemma say_both_same_signals (line line' : string) (st st' : ListenerState) :
  same_signals st st' -> same_signals (say line st) (say line' st').
Proof.
  intros H.
  eapply same_signals_trans; [apply say_same_signals |].
  eapply same_signals_trans; [exact H |].
  apply same_signals_sym, say_same_signals.
Qed.

Lemma step_same_signals (query : string) (st st' : ListenerState) :
  same_signals st st' -> same_signals (step st query) (step st' query).
Proof.
  intros H. unfold step, listener_step.
  destruct (scraper query _ _) as [e | tweets].
  - repeat apply say_both_same_signals. exact H.
  - apply say_both_same_signals, collect_all_same_signals,
      found_same_signals.
    repeat apply say_both_same_signals. exact H.
Qed.

Lemma step_console (query : string) (st : ListenerState) :
  exists more,
    console (step st query)
    = console st ++ Print ("Searching: " +:+ query)%string :: more.
Proof.
  unfold step, listener_step.
  destruct (scraper query _ _) as [e | tweets].
  - rewrite !say_console, <- app_assoc. eexists. reflexivity.
  - rewrite say_console.
    match goal with
    | |- context [fold_left ?f tweets ?s] =>
        destruct (collect_all_console query tweets s) as [more Hmore];
        fold collect; rewrite Hmore
    end.
    simpl console. rewrite <- !app_assoc. eexists. reflexivity.
Qed.

Lemma steps_same_signals (queries : list string) :
  forall st st', same_signals st st' ->
    same_signals (fold_left step queries st) (fold_left step queries st').
Proof.
  induction queries as [|q queries IH]; intros st st' H; simpl.
  - exact H.
  - apply IH, step_same_signals, H.
Qed.

Lemma steps_console (queries : list string) :
  forall st, exists more,
    console (fold_left step queries st) = console st ++ more.
Proof.
  induction queries as [|q queries IH]; intros st; simpl.
  - exists []. symmetry. apply app_nil_r.
  - destruct (IH (step st q)) as [m2 ->].
    destruct (step_console q st) as [m1 ->].
    eexists. rewrite <- app_assoc. reflexivity.
Qed.

Lemma steps_announce (queries : list string) :
  forall st q, In q queries ->
    In (Print ("Searching: " +:+ q)%string)
       (console (fold_left step queries st)).
Proof.
  induction queries as [|q0 queries IH]; intros st q Hin; [destruct Hin |].
  destruct Hin as [-> | Hin]; simpl.
  - destruct (steps_console queries (step st q)) as [m2 ->].
    destruct (step_console q st) as [m1 ->].
    apply in_or_app. left. apply in_or_app. right. left. reflexivity.
  - apply IH, Hin.
Qed.

Variable query e : string.
Hypothesis request_fails :
  scraper query (get (tweets_per_query cfg) 20)
          (get (twitter_language cfg) "en"%string)
  = inl e.

Lemma step_failure (st : ListenerState) :
  step st query
  = say ("  ERROR: " +:+ e) (say ("Searching: " +:+ query) st).
Proof. unfold step, listener_step. rewrite request_fails. reflexivity. Qed.

(** A failing query leaves the inbox, the known URLs and the counters
    as they were, is reported, and the queries around it are run. *)
Lemma listener_steps_failure (qs1 qs2 : list string) (st : ListenerState) :
  let after := fold_left step (qs1 ++ query :: qs2) st in
  same_signals after (fold_left step (qs1 ++ qs2) st)
  /\ In (Print ("  ERROR: " +:+ e)%string) (console after)
  /\ forall q, In q (qs1 ++ query :: qs2) ->
       In (Print ("Searching: " +:+ q)%string) (console after).
Proof.
  cbv zeta. split; [| split].
  - rewrite !fold_left_app. simpl fold_left.
    apply steps_same_signals. rewrite step_failure.
    eapply same_signals_trans; apply say_same_signals.
  - rewrite fold_left_app. simpl fold_left.
    destruct (steps_console qs2 (step (fold_left step qs1 st) query))
      as [more ->].
    rewrite step_failure, say_console.
    apply in_or_app. left. apply in_or_app. right. left. reflexivity.
  - intros q Hq. apply steps_announce, Hq.
Qed.

End TwitterLoop.

Section PartialFailure.

(** C8. In every platform fetcher, a query whose request raises an
    exception does not abort the loop. For YouTube and Bluesky the
    posts returned are those returned when the failing query is
    taken out of the query file; for the Twitter listener the inbox,
    the known URLs and the counters (hence the value returned) are
    those of the run without the failing query. In each case the
    error is printed and every query of the list is run. *)
Theorem query_failure_does_not_abort :
  (forall env config qs1 qs2 query e,
      youtube_request_fails env config query e ->
      let run :=
        fetch_youtube (with_youtube_queries env (qs1 ++ query :: qs2))
                      config in
      fst run
      = fst (fetch_youtube (with_youtube_queries env (qs1 ++ qs2)) config)
      /\ (get (enabled (get (listener_youtube config) no_listener_config))
              false = true ->
          truthy (get (youtube_api_key config) ""%string) = true ->
          In (Print ("-> ERROR: " +:+ e)%string) (snd run)
          /\ forall q, In q (qs1 ++ query :: qs2) ->
               exists j, In (Print (progress_line
                                      j (len (qs1 ++ query :: qs2)) q))
                            (snd run)))
  /\ (forall env config qs1 qs2 query e,
        bluesky_request_fails env config query e ->
        let run :=
          fetch_bluesky (with_bluesky_queries env (qs1 ++ query :: qs2))
                        config in
        fst run
        = fst (fetch_bluesky (with_bluesky_queries env (qs1 ++ qs2)) config)
        /\ (bluesky_ready env config = true ->
            In (Print ("  Error searching for '" +:+ query +:+ "': "
                       +:+ e)%string) (snd run)
            /\ forall q, In q (qs1 ++ query :: qs2) ->
                 exists j, In (Print (progress_line
                                        j (len (qs1 ++ query :: qs2)) q))
                              (snd run)))
  /\ (forall scraper generate_signal_id tweet_to_markdown timestamp
             inbox_path cfg urls fs qs1 qs2 query e,
        scraper query (get (tweets_per_query cfg) 20)
                (get (twitter_language cfg) "en"%string) = inl e ->
        let listen := fun queries =>
          run_listener_loop scraper generate_signal_id tweet_to_markdown
                            timestamp inbox_path
                            (with_search_queries cfg queries) urls fs in
        same_signals (listen (qs1 ++ query :: qs2)) (listen (qs1 ++ qs2))
        /\ run_listener scraper generate_signal_id tweet_to_markdown
                        timestamp inbox_path
                        (with_search_queries cfg (qs1 ++ query :: qs2))
                        urls fs
           = run_listener scraper generate_signal_id tweet_to_markdown
                          timestamp inbox_path
                          (with_search_queries cfg (qs1 ++ qs2)) urls fs
        /\ In (Print ("  ERROR: " +:+ e)%string)
              (console (listen (qs1 ++ query :: qs2)))
        /\ forall q, In q (qs1 ++ query :: qs2) ->
             In (Print ("Searching: " +:+ q)%string)
                (console (listen (qs1 ++ query :: qs2)))).
Proof.
  split; [exact fetch_youtube_failure |].
  split; [exact fetch_bluesky_failure |].
  intros scraper gsid t2m timestamp inbox_path cfg urls fs qs1 qs2 query e
         Hfail.
  cbv zeta. unfold run_listener, run_listener_loop.
  cbn [search_queries with_search_queries get].
  destruct (listener_steps_failure
              scraper gsid t2m timestamp inbox_path
              (with_search_queries cfg (qs1 ++ query :: qs2)) query e Hfail
              qs1 qs2
              {| existing_urls := urls; inbox := fs; total_found := 0;
                 total_new := 0; total_saved := 0; console := [] |})
    as (Hsame & Herr & Hall).
  split; [exact Hsame |].
  split; [exact (proj2 (proj2 (proj2 (proj2 Hsame)))) |].
  split; [exact Herr | exact Hall].
Qed.

Lemma query_failure_does_not_abort_witness :
  fst (fetch_youtube
         (with_youtube_queries Sample.youtube_env
            (["data sovereignty"%string] ++ "storj"%string
             :: ["self-hosting"%string]))
         Sample.bluesky_config)
  = fst (fetch_youtube
           (with_youtube_queries Sample.youtube_env
              (["data sovereignty"%string] ++ ["self-hosting"%string]))
           Sample.bluesky_config)
  /\ fst (fetch_bluesky
            (with_bluesky_queries Sample.bluesky_env
               (["data sovereignty"%string] ++ "storj"%string
                :: ["self-hosting"%string]))
            Sample.bluesky_config)
     = fst (fetch_bluesky
              (with_bluesky_queries Sample.bluesky_env
                 (["data sovereignty"%string] ++ ["self-hosting"%string]))
              Sample.bluesky_config)
  /\ run_listener Sample.scraper (fun link => link)
                  (fun tweet query => query) "2026-01-05-0903" "/inbox"
                  (with_search_queries Sample.twitter_config
                     (["data sovereignty"%string] ++ "storj"%string
                      :: ["self-hosting"%string])) ∅ ∅
     = run_listener Sample.scraper (fun link => link)
                    (fun tweet query => query) "2026-01-05-0903" "/inbox"
                    (with_search_queries Sample.twitter_config
                       (["data sovereignty"%string]
                        ++ ["self-hosting"%string])) ∅ ∅.
Proof.
  destruct query_failure_does_not_abort as (Hyoutube & Hbluesky & Htwitter).
  split; [| split].
  - exact (proj1 (Hyoutube Sample.youtube_env Sample.bluesky_config
                    ["data sovereignty"%string] ["self-hosting"%string]
                    "storj"%string "503 Server Error"%string eq_refl)).
  - exact (proj1 (Hbluesky Sample.bluesky_env Sample.bluesky_config
                    ["data sovereignty"%string] ["self-hosting"%string]
                    "storj"%string "rate limit exceeded"%string eq_refl)).
  - exact (proj1 (proj2 (Htwitter Sample.scraper (fun link => link)
                           (fun tweet query => query)
                           "2026-01-05-0903"%string "/inbox"%string
                           Sample.twitter_config ∅ ∅
                           ["data sovereignty"%string]
                           ["self-hosting"%string]
                           "storj"%string "actor run failed"%string
                           eq_refl))).
Defined.

(** The sample services, run: the query "storj" fails on each
    platform, the queries before and after it are served. *)
Example fetch_youtube_sample :
  map post_id (fst (fetch_youtube Sample.youtube_env Sample.bluesky_config))
  = ["data sovereignty-1"%string; "shared"%string; "self-hosting-1"%string]
  /\ snd (fetch_youtube Sample.youtube_env Sample.bluesky_config)
     = [ Print "YouTube: 3 queries, 5 videos each";
         Print "  [1/3] data sovereignty"; Print "-> 2 videos"; Sleep 500;
         Print "  [2/3] storj"; Print "-> ERROR: 503 Server Error";
         Print "  [3/3] self-hosting"; Print "-> 2 videos" ].
Proof. split; vm_compute; reflexivity. Qed.

(** Four hits without [uri], two of them different, in two answers:
    one post is returned. *)
Example fetch_bluesky_sample :
  map text (fst (fetch_bluesky Sample.bluesky_env Sample.bluesky_config))
  = ["Looking for decentralized storage"%string]
  /\ snd (fetch_bluesky Sample.bluesky_env Sample.bluesky_config)
     = [ Print "Bluesky: 3 queries, 25 posts each";
         Print "  [1/3] data sovereignty"; Print "-> 2 posts"; Sleep 300;
         Print "  [2/3] storj";
         Print "  Error searching for 'storj': rate limit exceeded";
         Print "-> 0 posts"; Sleep 300;
         Print "  [3/3] self-hosting"; Print "-> 2 posts" ].
Proof. split; vm_compute; reflexivity. Qed.

End PartialFailure.

(* ===================================================================== *)
(** ** Further properties of the scorer *)
(* ===================================================================== *)

Section ScorerFurther.

Lemma reach_score_monotone (a b : Z) :
  a <= b -> reach_score_of a <= reach_score_of b.
Proof.
  intros Hab. unfold reach_score_of.
  repeat match goal with
         | |- context [?x >=? ?y] => destruct (Z.geb_spec x y)
         end; lia.
Qed.

Lemma round_half_even_div_100_monotone (n m : Z) :
  n <= m ->
  F64.round_half_even_div n 100 <= F64.round_half_even_div m 100.
Proof.
  intros Hnm. unfold F64.round_half_even_div. cbv zeta.
  pose proof (Z.div_mod n 100 ltac:(lia)) as Hn.
  pose proof (Z.mod_pos_bound n 100 ltac:(lia)) as Hrn.
  pose proof (Z.div_mod m 100 ltac:(lia)) as Hm.
  pose proof (Z.mod_pos_bound m 100 ltac:(lia)) as Hrm.
  generalize dependent (n / 100). generalize dependent (n mod 100).
  generalize dependent (m / 100). generalize dependent (m mod 100).
  intros r' Hr' q' Hm r Hr q Hn.
  destruct (Z.compare_spec (2 * r) 100), (Z.compare_spec (2 * r') 100);
    try (destruct (Z.even q) eqn:Eq); try (destruct (Z.even q') eqn:Eq');
    try lia;
    (destruct (Z.eq_dec q q') as [<- | Hne]; [congruence | lia]).
Qed.

(** X2. More engagement on the same text never lowers the total, and
    changes no other sub-score than the reach. *)
Theorem score_post_engagement_monotone (p p' : NormalizedPost)
    (c1 c2 : string) :
  text p = text p' ->
  engagement_total p <= engagement_total p' ->
  exists sb sb',
    score_post p c1 c2 = Some sb /\ score_post p' c1 c2 = Some sb'
    /\ total sb <= total sb'
    /\ reach_potential sb <= reach_potential sb'
    /\ icp_match sb = icp_match sb'
    /\ topic_relevance sb = topic_relevance sb'
    /\ timing sb = timing sb'
    /\ conversation_stage sb = conversation_stage sb'.
Proof.
  intros Htext Hengagement.
  destruct (score_post_returns p c1 c2) as (t & Hsome & Ht & _).
  destruct (score_post_returns p' c1 c2) as (t' & Hsome' & Ht' & _).
  rewrite <- Htext in Hsome', Ht'.
  pose proof (reach_score_monotone _ _ Hengagement) as Hreach.
  do 2 eexists. split; [exact Hsome |]. split; [exact Hsome' |].
  cbn [total reach_potential icp_match topic_relevance timing
       conversation_stage].
  split; [| repeat split; try reflexivity; exact Hreach].
  rewrite Ht, Ht'. apply round_half_even_div_100_monotone. lia.
Qed.

Lemma score_post_engagement_monotone_witness :
  exists sb sb',
    score_post (bare_post "anyone know a homelab setup?" 3) "" "" = Some sb
    /\ score_post (bare_post "anyone know a homelab setup?" 120) "" ""
       = Some sb'
    /\ total sb <= total sb'.
Proof.
  destruct (score_post_engagement_monotone
              (bare_post "anyone know a homelab setup?" 3)
              (bare_post "anyone know a homelab setup?" 120) "" ""
              eq_refl ltac:(simpl; lia))
    as (sb & sb' & H1 & H2 & H3 & _).
  exists sb, sb'. auto.
Defined.

(** X3. Because of the two baselines and the lowest steps of reach and
    stage, no sub-score is ever 0, and the total of a post is always
    between 23 and 95. *)
Theorem score_post_never_extreme (p : NormalizedPost) (c1 c2 : string) :
  exists sb,
    score_post p c1 c2 = Some sb
    /\ 5 <= icp_match sb /\ 15 <= topic_relevance sb
    /\ 10 <= reach_potential sb /\ 30 <= conversation_stage sb <= 85
    /\ 23 <= total sb <= 95.
Proof.
  destruct (score_post_returns p c1 c2) as (t & Hsome & _ & Hnear & _).
  eexists. split; [exact Hsome |].
  cbn [total reach_potential icp_match topic_relevance conversation_stage].
  pose proof (icp_score_in_values (Str.lower (text p))) as Hi.
  pose proof (topic_score_in_values (Str.lower (text p))) as Ht.
  pose proof (reach_score_in_values (engagement_total p)) as Hr.
  pose proof (stage_score_in_values (Str.lower (text p))) as Hs.
  generalize dependent (icp_score_of (Str.lower (text p))).
  generalize dependent (topic_score_of (Str.lower (text p))).
  generalize dependent (reach_score_of (engagement_total p)).
  generalize dependent (stage_score_of (Str.lower (text p))).
  intros stage Hs reach Hr topic Ht icp _ Hnear Hi.
  assert (Hicp : 5 <= icp <= 100)
    by (unfold icp_values in Hi; cbn [In] in Hi; lia).
  assert (Htopic : 15 <= topic <= 100)
    by (unfold topic_values in Ht; cbn [In] in Ht; lia).
  assert (Hreach : 10 <= reach <= 100)
    by (unfold reach_values in Hr; cbn [In] in Hr; lia).
  assert (Hstage : 30 <= stage <= 85)
    by (unfold stage_values in Hs; cbn [In] in Hs; lia).
  clear Hi Ht Hr Hs. lia.
Qed.

End ScorerFurther.

(* ===================================================================== *)
(** ** Properties of the ranking *)
(* ===================================================================== *)

Section Ranking.

Lemma insert_by_total_permutation (p : ScoredPost) (sorted : list ScoredPost) :
  insert_by_total p sorted ≡ₚ p :: sorted.
Proof.
  induction sorted as [|q rest IH]; simpl; [reflexivity |].
  destruct (total (score p) >=? total (score q)); [reflexivity |].
  rewrite IH. apply Permutation_swap.
Qed.

Lemma sorted_by_total_permutation (posts : list ScoredPost) :
  sorted_by_total posts ≡ₚ posts.
Proof.
  unfold sorted_by_total.
  induction posts as [|p posts IH]; simpl; [reflexivity |].
  rewrite insert_by_total_permutation, IH. reflexivity.
Qed.

Lemma insert_by_total_sorted (p : ScoredPost) (sorted : list ScoredPost) :
  StronglySorted outranks sorted ->
  StronglySorted outranks (insert_by_total p sorted).
Proof.
  induction sorted as [|q rest IH]; intros Hsorted; simpl.
  - repeat constructor.
  - apply StronglySorted_inv in Hsorted as [Hrest Hq].
    destruct (Z.geb_spec (total (score p)) (total (score q))) as [Hge | Hlt].
    + constructor; [constructor; assumption |].
      constructor; [unfold outranks; lia |].
      eapply Forall_impl; [exact Hq |].
      intros x Hx. unfold outranks in *. lia.
    + constructor; [apply IH, Hrest |].
      rewrite insert_by_total_permutation.
      constructor; [unfold outranks; lia | exact Hq].
Qed.

Lemma sorted_by_total_sorted (posts : list ScoredPost) :
  StronglySorted outranks (sorted_by_total posts).
Proof.
  unfold sorted_by_total.
  induction posts as [|p posts IH]; simpl; [constructor |].
  apply insert_by_total_sorted, IH.
Qed.

(** X4. The ranking of the briefing is a rearrangement of the scored
    posts in which every post has a total at least as large as that of
    every post after it. *)
Theorem ranking_sorted_permutation (posts : list ScoredPost) :
  sorted_by_total posts ≡ₚ posts
  /\ StronglySorted outranks (sorted_by_total posts).
Proof.
  split; [apply sorted_by_total_permutation | apply sorted_by_total_sorted].
Qed.

Lemma insert_by_total_with_total (t : Z) (p : ScoredPost)
    (sorted : list ScoredPost) :
  with_total t (insert_by_total p sorted)
  = if decide (total (score p) = t) then p :: with_total t sorted
    else with_total t sorted.
Proof.
  unfold with_total.
  induction sorted as [|q rest IH]; simpl insert_by_total.
  - rewrite filter_cons. destruct (decide _); reflexivity.
  - destruct (Z.geb_spec (total (score p)) (total (score q))) as [Hge | Hlt].
    + rewrite (filter_cons _ p). destruct (decide _); reflexivity.
    + rewrite !(filter_cons _ q), IH.
      destruct (decide (total (score p) = t)) as [Hp | Hp];
        destruct (decide (total (score q) = t)) as [Hq | Hq];
        try reflexivity; lia.
Qed.

(** X5. The ranking is stable: the posts that share a total keep the
    order they were scored in. *)
Theorem ranking_stable (t : Z) (posts : list ScoredPost) :
  with_total t (sorted_by_total posts) = with_total t posts.
Proof.
  unfold sorted_by_total.
  induction posts as [|p posts IH]; simpl fold_right; [reflexivity |].
  rewrite insert_by_total_with_total, IH.
  unfold with_total at 3. rewrite filter_cons. reflexivity.
Qed.

Lemma sorted_take_drop (l : list ScoredPost) (n : nat) (a b : ScoredPost) :
  StronglySorted outranks l ->
  In a (take n l) -> In b (drop n l) -> outranks a b.
Proof.
  revert n. induction l as [|x l IH]; intros n Hsorted Ha Hb.
  - rewrite take_nil in Ha. destruct Ha.
  - apply StronglySorted_inv in Hsorted as [Hl Hx].
    destruct n as [|n]; [destruct Ha |].
    simpl in Ha, Hb. destruct Ha as [<- | Ha].
    + rewrite Forall_forall in Hx. apply Hx.
      apply list_elem_of_In in Hb. exact (subseteq_drop _ _ _ Hb).
    + eapply IH; eassumption.
Qed.

(** X6. The posts given a detailed entry are the best ones: together with
    the posts left out they make up the scored posts, and none of those
    left out has a larger total than one that is shown. *)
Theorem top_posts_are_the_best (scored_posts : list ScoredPost)
    (max_results : Z) :
  0 <= max_results ->
  exists rest,
    Briefing.top_posts scored_posts max_results ++ rest ≡ₚ scored_posts
    /\ forall a b,
         In a (Briefing.top_posts scored_posts max_results) -> In b rest ->
         outranks a b.
Proof.
  intros Hmax. unfold Briefing.top_posts, slice_to.
  destruct (Z.ltb_spec max_results 0) as [Hneg | _]; [lia |].
  exists (drop (Z.to_nat max_results) (sorted_by_total scored_posts)).
  split.
  - rewrite take_drop. apply sorted_by_total_permutation.
  - intros a b. apply sorted_take_drop, sorted_by_total_sorted.
Qed.

Lemma top_posts_are_the_best_witness :
  exists rest,
    Briefing.top_posts Sample.three_posts 2 ++ rest ≡ₚ Sample.three_posts
    /\ forall a b,
         In a (Briefing.top_posts Sample.three_posts 2) -> In b rest ->
         outranks a b.
Proof. apply top_posts_are_the_best. lia. Defined.

End Ranking.

(* ===================================================================== *)
(** ** Further properties of the fetchers *)
(* ===================================================================== *)

Section LoopInvariants.

Variable body : Z -> string -> FetchState -> FetchState.

(** A property of the state that every query of the list preserves
    holds after the loop. *)
Lemma for_enumerate_invariant (P : FetchState -> Prop)
    (queries : list string) :
  (forall i q st, In q queries -> P st -> P (body i q st)) ->
  forall i st, P st -> P (for_enumerate body i queries st).
Proof.
  induction queries as [|q queries IH]; intros Hbody i st Hst; simpl.
  - exact Hst.
  - apply IH.
    + intros j q' st' Hin. apply Hbody. right. exact Hin.
    + apply Hbody; [left; reflexivity | exact Hst].
Qed.

End LoopInvariants.

Section FoldInvariants.

Lemma fold_left_invariant {A S : Type} (P : S -> Prop) (f : S -> A -> S)
    (items : list A) :
  (forall s x, P s -> P (f s x)) ->
  forall s, P s -> P (fold_left f items s).
Proof.
  intros Hf. induction items as [|x items IH]; intros s Hs; simpl.
  - exact Hs.
  - apply IH, Hf, Hs.
Qed.

Lemma for_each_query_invariant {S : Type} (P : S -> Prop)
    (f : S -> string -> S) (queries : list string) :
  (forall s q, In q queries -> P s -> P (f s q)) ->
  forall s, P s -> P (fold_left f queries s).
Proof.
  induction queries as [|q queries IH]; intros Hf s Hs; simpl.
  - exact Hs.
  - apply IH.
    + intros s' q' Hin. apply Hf. right. exact Hin.
    + apply Hf; [left; reflexivity | exact Hs].
Qed.

Lemma all_posts_emit_all (events : list Event) (st : FetchState) :
  all_posts (fold_left (fun s e => emit e s) events st) = all_posts st.
Proof. apply (emit_all_same_data events st). Qed.

End FoldInvariants.

Section SlashFree.

Lemma string_app_nil (s : string) : (EmptyString +:+ s)%string = s.
Proof. reflexivity. Qed.

Lemma string_app_cons (a : ascii) (s t : string) :
  (String a s +:+ t)%string = String a (s +:+ t).
Proof. reflexivity. Qed.

Lemma string_app_nil_r (s : string) : (s +:+ EmptyString)%string = s.
Proof.
  induction s as [|a s IH]; [reflexivity |].
  rewrite string_app_cons, IH. reflexivity.
Qed.

Lemma contains_slash_cons (c : ascii) (s : string) :
  Str.contains "/" (String c s) = Ascii.eqb "/" c || Str.contains "/" s.
Proof.
  cbn [Str.contains Str.startswith]. rewrite andb_true_r. reflexivity.
Qed.

Lemma slash_free_snoc (acc : string) (c : ascii) :
  slash_free acc -> Ascii.eqb c "/" = false ->
  slash_free (acc +:+ String c EmptyString).
Proof.
  unfold slash_free. intros Hacc Hc.
  induction acc as [|a acc IH].
  - rewrite string_app_nil, contains_slash_cons, Ascii.eqb_sym, Hc.
    reflexivity.
  - rewrite string_app_cons. rewrite contains_slash_cons in *.
    apply orb_false_iff in Hacc as [Ha Hacc].
    rewrite Ha, IH by exact Hacc. reflexivity.
Qed.

Lemma last_segment_from_slash_free (acc s : string) :
  slash_free acc -> slash_free (Str.last_segment_from acc s).
Proof.
  revert acc. induction s as [|c s IH]; intros acc Hacc;
    cbn [Str.last_segment_from].
  - exact Hacc.
  - destruct (Ascii.eqb c "/") eqn:Hc.
    + apply IH. reflexivity.
    + apply IH, slash_free_snoc; assumption.
Qed.

Lemma last_segment_slash_free (s : string) :
  slash_free (Str.last_segment s).
Proof. apply last_segment_from_slash_free. reflexivity. Qed.

Lemma last_segment_from_app (acc s1 s2 : string) :
  Str.last_segment_from acc (s1 +:+ s2)
  = Str.last_segment_from (Str.last_segment_from acc s1) s2.
Proof.
  revert acc. induction s1 as [|c s1 IH]; intros acc.
  - reflexivity.
  - rewrite string_app_cons. cbn [Str.last_segment_from].
    destruct (Ascii.eqb c "/"); apply IH.
Qed.

Lemma app_snoc_cons (acc : string) (c : ascii) (s : string) :
  ((acc +:+ String c EmptyString) +:+ s)%string = (acc +:+ String c s)%string.
Proof.
  induction acc as [|a acc IH]; [reflexivity |].
  rewrite !string_app_cons, IH. reflexivity.
Qed.

Lemma last_segment_from_of_slash_free (acc s : string) :
  slash_free s -> Str.last_segment_from acc s = (acc +:+ s)%string.
Proof.
  unfold slash_free. revert acc.
  induction s as [|c s IH]; intros acc Hs; cbn [Str.last_segment_from].
  - symmetry. apply string_app_nil_r.
  - rewrite contains_slash_cons in Hs.
    apply orb_false_iff in Hs as [Hc Hs].
    rewrite Ascii.eqb_sym, Hc, IH by exact Hs. apply app_snoc_cons.
Qed.

(** The identifier of a Bluesky post is the record key of its URI:
    what follows the last slash. *)
Lemma last_segment_of_uri (prefix rkey : string) :
  slash_free rkey ->
  Str.last_segment (prefix +:+ "/" +:+ rkey) = rkey.
Proof.
  intros Hkey. unfold Str.last_segment.
  rewrite last_segment_from_app.
  change ("/" +:+ rkey)%string with (String "/" rkey).
  cbn [Str.last_segment_from Ascii.eqb Bool.eqb].
  apply last_segment_from_of_slash_free, Hkey.
Qed.

End SlashFree.

Section BlueskyPosts.

Lemma truthy_true (s : string) : truthy s = true -> s <> ""%string.
Proof.
  unfold truthy. intros H ->. discriminate H.
Qed.

Lemma extract_bluesky_post_ok (queries : list string) (query : string)
    (hit : BlueskyHit) :
  In query queries ->
  bluesky_post_ok queries
                  (with_matched_query query (extract_bluesky_post hit)).
Proof.
  intros Hin. unfold bluesky_post_ok.
  destruct hit as [f | f]; cbn [extract_bluesky_post];
    unfold bluesky_post_of; cbv zeta;
    cbn [with_matched_query platform matched_query engagement_total likes
         replies reposts post_id url views author_handle];
    (split; [reflexivity |]); (split; [exact Hin |]);
    (split; [reflexivity |]);
    (split; [destruct (truthy (get (raw_uri f) ""%string));
             [apply last_segment_slash_free | reflexivity] |]);
    (split; [| reflexivity]);
    destruct (truthy (get (raw_handle f) ""%string)) eqn:Hhandle;
      cbn [andb]; try (left; reflexivity);
    match goal with
    | |- context [truthy ?id] => destruct (truthy id) eqn:Hid
    end; try (left; reflexivity);
    right; repeat split;
      try (apply truthy_true; assumption).
Qed.

Lemma bluesky_collect_ok (queries : list string) (query : string)
    (st : FetchState) (hit : BlueskyHit) :
  In query queries ->
  Forall (bluesky_post_ok queries) (all_posts st) ->
  Forall (bluesky_post_ok queries) (all_posts (bluesky_collect query st hit)).
Proof.
  intros Hin Hst. unfold bluesky_collect. cbv zeta.
  destruct (decide _); [exact Hst |].
  cbn [keep all_posts]. apply Forall_app. split; [exact Hst |].
  constructor; [| constructor]. apply extract_bluesky_post_ok, Hin.
Qed.

Lemma bluesky_step_ok (env : BlueskyEnv) (limit : Z) (lang : string)
    (queries : list string) (n i : Z) (query : string) (st : FetchState) :
  In query queries ->
  Forall (bluesky_post_ok queries) (all_posts st) ->
  Forall (bluesky_post_ok queries)
         (all_posts (bluesky_step env limit lang n i query st)).
Proof.
  intros Hin Hst. unfold bluesky_step.
  destruct (bluesky_search env query limit (Some lang)) as [posts events].
  assert (Hfold : forall s,
             Forall (bluesky_post_ok queries) (all_posts s) ->
             Forall (bluesky_post_ok queries)
                    (all_posts (fold_left (bluesky_collect query) posts s))).
  { apply (fold_left_invariant
             (fun s => Forall (bluesky_post_ok queries) (all_posts s))).
    intros s x. apply bluesky_collect_ok, Hin. }
  destruct (i <? n); cbn [emit all_posts]; apply Hfold;
    cbn [emit all_posts]; rewrite all_posts_emit_all; exact Hst.
Qed.

(** X8. Every post [fetch_bluesky] returns is a Bluesky post found by one
    of the configured queries; its engagement total is the sum of its
    three counters, its identifier has no slash, and its URL is either
    empty or the profile link made of its handle and its identifier,
    both then non-empty. *)
Theorem fetch_bluesky_posts_ok (env : BlueskyEnv) (config : Config) :
  Forall (bluesky_post_ok (bluesky_queries env))
         (fst (fetch_bluesky env config)).
Proof.
  rewrite fetch_bluesky_posts.
  destruct (bluesky_ready env config); [| constructor].
  unfold bluesky_loop.
  apply (for_enumerate_invariant
           _ (fun s => Forall (bluesky_post_ok (bluesky_queries env))
                              (all_posts s))).
  - intros i q st. apply bluesky_step_ok.
  - constructor.
Qed.

(** X9. Within one run, [fetch_bluesky] returns no two posts with the same
    identifier. *)
Theorem fetch_bluesky_distinct_ids (env : BlueskyEnv) (config : Config) :
  NoDup (map post_id (fst (fetch_bluesky env config))).
Proof.
  rewrite fetch_bluesky_posts.
  destruct (bluesky_ready env config); [| constructor].
  apply (bluesky_loop_deduplicated env).
  split; [constructor | intros p []].
Qed.

(** X10. A hit whose URI ends in a record key, from an author with a
    handle, gets the record key as identifier and the profile link of
    handle and key as URL. *)
Theorem extract_bluesky_post_of_uri (f : BlueskyFields)
    (handle prefix rkey : string) (sdk : bool) :
  raw_handle f = Some handle -> handle <> ""%string ->
  raw_uri f = Some (prefix +:+ "/" +:+ rkey)%string ->
  slash_free rkey -> rkey <> ""%string ->
  let p := extract_bluesky_post (if sdk then SdkObject f else Mapping f) in
  post_id p = rkey
  /\ url p = ("https://bsky.app/profile/" +:+ handle +:+ "/post/"
              +:+ rkey)%string.
Proof.
  intros Hhandle Hnonempty Huri Hfree Hkey.
  assert (Htruthy : forall s, s <> ""%string -> truthy s = true).
  { intros s Hs. unfold truthy.
    destruct (String.eqb_spec s ""); [contradiction | reflexivity]. }
  assert (Huri' : truthy (prefix +:+ "/" +:+ rkey) = true).
  { apply Htruthy. destruct prefix; discriminate. }
  destruct sdk; cbv zeta; cbn [extract_bluesky_post];
    unfold bluesky_post_of; cbv zeta; cbn [post_id url];
    rewrite Hhandle, Huri; cbn [get];
    rewrite Huri', last_segment_of_uri by exact Hfree;
    rewrite !Htruthy by assumption; split; reflexivity.
Qed.

Lemma extract_bluesky_post_of_uri_witness :
  let p :=
    extract_bluesky_post
      (Mapping {| raw_handle := Some "ada.bsky.social";
                  raw_display_name := None;
                  raw_uri := Some "at://did:plc:abc/app.bsky.feed.post/3kxyz";
                  raw_text := None; raw_created_at := None;
                  raw_like_count := None; raw_reply_count := None;
                  raw_repost_count := None |}) in
  post_id p = "3kxyz"%string
  /\ url p = "https://bsky.app/profile/ada.bsky.social/post/3kxyz"%string.
Proof.
  exact (extract_bluesky_post_of_uri
           {| raw_handle := Some "ada.bsky.social";
              raw_display_name := None;
              raw_uri := Some "at://did:plc:abc/app.bsky.feed.post/3kxyz";
              raw_text := None; raw_created_at := None;
              raw_like_count := None; raw_reply_count := None;
              raw_repost_count := None |}
           "ada.bsky.social" "at://did:plc:abc/app.bsky.feed.post" "3kxyz"
           false eq_refl ltac:(discriminate) eq_refl eq_refl
           ltac:(discriminate)).
Defined.

End BlueskyPosts.

Section YouTubePosts.

Variable env : YouTubeEnv.
Variable api_key : string.
Variable listener_config : ListenerConfig.

Lemma youtube_collect_kept (query : string) (stats : gmap string VideoStats)
    (st : FetchState) (item : YouTubeItem) :
  youtube_collect query stats st item = st
  \/ exists id,
       item_video_id item = Some id /\ id <> ""%string
       /\ (id ∉ seen_ids st)
       /\ youtube_collect query stats st item
          = keep (extract_youtube_video item query (stats !! id)) st.
Proof.
  unfold youtube_collect. cbv zeta.
  destruct (item_video_id item) as [id|] eqn:Hid; cbn [get];
    [| left; reflexivity].
  destruct (truthy id) eqn:Htruthy; cbn [negb]; [| left; reflexivity].
  destruct (decide (id ∈ seen_ids st)) as [Hseen | Hnew]; [left; reflexivity |].
  right. exists id. repeat split; try assumption.
  apply truthy_true, Htruthy.
Qed.

Lemma extract_youtube_video_ok (queries : list string) (query id : string)
    (item : YouTubeItem) (stats : option VideoStats) :
  In query queries -> item_video_id item = Some id -> id <> ""%string ->
  youtube_post_ok queries (extract_youtube_video item query stats)
  /\ post_id (extract_youtube_video item query stats) = id.
Proof.
  intros Hin Hid Hne. unfold youtube_post_ok, extract_youtube_video.
  cbv zeta.
  cbn [platform matched_query post_id url reposts engagement_total likes
       replies views author_handle author_name].
  rewrite Hid. cbn [get]. repeat split; try assumption; try reflexivity.
  discriminate.
Qed.

Lemma youtube_collect_ok (queries : list string) (query : string)
    (stats : gmap string VideoStats) (st : FetchState) (item : YouTubeItem) :
  In query queries ->
  Forall (youtube_post_ok queries) (all_posts st) ->
  Forall (youtube_post_ok queries)
         (all_posts (youtube_collect query stats st item)).
Proof.
  intros Hin Hst.
  destruct (youtube_collect_kept query stats st item)
    as [-> | (id & Hid & Hne & _ & ->)]; [exact Hst |].
  cbn [keep all_posts]. apply Forall_app. split; [exact Hst |].
  constructor; [| constructor].
  apply (extract_youtube_video_ok queries query id); assumption.
Qed.

Lemma youtube_collect_deduplicated (query : string)
    (stats : gmap string VideoStats) (st : FetchState) (item : YouTubeItem) :
  deduplicated st -> deduplicated (youtube_collect query stats st item).
Proof.
  intros Hst.
  destruct (youtube_collect_kept query stats st item)
    as [-> | (id & Hid & Hne & Hnew & ->)]; [exact Hst |].
  apply keep_deduplicated; [| exact Hst].
  destruct (extract_youtube_video_ok [query] query id item (stats !! id))
    as [_ ->]; [left; reflexivity | assumption | assumption | exact Hnew].
Qed.

(** What the posts of a state satisfy is kept by a query step, when
    keeping one more video keeps it. *)
Lemma youtube_step_invariant (P : FetchState -> Prop) (n i : Z)
    (query : string) (st : FetchState) :
  (forall s s', same_data s s' -> P s -> P s') ->
  (forall stats s item, P s -> P (youtube_collect query stats s item)) ->
  P st -> P (youtube_step env api_key listener_config n i query st).
Proof.
  intros Hdata Hcollect Hst. unfold youtube_step.
  destruct (youtube_search env api_key query _ _) as [e | items].
  - eapply Hdata; [| exact Hst].
    apply same_data_sym.
    eapply same_data_trans; apply emit_same_data.
  - match goal with
    | |- P (if _ then emit ?e ?s else ?s) =>
        assert (Hs : P s);
        [| destruct (i <? n); [eapply Hdata; [| exact Hs];
                               apply same_data_sym, emit_same_data
                              | exact Hs]]
    end.
    apply fold_left_invariant; [intros s x; apply Hcollect |].
    eapply Hdata; [| exact Hst].
    apply same_data_sym.
    eapply same_data_trans; apply emit_same_data.
Qed.

End YouTubePosts.

Section YouTubeResults.

Lemma deduplicated_same_data (s s' : FetchState) :
  same_data s s' -> deduplicated s -> deduplicated s'.
Proof. intros [Hp Hs] H. unfold deduplicated. rewrite <- Hp, <- Hs. exact H. Qed.

Lemma all_posts_same_data (P : list NormalizedPost -> Prop)
    (s s' : FetchState) :
  same_data s s' -> P (all_posts s) -> P (all_posts s').
Proof. intros [Hp _] H. rewrite <- Hp. exact H. Qed.

(** X12. Every video [fetch_youtube] returns was found by one of the
    configured queries, has a non-empty identifier and the watch link
    of that identifier as URL, no reposts, and an engagement total that
    is the sum of its likes and comments. *)
Theorem fetch_youtube_posts_ok (env : YouTubeEnv) (config : Config) :
  Forall (youtube_post_ok (youtube_queries env))
         (fst (fetch_youtube env config)).
Proof.
  rewrite fetch_youtube_posts.
  destruct (_ && _); [| constructor].
  unfold youtube_loop.
  apply (for_enumerate_invariant
           _ (fun s => Forall (youtube_post_ok (youtube_queries env))
                              (all_posts s))).
  - intros i q st Hin.
    apply (youtube_step_invariant
             env _ _
             (fun s => Forall (youtube_post_ok (youtube_queries env))
                              (all_posts s))).
    + intros s s'. apply all_posts_same_data.
    + intros stats s item. apply youtube_collect_ok, Hin.
  - constructor.
Qed.

(** X13. Within one run, [fetch_youtube] returns no two videos with the
    same identifier. *)
Theorem fetch_youtube_distinct_ids (env : YouTubeEnv) (config : Config) :
  NoDup (map post_id (fst (fetch_youtube env config))).
Proof.
  rewrite fetch_youtube_posts.
  destruct (_ && _); [| constructor].
  unfold youtube_loop.
  apply (for_enumerate_invariant _ deduplicated).
  - intros i q st _.
    apply (youtube_step_invariant env _ _ deduplicated).
    + apply deduplicated_same_data.
    + intros stats s item. apply youtube_collect_deduplicated.
  - split; [constructor | intros p []].
Qed.

Lemma fetch_youtube_stats_failure (env : YouTubeEnv) (key e : string)
    (ids : list string) :
  youtube_videos env key ids = inl e ->
  fetch_youtube_stats env key ids = ∅.
Proof. intros H. unfold fetch_youtube_stats. rewrite H. reflexivity. Qed.

Lemma extract_youtube_video_without_statistics (item : YouTubeItem)
    (query : string) (stats : option VideoStats) :
  extract_youtube_video item query None
  = without_counters (extract_youtube_video item query stats).
Proof. destruct stats; reflexivity. Qed.

Lemma emit_same_videos (e : Event) (s s' : FetchState) :
  same_videos s s' -> same_videos (emit e s) (emit e s').
Proof.
  intros (Hposts & Hseen & Htrace). unfold same_videos. cbn [emit all_posts seen_ids trace].
  rewrite Htrace. auto.
Qed.

(** A video is kept or not whatever the statistics are, and is kept
    with the counters at 0 when there are none. *)
Lemma youtube_collect_same_videos (query : string)
    (stats : gmap string VideoStats) (s s' : FetchState)
    (item : YouTubeItem) :
  same_videos s s' ->
  same_videos (youtube_collect query ∅ s item)
              (youtube_collect query stats s' item).
Proof.
  intros (Hposts & Hseen & Htrace). unfold youtube_collect. cbv zeta.
  destruct (negb (truthy _)); [repeat split; assumption |].
  rewrite Hseen.
  destruct (decide _) as [_ | _]; [repeat split; assumption |].
  unfold same_videos. cbn [keep all_posts seen_ids trace].
  rewrite map_app, Hposts, Hseen, lookup_empty. cbn [map].
  rewrite (extract_youtube_video_without_statistics
             item query (stats !! get (item_video_id item) ""%string)).
  repeat split; assumption.
Qed.

Lemma youtube_collect_all_same_videos (query : string)
    (stats : gmap string VideoStats) (items : list YouTubeItem) :
  forall s s',
    same_videos s s' ->
    same_videos (fold_left (youtube_collect query ∅) items s)
                (fold_left (youtube_collect query stats) items s').
Proof.
  induction items as [|item items IH]; intros s s' H; simpl; [exact H |].
  apply IH, youtube_collect_same_videos, H.
Qed.

Lemma youtube_step_same_videos (env : YouTubeEnv)
    (videos : string -> list string -> Response (list YouTubeStatsItem))
    (key : string) (lc : ListenerConfig) (n i : Z) (query : string)
    (s s' : FetchState) :
  (forall ids, exists e, youtube_videos env key ids = inl e) ->
  same_videos s s' ->
  same_videos (youtube_step env key lc n i query s)
              (youtube_step (with_youtube_videos env videos) key lc n i
                            query s').
Proof.
  intros Hfail H. unfold youtube_step.
  cbn [with_youtube_videos youtube_search published_after_date].
  destruct (youtube_search env key query _ _) as [e | items];
    [apply emit_same_videos, emit_same_videos, H |].
  assert (Hstats :
    match omap item_video_id items with
    | [] => ∅
    | _ :: _ => fetch_youtube_stats env key (omap item_video_id items)
    end = (∅ : gmap string VideoStats)).
  { destruct (omap item_video_id items) as [|id ids] eqn:Hids;
      [reflexivity |].
    destruct (Hfail (id :: ids)) as [e He].
    apply (fetch_youtube_stats_failure env key e), He. }
  rewrite Hstats.
  generalize
    (match omap item_video_id items with
     | [] => ∅
     | _ :: _ =>
         fetch_youtube_stats (with_youtube_videos env videos) key
                             (omap item_video_id items)
     end).
  intros stats.
  assert (Hfold :
    same_videos
      (fold_left (youtube_collect query ∅) items
         (emit (Print ("-> " +:+ Str.of_Z (len items) +:+ " videos")%string)
            (emit (Print (progress_line i n query)) s)))
      (fold_left (youtube_collect query stats) items
         (emit (Print ("-> " +:+ Str.of_Z (len items) +:+ " videos")%string)
            (emit (Print (progress_line i n query)) s')))).
  { apply youtube_collect_all_same_videos, emit_same_videos,
      emit_same_videos, H. }
  destruct (i <? n); [apply emit_same_videos |]; exact Hfold.
Qed.

Lemma youtube_loop_same_videos (env : YouTubeEnv)
    (videos : string -> list string -> Response (list YouTubeStatsItem))
    (key : string) (lc : ListenerConfig) (n : Z) (queries : list string) :
  (forall ids, exists e, youtube_videos env key ids = inl e) ->
  forall i s s',
    same_videos s s' ->
    same_videos
      (for_enumerate (youtube_step env key lc n) i queries s)
      (for_enumerate (youtube_step (with_youtube_videos env videos) key lc n)
                     i queries s').
Proof.
  intros Hfail.
  induction queries as [|q queries IH]; intros i s s' H; simpl; [exact H |].
  apply IH, youtube_step_same_videos; assumption.
Qed.

(** The videos and the events of [fetch_youtube] do not depend on the
    statistics, the counters apart. *)
Lemma fetch_youtube_same_videos (env : YouTubeEnv) (config : Config)
    (videos : string -> list string -> Response (list YouTubeStatsItem)) :
  (forall ids, exists e,
      youtube_videos env (get (youtube_api_key config) ""%string) ids
      = inl e) ->
  fst (fetch_youtube env config)
  = map without_counters
        (fst (fetch_youtube (with_youtube_videos env videos) config))
  /\ snd (fetch_youtube env config)
     = snd (fetch_youtube (with_youtube_videos env videos) config).
Proof.
  intros Hfail. unfold fetch_youtube. cbv zeta.
  cbn [with_youtube_videos youtube_queries].
  destruct (negb (get (enabled _) false)); [split; reflexivity |].
  destruct (negb (truthy _)); [split; reflexivity |].
  destruct (youtube_queries env) as [|q qs] eqn:Hqueries;
    [split; reflexivity |].
  cbn [fst snd]. unfold youtube_loop.
  match goal with
  | |- all_posts (for_enumerate _ ?i ?queries ?s) = _ /\ _ =>
      destruct (youtube_loop_same_videos
                  env videos (get (youtube_api_key config) ""%string)
                  (get (listener_youtube config)
                       {| enabled := None; posts_per_query := None;
                          videos_per_query := None; language := None;
                          max_age_days := None |})
                  (len queries) queries Hfail i s s)
        as (Hposts & _ & Htrace)
  end.
  - repeat split.
  - split; [exact Hposts | exact Htrace].
Qed.

Lemma without_counters_without_statistics (p : NormalizedPost) :
  without_statistics (without_counters p).
Proof. repeat split. Qed.

(** X14. When the statistics request fails, the run goes on as if the
    statistics had been empty: whatever the statistics service would
    have answered, [fetch_youtube] returns the same videos in the same
    order and prints the same lines, each video with no likes, no
    comments, no views and an engagement total of 0, hence the lowest
    reach. *)
Theorem fetch_youtube_without_statistics (env : YouTubeEnv)
    (config : Config)
    (videos : string -> list string -> Response (list YouTubeStatsItem)) :
  (forall ids, exists e,
      youtube_videos env (get (youtube_api_key config) ""%string) ids
      = inl e) ->
  fst (fetch_youtube env config)
  = map without_counters
        (fst (fetch_youtube (with_youtube_videos env videos) config))
  /\ snd (fetch_youtube env config)
     = snd (fetch_youtube (with_youtube_videos env videos) config)
  /\ Forall (fun p => without_statistics p
                      /\ reach_score_of (engagement_total p) = 10)
            (fst (fetch_youtube env config)).
Proof.
  intros Hfail.
  destruct (fetch_youtube_same_videos env config videos Hfail)
    as [Hposts Htrace].
  split; [exact Hposts |]. split; [exact Htrace |].
  rewrite Hposts. apply Forall_map, Forall_forall. intros p _.
  split; [apply without_counters_without_statistics | reflexivity].
Qed.

Lemma fetch_youtube_without_statistics_witness :
  fst (fetch_youtube Sample.youtube_env Sample.bluesky_config)
  = map without_counters
        (fst (fetch_youtube
                (with_youtube_videos Sample.youtube_env
                                     sample_video_statistics)
                Sample.bluesky_config)).
Proof.
  refine (proj1 (fetch_youtube_without_statistics
                   Sample.youtube_env Sample.bluesky_config
                   sample_video_statistics _)).
  intros ids. exists "quota exceeded"%string. reflexivity.
Defined.

End YouTubeResults.

Section AppendOnly.

Lemma bluesky_step_invariant (env : BlueskyEnv) (limit : Z) (lang : string)
    (P : FetchState -> Prop) (n i : Z) (query : string) (st : FetchState) :
  (forall s s', same_data s s' -> P s -> P s') ->
  (forall s hit, P s -> P (bluesky_collect query s hit)) ->
  P st -> P (bluesky_step env limit lang n i query st).
Proof.
  intros Hdata Hcollect Hst. unfold bluesky_step.
  destruct (bluesky_search env query limit (Some lang)) as [posts events].
  match goal with
  | |- P (if _ then emit ?e ?s else ?s) =>
      assert (Hs : P s);
      [| destruct (i <? n); [eapply Hdata; [| exact Hs];
                             apply same_data_sym, emit_same_data
                            | exact Hs]]
  end.
  apply fold_left_invariant; [intros s x; apply Hcollect |].
  eapply Hdata; [| exact Hst].
  apply same_data_sym.
  eapply same_data_trans; [apply emit_same_data |].
  eapply same_data_trans; [apply emit_all_same_data |].
  apply emit_same_data.
Qed.

Lemma extends_posts_same_data (base : list NormalizedPost)
    (s s' : FetchState) :
  same_data s s' ->
  (exists more, all_posts s = base ++ more) ->
  exists more, all_posts s' = base ++ more.
Proof. intros [Hp _] [more H]. exists more. rewrite <- Hp. exact H. Qed.

Lemma keep_extends_posts (base : list NormalizedPost) (p : NormalizedPost)
    (s : FetchState) :
  (exists more, all_posts s = base ++ more) ->
  exists more, all_posts (keep p s) = base ++ more.
Proof.
  intros [more H]. exists (more ++ [p]). cbn [keep all_posts].
  rewrite H, app_assoc. reflexivity.
Qed.

(** X11. Queries added at the end of the Bluesky query file leave the posts
    found by the earlier queries in place: the new list starts with
    the old one. *)
Theorem fetch_bluesky_append_only (env : BlueskyEnv) (config : Config)
    (qs1 qs2 : list string) :
  exists more,
    fst (fetch_bluesky (with_bluesky_queries env (qs1 ++ qs2)) config)
    = fst (fetch_bluesky (with_bluesky_queries env qs1) config) ++ more.
Proof.
  rewrite !fetch_bluesky_posts, !bluesky_ready_queries.
  destruct (bluesky_ready env config); [| exists []; reflexivity].
  cbn [bluesky_queries with_bluesky_queries].
  unfold bluesky_loop. rewrite for_enumerate_app.
  set (limit := get (posts_per_query _) 25).
  set (lang := get (language _) "en"%string).
  set (before :=
         for_enumerate
           (bluesky_step (with_bluesky_queries env qs1) limit lang (len qs1))
           1 qs1 (initial_fetch_state [])).
  apply (for_enumerate_invariant
           _ (fun s => exists more, all_posts s = all_posts before ++ more)).
  - intros i q st _.
    apply (bluesky_step_invariant
             _ _ _ (fun s => exists more,
                               all_posts s = all_posts before ++ more)).
    + apply extends_posts_same_data.
    + intros s hit Hs. unfold bluesky_collect. cbv zeta.
      destruct (decide _); [exact Hs | apply keep_extends_posts, Hs].
  - exists []. rewrite app_nil_r.
    apply (for_enumerate_same_data
             _ _ (fun i i' q s s' Hs =>
                    bluesky_step_same_data
                      (with_bluesky_queries env qs1)
                      limit lang _ _ i i' q s s' Hs)).
    apply same_data_refl.
Qed.

(** X15. Queries added at the end of the YouTube query file leave the
    videos found by the earlier queries in place. *)
Theorem fetch_youtube_append_only (env : YouTubeEnv) (config : Config)
    (qs1 qs2 : list string) :
  exists more,
    fst (fetch_youtube (with_youtube_queries env (qs1 ++ qs2)) config)
    = fst (fetch_youtube (with_youtube_queries env qs1) config) ++ more.
Proof.
  rewrite !fetch_youtube_posts.
  destruct (_ && _); [| exists []; reflexivity].
  cbn [youtube_queries with_youtube_queries].
  unfold youtube_loop. rewrite for_enumerate_app.
  set (key := get (youtube_api_key config) ""%string).
  set (lc := get (listener_youtube config) no_listener_config).
  set (before :=
         for_enumerate
           (youtube_step (with_youtube_queries env qs1) key lc (len qs1))
           1 qs1 (initial_fetch_state [])).
  apply (for_enumerate_invariant
           _ (fun s => exists more, all_posts s = all_posts before ++ more)).
  - intros i q st _.
    apply (youtube_step_invariant
             _ _ _ (fun s => exists more,
                               all_posts s = all_posts before ++ more)).
    + apply extends_posts_same_data.
    + intros stats s item Hs.
      destruct (youtube_collect_kept q stats s item)
        as [-> | (id & _ & _ & _ & ->)];
        [exact Hs | apply keep_extends_posts, Hs].
  - exists []. rewrite app_nil_r.
    apply (for_enumerate_same_data
             _ _ (fun i i' q s s' Hs =>
                    youtube_step_same_data
                      (with_youtube_queries env qs1)
                      key lc _ _ i i' q s s' Hs)).
    apply same_data_refl.
Qed.

End AppendOnly.

(* ===================================================================== *)
(** ** Properties of the signal files *)
(* ===================================================================== *)

Section TextLemmas.

Lemma string_app_assoc (a b c : string) :
  ((a +:+ b) +:+ c)%string = (a +:+ (b +:+ c))%string.
Proof.
  induction a as [|x a IH]; [reflexivity |].
  rewrite !string_app_cons, IH. reflexivity.
Qed.

Lemma contains_cons (term : string) (c : ascii) (s : string) :
  Str.contains term (String c s)
  = Str.startswith term (String c s) || Str.contains term s.
Proof. reflexivity. Qed.

Lemma contains_newline_cons (c : ascii) (s : string) :
  Str.contains Text.nl (String c s)
  = Ascii.eqb Text.newline c || Str.contains Text.nl s.
Proof.
  rewrite contains_cons. unfold Text.nl at 1. cbn [Str.startswith].
  rewrite andb_true_r. reflexivity.
Qed.

Lemma contains_newline_app (a b : string) :
  Str.contains Text.nl a = false -> Str.contains Text.nl b = false ->
  Str.contains Text.nl (a +:+ b) = false.
Proof.
  intros Ha Hb. induction a as [|x a IH]; [exact Hb |].
  rewrite string_app_cons. rewrite contains_newline_cons in *.
  apply orb_false_iff in Ha as [Hx Ha]. rewrite Hx, IH by exact Ha.
  reflexivity.
Qed.

(** Splitting reads a first line up to the first line feed. *)
Lemma split_lines_from_line (acc line rest : string) :
  Str.contains Text.nl line = false ->
  Text.split_lines_from acc (line +:+ Text.nl +:+ rest)
  = (acc +:+ line)%string :: Text.split_lines_from EmptyString rest.
Proof.
  revert acc. induction line as [|c line IH]; intros acc Hline.
  - rewrite string_app_nil. unfold Text.nl. rewrite string_app_cons.
    cbn [Text.split_lines_from]. rewrite Ascii.eqb_refl, string_app_nil.
    rewrite string_app_nil_r. reflexivity.
  - rewrite contains_newline_cons in Hline.
    apply orb_false_iff in Hline as [Hc Hline].
    rewrite string_app_cons. cbn [Text.split_lines_from].
    rewrite Ascii.eqb_sym, Hc, IH by exact Hline.
    rewrite app_snoc_cons. reflexivity.
Qed.

Lemma split_lines_line (line rest : string) :
  Str.contains Text.nl line = false ->
  Text.split_lines (line +:+ Text.nl +:+ rest)
  = line :: Text.split_lines rest.
Proof.
  intros Hline. unfold Text.split_lines.
  rewrite split_lines_from_line by exact Hline. reflexivity.
Qed.

Lemma join_cons (sep a b : string) (rest : list string) :
  Str.join sep (a :: b :: rest)
  = (a +:+ sep +:+ Str.join sep (b :: rest))%string.
Proof. reflexivity. Qed.

(** Replacing a string that does not occur changes nothing. *)
Lemma replace_absent (old new s : string) :
  Str.contains old s = false -> Text.replace old new s = s.
Proof.
  unfold Text.replace. induction s as [|c s IH]; intros Habsent;
    [reflexivity |].
  rewrite contains_cons in Habsent.
  apply orb_false_iff in Habsent as [Hhere Hlater].
  cbn [Text.replace_from]. rewrite Hhere, IH by exact Hlater. reflexivity.
Qed.

Lemma replace_url_line (u : string) :
  Str.contains "url:" u = false ->
  Text.replace "url:" "" ("url: " +:+ u) = String " " u.
Proof.
  intros Habsent. unfold Text.replace.
  change ("url: " +:+ u)%string
    with (String "u" (String "r" (String "l" (String ":" (String " " u))))).
  cbn [Text.replace_from Str.startswith Ascii.eqb Bool.eqb andb
       String.length Nat.sub].
  rewrite string_app_nil.
  pose proof (replace_absent "url:" "" u Habsent) as Hrest.
  unfold Text.replace in Hrest. rewrite Hrest. reflexivity.
Qed.

(** Stripping removes the white space outside ASCII as well, here a
    no-break space on either side and a line separator at the end. *)
Example strip_no_break_space :
  Text.strip (Text.utf8 160 +:+ " https://x.com/a" +:+ Text.utf8 160
              +:+ Text.utf8 8232)
  = "https://x.com/a"%string.
Proof. vm_compute. reflexivity. Qed.

Lemma strip_after_space (u : string) :
  Text.strip (String " " u) = Text.strip u.
Proof. reflexivity. Qed.

End TextLemmas.

Section SignalRoundTrip.

Variable detected_at : string.
Variable generate_signal_id : string -> string.

(** The lines of a signal file up to the one that stores the URL. *)
Lemma tweet_to_markdown_lines (t : Tweet) (query : string) :
  Str.contains Text.nl (generate_signal_id (Signal.stored_url t)) = false ->
  Str.contains Text.nl (Signal.stored_url t) = false ->
  exists rest,
    Text.split_lines
      (Signal.tweet_to_markdown detected_at generate_signal_id t query)
    = "---"%string
      :: ("id: " +:+ generate_signal_id (Signal.stored_url t))%string
      :: "source: twitter"%string
      :: ("url: " +:+ Signal.stored_url t)%string
      :: rest.
Proof.
  intros Hid Hurl.
  unfold Signal.tweet_to_markdown, Signal.frontmatter_lines. cbv zeta.
  rewrite !join_cons, !string_app_assoc.
  rewrite split_lines_line by reflexivity.
  rewrite <- (string_app_assoc
                "id: " (generate_signal_id (Signal.stored_url t))).
  rewrite split_lines_line
    by (apply contains_newline_app; [reflexivity | exact Hid]).
  rewrite split_lines_line by reflexivity.
  rewrite <- (string_app_assoc "url: " (Signal.stored_url t)).
  rewrite split_lines_line
    by (apply contains_newline_app; [reflexivity | exact Hurl]).
  eexists. reflexivity.
Qed.

Lemma url_of_tweet_to_markdown (t : Tweet) (query : string) :
  storable (Signal.stored_url t) ->
  Str.contains Text.nl (generate_signal_id (Signal.stored_url t)) = false ->
  Signal.url_of_signal
    (Signal.tweet_to_markdown detected_at generate_signal_id t query)
  = Some (Signal.stored_url t).
Proof.
  intros (Hline & Habsent & Hstrip) Hid.
  destruct (tweet_to_markdown_lines t query Hid Hline) as [rest Hlines].
  unfold Signal.url_of_signal. rewrite Hlines.
  cbn [Signal.url_of_lines].
  change (Str.startswith "url:" "---") with false.
  change (Str.startswith
            "url:" ("id: " +:+ generate_signal_id (Signal.stored_url t)))
    with false.
  change (Str.startswith "url:" "source: twitter") with false.
  change (Str.startswith "url:" ("url: " +:+ Signal.stored_url t))
    with true.
  cbv iota. rewrite replace_url_line by exact Habsent.
  rewrite strip_after_space, Hstrip. reflexivity.
Qed.

(** X16. The URL read back from a signal file is the URL the file was
    written with: the tweet's own, or the status link built from user
    name and tweet identifier when the tweet has none. *)
Theorem signal_url_round_trip (t : Tweet) (query : string) :
  storable (Signal.stored_url t) ->
  Str.contains Text.nl (generate_signal_id (Signal.stored_url t)) = false ->
  Signal.url_of_signal
    (Signal.tweet_to_markdown detected_at generate_signal_id t query)
  = Some (Signal.stored_url t).
Proof. apply url_of_tweet_to_markdown. Qed.

End SignalRoundTrip.

Section LoadExistingUrls.

Lemma load_file_urls (acc : gset string * list Event)
    (file : string * Response string) (x : string) :
  x ∈ fst (Signal.load_file acc file)
  <-> x ∈ fst acc
      \/ exists content,
           snd file = inr content /\ Signal.url_of_signal content = Some x.
Proof.
  destruct acc as [existing events], file as [name [e | content]];
    cbn [Signal.load_file fst snd].
  - split; [auto |]. intros [H | (c & Hc & _)]; [exact H | discriminate].
  - destruct (Signal.url_of_signal content) as [u|] eqn:Hu; cbn [fst].
    + rewrite elem_of_union, elem_of_singleton. split.
      * intros [-> | H]; [right; eauto | left; exact H].
      * intros [H | (c & Hc & Hx)]; [right; exact H |].
        injection Hc as <-. left. congruence.
    + split; [auto |].
      intros [H | (c & Hc & Hx)]; [exact H |].
      injection Hc as <-. congruence.
Qed.

Lemma load_files_urls (files : list (string * Response string))
    (acc : gset string * list Event) (x : string) :
  x ∈ fst (fold_left Signal.load_file files acc)
  <-> x ∈ fst acc
      \/ exists name content,
           In (name, inr content) files
           /\ Signal.url_of_signal content = Some x.
Proof.
  revert acc. induction files as [|file files IH]; intros acc; simpl.
  - split; [auto |]. intros [H | (n & c & [] & _)]. exact H.
  - rewrite IH, load_file_urls. split.
    + intros [[H | (c & Hc & Hx)] | (n & c & Hin & Hx)].
      * left. exact H.
      * right. exists (fst file), c. split; [| exact Hx].
        left. destruct file as [n r]. cbn [fst snd] in *. subst r.
        reflexivity.
      * right. exists n, c. auto.
    + intros [H | (n & c & [Hfile | Hin] & Hx)].
      * left. left. exact H.
      * left. right. exists c. subst file. auto.
      * right. exists n, c. auto.
Qed.

Lemma load_existing_urls_spec
    (files : option (list (string * Response string))) (x : string) :
  x ∈ fst (Signal.load_existing_urls files)
  <-> exists listing name content,
        files = Some listing /\ In (name, inr content) listing
        /\ Signal.url_of_signal content = Some x.
Proof.
  destruct files as [listing|]; cbn [Signal.load_existing_urls].
  - rewrite load_files_urls. cbn [fst]. split.
    + intros [H | (n & c & Hin & Hx)]; [set_solver |].
      exists listing, n, c. auto.
    + intros (l & n & c & Hl & Hin & Hx). injection Hl as <-.
      right. exists n, c. auto.
  - cbn [fst]. split; [set_solver |].
    intros (l & n & c & Hl & _). discriminate.
Qed.

End LoadExistingUrls.

Lemma signal_url_round_trip_witness :
  Signal.url_of_signal
    (Signal.tweet_to_markdown "2026-01-05T09:03:07+00:00"
       (fun _ => "abcdef012345"%string)
       (Sample.tweet "https://x.com/carol/status/1" 4) "big tech")
  = Some "https://x.com/carol/status/1"%string.
Proof.
  apply (signal_url_round_trip
           "2026-01-05T09:03:07+00:00" (fun _ => "abcdef012345"%string)
           (Sample.tweet "https://x.com/carol/status/1" 4) "big tech").
  - repeat split; vm_compute; reflexivity.
  - vm_compute. reflexivity.
Defined.

(* ===================================================================== *)
(** ** Further properties of the listener *)
(* ===================================================================== *)

Section ListenerFurther.

Variable scraper : string -> Z -> string -> Response (list Tweet).
Variable generate_signal_id : string -> string.
Variable tweet_to_markdown : Tweet -> string -> Response string.
Variable write_error : string -> string -> FileSystem
                       -> option (string * FileSystem).
Variable timestamp : string.
Variable inbox_path : string.
Variable cfg : TwitterConfig.

Let step :=
  listener_step_raising scraper generate_signal_id tweet_to_markdown
                        write_error timestamp inbox_path cfg.
Let collect :=
  listener_collect_raising generate_signal_id tweet_to_markdown write_error
                           timestamp inbox_path cfg.
Let examine :=
  listener_tweets_raising generate_signal_id tweet_to_markdown write_error
                          timestamp inbox_path cfg.

(** What the body of the tweet loop does: nothing for a tweet that is
    known or below a threshold; otherwise the tweet is counted as new,
    and either saved, with one more URL known, or lost to the
    exception raised by its rendering or by the writing of its file. *)
Lemma collect_cases (query : string) (st : ListenerState) (t : Tweet) :
  (skipped cfg (existing_urls st) t /\ collect query st t = (st, None))
  \/ (exists st',
        collect query st t = (st', None)
        /\ (get (tweet_url t) ""%string ∉ existing_urls st)
        /\ existing_urls st'
           = {[ get (tweet_url t) ""%string ]} ∪ existing_urls st
        /\ total_found st' = total_found st
        /\ total_new st' = total_new st + 1
        /\ total_saved st' = total_saved st + 1)
  \/ (exists st' e,
        collect query st t = (st', Some e)
        /\ existing_urls st' = existing_urls st
        /\ total_found st' = total_found st
        /\ total_new st' = total_new st + 1
        /\ total_saved st' = total_saved st).
Proof.
  unfold collect, listener_collect_raising, skipped. cbv zeta.
  destruct (decide _) as [Hknown | Hnew]; [left; auto |].
  destruct (Z.ltb_spec (get (tweet_like_count t) 0) (get (min_likes cfg) 0));
    [left; auto |].
  destruct (Z.ltb_spec (get (tweet_reply_count t) 0)
                       (get (min_replies cfg) 0));
    [left; auto |].
  right. cbn [orb].
  destruct (tweet_to_markdown t query) as [e | signal_md].
  - right. do 2 eexists. split; [reflexivity |]. cbn. auto.
  - unfold save_signal_raising. cbv zeta.
    destruct (write_error _ _ _) as [[e fs'] |].
    + right. do 2 eexists. split; [reflexivity |]. cbn. auto.
    + left. eexists. split; [reflexivity |]. cbn. auto.
Qed.

Lemma listener_consistent_weaken (urls0 : gset string)
    (done done' pending pending' : Z) (st : ListenerState) :
  done <= done' -> pending' <= pending ->
  listener_consistent urls0 done pending st ->
  listener_consistent urls0 done' pending' st.
Proof.
  intros Hdone Hpending (Hsaved & Hfound & Hlost & Hsub & Hsize).
  repeat split; try assumption; lia.
Qed.

Lemma collect_consistent (urls0 : gset string) (done pending : Z)
    (query : string) (st : ListenerState) (t : Tweet) :
  0 <= pending ->
  listener_consistent urls0 done (pending + 1) st ->
  listener_consistent urls0
    (match snd (collect query st t) with
     | None => done
     | Some _ => done + 1
     end)
    pending (fst (collect query st t)).
Proof.
  intros Hpending (Hsaved & Hfound & Hlost & Hsub & Hsize).
  unfold lost_signals in Hlost.
  destruct (collect_cases query st t)
    as [[_ ->] | [(st' & -> & Hfresh & Hu & Hf & Hn & Hs)
                 | (st' & e & -> & Hu & Hf & Hn & Hs)]];
    cbn [fst snd]; unfold listener_consistent, lost_signals.
  - repeat split; try assumption; lia.
  - rewrite Hu, Hf, Hn, Hs. repeat split; try lia.
    + etrans; [exact Hsub | apply union_subseteq_r].
    + rewrite size_union by (apply disjoint_singleton_l; exact Hfresh).
      rewrite size_singleton. lia.
  - rewrite Hu, Hf, Hn, Hs. repeat split; try assumption; lia.
Qed.

Lemma examine_consistent (urls0 : gset string) (done : Z) (query : string)
    (tweets : list Tweet) :
  forall pending st,
    0 <= pending ->
    listener_consistent urls0 done (pending + len tweets) st ->
    listener_consistent urls0 (done + 1) pending
                        (fst (examine query tweets st)).
Proof.
  unfold len.
  induction tweets as [|t tweets IH]; intros pending st Hpending H.
  - cbn [examine listener_tweets_raising fst].
    eapply listener_consistent_weaken; [| | exact H];
      [| change (Z.of_nat (length (@nil Tweet))) with 0]; lia.
  - unfold examine. cbn [listener_tweets_raising]. fold collect. fold examine.
    assert (Hone : listener_consistent urls0
                     (match snd (collect query st t) with
                      | None => done
                      | Some _ => done + 1
                      end)
                     (pending + Z.of_nat (length tweets))
                     (fst (collect query st t))).
    { apply collect_consistent; [lia |].
      replace (pending + Z.of_nat (length tweets) + 1)
        with (pending + Z.of_nat (length (t :: tweets)))
        by (simpl length; lia).
      exact H. }
    destruct (collect query st t) as [st' [e|]]; cbn [fst snd] in *.
    + eapply listener_consistent_weaken; [| | exact Hone]; lia.
    + apply IH; assumption.
Qed.

Lemma say_consistent (urls0 : gset string) (done pending : Z)
    (line : string) (st : ListenerState) :
  listener_consistent urls0 done pending st ->
  listener_consistent urls0 done pending (say line st).
Proof. intros H. exact H. Qed.

Lemma step_consistent (urls0 : gset string) (done : Z) (query : string)
    (st : ListenerState) :
  listener_consistent urls0 done 0 st ->
  listener_consistent urls0 (done + 1) 0 (step st query).
Proof.
  intros H. unfold step, listener_step_raising. cbv zeta.
  destruct (scraper query _ _) as [e | tweets].
  - apply say_consistent.
    eapply listener_consistent_weaken; [| | exact H]; lia.
  - fold examine.
    assert (Hfold :
      listener_consistent urls0 (done + 1) 0
        (fst (examine query tweets
                (found (len tweets)
                   (say ("  Found: " +:+ Str.of_Z (len tweets) +:+ " tweets")
                      (say ("Searching: " +:+ query) st)))))).
    { apply examine_consistent; [lia |].
      destruct H as (Hsaved & Hfound & Hlost & Hsub & Hsize).
      unfold listener_consistent, lost_signals in *. cbn.
      repeat split; try assumption; lia. }
    destruct (examine query tweets _) as [st' [e|]]; cbn [fst] in Hfold;
      apply say_consistent, Hfold.
Qed.

Lemma steps_consistent (urls0 : gset string) (queries : list string) :
  forall done st,
    listener_consistent urls0 done 0 st ->
    listener_consistent urls0 (done + len queries) 0
                        (fold_left step queries st).
Proof.
  unfold len.
  induction queries as [|q queries IH]; intros done st H; simpl fold_left.
  - change (Z.of_nat (length (@nil string))) with 0.
    rewrite Z.add_0_r. exact H.
  - replace (done + Z.of_nat (length (q :: queries)))
      with (done + 1 + Z.of_nat (length queries))
      by (simpl length; lia).
    apply IH, step_consistent, H.
Qed.

(** X19. The counters of a run of the listener, whatever is raised
    while its signals are rendered and written: no more signals are
    saved than counted as new, no more counted as new than tweets
    found, and at most one signal per query is counted as new without
    being saved, the exception that loses it ending the query; the
    URLs known at the start are still known, and the number of known
    URLs grew by exactly the number of signals saved, so that no URL
    was saved twice. *)
Theorem run_listener_counters (urls : gset string) (fs : FileSystem) :
  let st :=
    run_listener_loop_raising scraper generate_signal_id tweet_to_markdown
                              write_error timestamp inbox_path cfg urls fs in
  0 <= total_saved st <= total_new st
  /\ total_new st <= total_found st
  /\ total_new st - total_saved st <= len (get (search_queries cfg) [])
  /\ urls ⊆ existing_urls st
  /\ Z.of_nat (size (existing_urls st)) = Z.of_nat (size urls) + total_saved st.
Proof.
  cbv zeta.
  assert (H : listener_consistent urls (0 + len (get (search_queries cfg) []))
                0
                (run_listener_loop_raising scraper generate_signal_id
                   tweet_to_markdown write_error timestamp inbox_path cfg
                   urls fs)).
  { unfold run_listener_loop_raising. fold step.
    apply steps_consistent.
    unfold listener_consistent, lost_signals. cbn.
    repeat split; try lia. reflexivity. }
  destruct H as (Hsaved & Hfound & Hlost & Hsub & Hsize).
  unfold lost_signals in Hlost.
  repeat split; try assumption; lia.
Qed.

Lemma skipped_mono (urls urls' : gset string) (t : Tweet) :
  urls ⊆ urls' -> skipped cfg urls t -> skipped cfg urls' t.
Proof.
  intros Hsub [H | H]; [left; apply Hsub, H | right; exact H].
Qed.

Lemma collect_skipped (query : string) (st : ListenerState) (t : Tweet) :
  skipped cfg (existing_urls st) t -> collect query st t = (st, None).
Proof.
  intros Hskip.
  unfold collect, listener_collect_raising. cbv zeta.
  destruct (decide _) as [_ | Hnew]; [reflexivity |].
  destruct Hskip as [Hin | [Hlikes | Hreplies]]; [contradiction | |].
  - apply Z.ltb_lt in Hlikes. rewrite Hlikes. reflexivity.
  - apply Z.ltb_lt in Hreplies. rewrite Hreplies, orb_true_r. reflexivity.
Qed.

(** Along the tweet loop the known URLs grow and no lost signal is
    recovered; a loop that raises nothing loses nothing and leaves
    every tweet of the answer known or below a threshold, and a loop
    that raises loses one signal. *)
Lemma examine_cases (query : string) (tweets : list Tweet) :
  forall st,
    existing_urls st ⊆ existing_urls (fst (examine query tweets st))
    /\ match snd (examine query tweets st) with
       | None =>
           lost_signals (fst (examine query tweets st)) = lost_signals st
           /\ Forall (skipped cfg
                        (existing_urls (fst (examine query tweets st))))
                     tweets
       | Some _ =>
           lost_signals (fst (examine query tweets st)) = lost_signals st + 1
       end.
Proof.
  induction tweets as [|t tweets IH]; intros st.
  - cbn [examine listener_tweets_raising fst snd].
    split; [reflexivity |]. split; [reflexivity | constructor].
  - unfold examine. cbn [listener_tweets_raising]. fold collect. fold examine.
    destruct (collect_cases query st t)
      as [[Hskip ->] | [(st' & -> & Hfresh & Hu & Hf & Hn & Hs)
                       | (st' & e & -> & Hu & Hf & Hn & Hs)]].
    + destruct (IH st) as [Hgrow Hrest]. split; [exact Hgrow |].
      destruct (snd (examine query tweets st)); [exact Hrest |].
      destruct Hrest as [Hlost Hall]. split; [exact Hlost |].
      constructor; [| exact Hall].
      eapply skipped_mono; [exact Hgrow | exact Hskip].
    + destruct (IH st') as [Hgrow Hrest].
      assert (Hlost' : lost_signals st' = lost_signals st)
        by (unfold lost_signals; lia).
      split.
      * etrans; [| exact Hgrow]. rewrite Hu. apply union_subseteq_r.
      * destruct (snd (examine query tweets st')); [lia |].
        destruct Hrest as [Hlost Hall]. split; [lia |].
        constructor; [| exact Hall].
        left. apply Hgrow. rewrite Hu.
        apply elem_of_union_l, elem_of_singleton. reflexivity.
    + cbn [fst snd]. split; [rewrite Hu; reflexivity |].
      unfold lost_signals. lia.
Qed.

Lemma step_cases (st : ListenerState) (query : string) :
  existing_urls st ⊆ existing_urls (step st query)
  /\ lost_signals st <= lost_signals (step st query)
  /\ (lost_signals (step st query) = lost_signals st ->
      forall tweets,
        scraper query (get (tweets_per_query cfg) 20)
                (get (twitter_language cfg) "en"%string) = inr tweets ->
        Forall (skipped cfg (existing_urls (step st query))) tweets).
Proof.
  unfold step, listener_step_raising. cbv zeta.
  destruct (scraper query _ _) as [e | tweets].
  - split; [reflexivity |]. split; [reflexivity |].
    intros _ tweets H. discriminate H.
  - fold examine.
    pose proof (examine_cases
                  query tweets
                  (found (len tweets)
                     (say ("  Found: " +:+ Str.of_Z (len tweets)
                           +:+ " tweets")
                        (say ("Searching: " +:+ query) st))))
      as [Hgrow Hrest].
    destruct (examine query tweets _) as [st' [e|]];
      cbn [fst snd say found existing_urls] in *;
      unfold lost_signals in *; cbn [say total_new total_saved found] in *.
    + split; [exact Hgrow |]. split; [lia |]. intros Hsame. lia.
    + destruct Hrest as [Hlost Hall].
      split; [exact Hgrow |]. split; [lia |].
      intros _ tweets' Htweets. injection Htweets as <-. exact Hall.
Qed.

(** After a run that lost no signal, every tweet of every answer is
    known or below a threshold. *)
Lemma steps_cover (queries : list string) :
  forall st,
    existing_urls st ⊆ existing_urls (fold_left step queries st)
    /\ lost_signals st <= lost_signals (fold_left step queries st)
    /\ (lost_signals (fold_left step queries st) = lost_signals st ->
        forall q tweets,
          In q queries ->
          scraper q (get (tweets_per_query cfg) 20)
                  (get (twitter_language cfg) "en"%string) = inr tweets ->
          Forall (skipped cfg (existing_urls (fold_left step queries st)))
                 tweets).
Proof.
  induction queries as [|q0 queries IH]; intros st; simpl fold_left.
  - split; [reflexivity |]. split; [lia |]. intros _ q tweets [].
  - destruct (step_cases st q0) as (Hgrow0 & Hlost0 & Hcover0).
    destruct (IH (step st q0)) as (Hgrow & Hlost & Hcover).
    split; [etrans; eassumption |]. split; [lia |].
    intros Hsame q tweets [-> | Hin] Hanswer.
    + eapply Forall_impl with
        (P := skipped cfg (existing_urls (step st q))).
      * apply Hcover0; [lia | exact Hanswer].
      * intros t. apply skipped_mono, Hgrow.
    + apply (Hcover ltac:(lia) q tweets Hin Hanswer).
Qed.

Lemma examine_skipped (query : string) (tweets : list Tweet)
    (st : ListenerState) :
  Forall (skipped cfg (existing_urls st)) tweets ->
  examine query tweets st = (st, None).
Proof.
  induction tweets as [|t tweets IH]; intros Hall; [reflexivity |].
  apply Forall_cons in Hall as [Ht Hall].
  unfold examine. cbn [listener_tweets_raising]. fold collect. fold examine.
  rewrite collect_skipped by exact Ht. apply IH, Hall.
Qed.

End ListenerFurther.

Section ListenerPlain.

Variable scraper : string -> Z -> string -> Response (list Tweet).
Variable generate_signal_id : string -> string.
Variable render : Tweet -> string -> string.
Variable timestamp : string.
Variable inbox_path : string.
Variable cfg : TwitterConfig.

(** When neither the rendering nor the writing raises, the tweet loop
    is the loop without exception. *)
Lemma listener_collect_raising_plain (query : string) (st : ListenerState)
    (t : Tweet) :
  listener_collect_raising generate_signal_id (renders render) writes
                           timestamp inbox_path cfg query st t
  = (listener_collect generate_signal_id render timestamp inbox_path cfg
                      query st t,
     None).
Proof.
  unfold listener_collect_raising, listener_collect. cbv zeta.
  destruct (decide _); [reflexivity |].
  destruct (_ || _); reflexivity.
Qed.

Lemma listener_tweets_raising_plain (query : string) (tweets : list Tweet) :
  forall st,
    listener_tweets_raising generate_signal_id (renders render) writes
                            timestamp inbox_path cfg query tweets st
    = (fold_left (listener_collect generate_signal_id render timestamp
                                   inbox_path cfg query)
                 tweets st,
       None).
Proof.
  induction tweets as [|t tweets IH]; intros st; [reflexivity |].
  cbn [listener_tweets_raising fold_left].
  rewrite listener_collect_raising_plain. apply IH.
Qed.

Lemma run_listener_loop_raising_plain (urls : gset string)
    (fs : FileSystem) :
  run_listener_loop_raising scraper generate_signal_id (renders render)
                            writes timestamp inbox_path cfg urls fs
  = run_listener_loop scraper generate_signal_id render timestamp
                      inbox_path cfg urls fs.
Proof.
  unfold run_listener_loop_raising, run_listener_loop.
  generalize {| existing_urls := urls; inbox := fs; total_found := 0;
                total_new := 0; total_saved := 0; console := [] |}.
  induction (get (search_queries cfg) []) as [|q queries IH]; intros st;
    [reflexivity |].
  cbn [fold_left]. rewrite <- IH. f_equal.
  unfold listener_step_raising, listener_step. cbv zeta.
  destruct (scraper q _ _) as [e | tweets]; [reflexivity |].
  rewrite listener_tweets_raising_plain. reflexivity.
Qed.

End ListenerPlain.

Section ListenerRerun.

Variable scraper : string -> Z -> string -> Response (list Tweet).
Variable cfg : TwitterConfig.

(** X20. If a run of the listener ends with as many signals saved as
    counted as new, that is if nothing was raised while its signals
    were rendered and written, then a second run on the same answers,
    started with the URLs known at the end of the first, counts no
    tweet as new, saves no signal and leaves the inbox as it finds
    it, whatever its clock, its identifiers, its rendering and its
    writing are. *)
Theorem run_listener_again_saves_nothing
    (generate_signal_id generate_signal_id' : string -> string)
    (tweet_to_markdown tweet_to_markdown' : Tweet -> string -> Response string)
    (write_error write_error' : string -> string -> FileSystem
                                -> option (string * FileSystem))
    (timestamp timestamp' inbox_path inbox_path' : string)
    (urls : gset string) (fs fs' : FileSystem) :
  let first :=
    run_listener_loop_raising scraper generate_signal_id tweet_to_markdown
                              write_error timestamp inbox_path cfg urls fs in
  let second :=
    run_listener_loop_raising scraper generate_signal_id' tweet_to_markdown'
                              write_error' timestamp' inbox_path' cfg
                              (existing_urls first) fs' in
  total_new first = total_saved first ->
  total_new second = 0 /\ total_saved second = 0 /\ inbox second = fs'
  /\ existing_urls second = existing_urls first.
Proof.
  cbv zeta. unfold run_listener_loop_raising.
  set (queries := get (search_queries cfg) []).
  pose proof (steps_cover scraper generate_signal_id tweet_to_markdown
                          write_error timestamp inbox_path cfg queries
                          {| existing_urls := urls; inbox := fs;
                             total_found := 0; total_new := 0;
                             total_saved := 0; console := [] |})
    as (_ & _ & Hcover).
  set (first :=
         fold_left
           (listener_step_raising scraper generate_signal_id
              tweet_to_markdown write_error timestamp inbox_path cfg)
           queries
           {| existing_urls := urls; inbox := fs; total_found := 0;
              total_new := 0; total_saved := 0; console := [] |}) in *.
  intros Hsaved.
  assert (Hall : forall q tweets,
             In q queries ->
             scraper q (get (tweets_per_query cfg) 20)
                     (get (twitter_language cfg) "en"%string) = inr tweets ->
             Forall (skipped cfg (existing_urls first)) tweets).
  { apply Hcover. unfold lost_signals. cbn [total_new total_saved]. lia. }
  clear Hcover Hsaved. set (known := existing_urls first) in *.
  clearbody known. clear first.
  apply (for_each_query_invariant
           (fun st => total_new st = 0 /\ total_saved st = 0
                      /\ inbox st = fs' /\ existing_urls st = known)).
  - intros st q Hin (Hnew & Hsaved & Hinbox & Hknown).
    unfold listener_step_raising. cbv zeta.
    destruct (scraper q _ _) as [e | tweets] eqn:Hanswer; [auto |].
    rewrite examine_skipped.
    + cbn. auto.
    + cbn [found say existing_urls]. rewrite Hknown.
      eapply Hall; eassumption.
  - cbn. auto.
Qed.

End ListenerRerun.

Lemma run_listener_again_saves_nothing_witness :
  total_saved
    (run_listener_loop_raising
       Sample.scraper (fun link => link)
       (fun tweet query => inl "rendering failed"%string)
       (fun path content fs => Some ("disk full"%string, fs))
       "2026-01-05-0910" "/inbox"
       (with_search_queries Sample.twitter_config
          ["data sovereignty"%string; "storj"%string;
           "self-hosting"%string])
       (existing_urls
          (run_listener_loop_raising
             Sample.scraper (fun link => link)
             (renders (fun tweet query => query)) writes
             "2026-01-05-0903" "/inbox"
             (with_search_queries Sample.twitter_config
                ["data sovereignty"%string; "storj"%string;
                 "self-hosting"%string])
             ∅ ∅))
       ∅)
  = 0.
Proof.
  pose proof (run_listener_again_saves_nothing
                Sample.scraper
                (with_search_queries Sample.twitter_config
                   ["data sovereignty"%string; "storj"%string;
                    "self-hosting"%string])
                (fun link => link) (fun link => link)
                (renders (fun tweet query => query))
                (fun tweet query => inl "rendering failed"%string)
                writes
                (fun path content fs => Some ("disk full"%string, fs))
                "2026-01-05-0903" "2026-01-05-0910" "/inbox" "/inbox"
                ∅ ∅ ∅) as H.
  cbv zeta in H.
  assert (Hsaved :
    total_new
      (run_listener_loop_raising
         Sample.scraper (fun link => link)
         (renders (fun tweet query => query)) writes
         "2026-01-05-0903" "/inbox"
         (with_search_queries Sample.twitter_config
            ["data sovereignty"%string; "storj"%string;
             "self-hosting"%string])
         ∅ ∅)
    = total_saved
        (run_listener_loop_raising
           Sample.scraper (fun link => link)
           (renders (fun tweet query => query)) writes
           "2026-01-05-0903" "/inbox"
           (with_search_queries Sample.twitter_config
              ["data sovereignty"%string; "storj"%string;
               "self-hosting"%string])
           ∅ ∅)).
  { vm_compute. reflexivity. }
  exact (proj1 (proj2 (H Hsaved))).
Defined.

Section AcrossRuns.

(** X18. A tweet whose signal file is in the inbox is skipped by the next
    run: its URL, read back from the file by [load_existing_urls], is
    among the known URLs, so that the body of the tweet loop leaves
    the state untouched and raises nothing.  The tweet must carry a
    URL that can be stored (one line, free of [url:], with no white
    space of any kind at its ends), and the identifier of that URL
    must be one line. *)
Theorem saved_signal_is_skipped
    (detected_at : string) (generate_signal_id : string -> string)
    (listing : list (string * Response string)) (name query u : string)
    (t : Tweet) :
  tweet_url t = Some u -> storable u ->
  Str.contains Text.nl (generate_signal_id u) = false ->
  In (name,
      inr (Signal.tweet_to_markdown detected_at generate_signal_id t query))
     listing ->
  u ∈ fst (Signal.load_existing_urls (Some listing))
  /\ forall generate_signal_id' tweet_to_markdown' write_error' timestamp
            inbox_path cfg query' st,
       existing_urls st = fst (Signal.load_existing_urls (Some listing)) ->
       listener_collect_raising generate_signal_id' tweet_to_markdown'
                                write_error' timestamp inbox_path cfg
                                query' st t
       = (st, None).
Proof.
  intros Hurl Hstorable Hid Hin.
  assert (Hstored : Signal.stored_url t = u).
  { unfold Signal.stored_url. rewrite Hurl. reflexivity. }
  assert (Hknown : u ∈ fst (Signal.load_existing_urls (Some listing))).
  { apply load_existing_urls_spec.
    exists listing, name,
      (Signal.tweet_to_markdown detected_at generate_signal_id t query).
    split; [reflexivity |]. split; [exact Hin |].
    rewrite <- Hstored. apply url_of_tweet_to_markdown; rewrite Hstored;
      assumption. }
  split; [exact Hknown |].
  intros gsid' t2m' we' timestamp inbox_path cfg query' st Hst.
  apply collect_skipped. left. rewrite Hurl, Hst. exact Hknown.
Qed.

Lemma saved_signal_is_skipped_witness :
  "https://x.com/carol/status/1"%string
  ∈ fst (Signal.load_existing_urls
           (Some [("2026-01-05-0903-twitter-abcdef012345.md"%string,
                   inr (Signal.tweet_to_markdown
                          "2026-01-05T09:03:07+00:00"
                          (fun _ => "abcdef012345"%string)
                          (Sample.tweet "https://x.com/carol/status/1" 4)
                          "big tech"))])).
Proof.
  refine (proj1 (saved_signal_is_skipped
                   "2026-01-05T09:03:07+00:00"
                   (fun _ => "abcdef012345"%string) _
                   "2026-01-05-0903-twitter-abcdef012345.md" "big tech"
                   "https://x.com/carol/status/1"
                   (Sample.tweet "https://x.com/carol/status/1" 4)
                   eq_refl _ _ _)).
  - repeat split; vm_compute; reflexivity.
  - vm_compute. reflexivity.
  - left. reflexivity.
Defined.

End AcrossRuns.

(* ===================================================================== *)
(** ** Properties of the pipeline *)
(* ===================================================================== *)

Section PipelineTheorems.

Lemma score_all_returns (config : Config) (c1 c2 : string)
    (posts : list NormalizedPost) :
  exists scored,
    Pipeline.score_all config c1 c2 posts = Some scored
    /\ Forall2 (scored_from config c1 c2) posts scored.
Proof.
  induction posts as [|p posts (scored & Hscored & Hall)].
  - exists []. split; [reflexivity | constructor].
  - destruct (score_post_returns p c1 c2) as (t & Hsome & _).
    cbn [Pipeline.score_all]. rewrite Hsome, Hscored.
    eexists. split; [reflexivity |].
    constructor; [| exact Hall].
    unfold scored_from. cbn [post score priority].
    rewrite Hsome. repeat split.
Qed.

Lemma platform_part_posts {A : Type} (selected : bool) (name : string)
    (queries : list A) (fetched : list NormalizedPost * list Event) :
  fst (fst (fst (Pipeline.platform_part selected name queries fetched)))
  = if selected then fst fetched else [].
Proof.
  unfold Pipeline.platform_part.
  destruct selected; [| reflexivity].
  destruct (fst fetched); reflexivity.
Qed.

(** What [main] does once the configuration is read and the run is
    not a dry run, in terms of the posts fetched. *)
Lemma main_run (choice : PlatformChoice) (env : MainEnv) (config : Config)
    (fs : FileSystem) :
  config_file env = Some config ->
  exists events,
    (Pipeline.fetched_posts choice env config = []
     /\ main choice false env fs = Some (Returned, fs, events))
    \/ exists scored stats,
         Pipeline.fetched_posts choice env config <> []
         /\ Forall2 (scored_from config (icp_profile env) (positioning env))
                    (Pipeline.fetched_posts choice env config) scored
         /\ total_fetched stats
            = len (Pipeline.fetched_posts choice env config)
         /\ main choice false env fs
            = Some (Returned,
                    <[ briefing_path (saved env) (root env)
                       := generate_briefing (generated env) scored config
                                            stats 10 ]> fs,
                    events).
Proof.
  intros Hconfig. unfold main. rewrite Hconfig. cbv zeta.
  unfold Pipeline.fetched_posts.
  pose proof (platform_part_posts
                (Pipeline.runs_bluesky choice) "Bluesky"
                (bluesky_queries (bluesky_services env))
                (fetch_bluesky (bluesky_services env) config)) as Hb.
  pose proof (platform_part_posts
                (Pipeline.runs_youtube choice) "YouTube"
                (youtube_queries (youtube_services env))
                (fetch_youtube (youtube_services env) config)) as Hy.
  destruct (Pipeline.platform_part (Pipeline.runs_bluesky choice) _ _ _)
    as [[[bposts bnames] bcount] bevents].
  destruct (Pipeline.platform_part (Pipeline.runs_youtube choice) _ _ _)
    as [[[yposts ynames] ycount] yevents].
  cbn [fst] in Hb, Hy. rewrite <- Hb, <- Hy.
  destruct (bposts ++ yposts) as [|p posts] eqn:Hposts.
  - eexists. left. split; reflexivity.
  - destruct (score_all_returns config (icp_profile env) (positioning env)
                                (p :: posts)) as (scored & -> & Hall).
    rewrite save_briefing_writes.
    eexists. right. exists scored. eexists.
    split; [discriminate |]. split; [exact Hall |].
    split; [| reflexivity]. reflexivity.
Qed.

(** X22. When a run fetches posts, the file it writes is the briefing of
    those posts, each scored by [score_post] and given the tier of its
    total; the briefing counts all of them as scanned and details the
    ten best at most. *)
Theorem main_writes_the_briefing (choice : PlatformChoice) (env : MainEnv)
    (config : Config) (fs : FileSystem) :
  config_file env = Some config ->
  Pipeline.fetched_posts choice env config <> [] ->
  exists scored stats events,
    main choice false env fs
    = Some (Returned,
            <[ briefing_path (saved env) (root env)
               := generate_briefing (generated env) scored config stats 10 ]>
              fs,
            events)
    /\ Forall2 (scored_from config (icp_profile env) (positioning env))
               (Pipeline.fetched_posts choice env config) scored
    /\ total_fetched stats = len (Pipeline.fetched_posts choice env config)
    /\ Briefing.entry_count
         (Briefing.lines (generated env) scored config stats 10)
       = Z.min 10 (len (Pipeline.fetched_posts choice env config)).
Proof.
  intros Hconfig Hposts.
  destruct (main_run choice env config fs Hconfig)
    as [events [[Hnone _] | (scored & stats & _ & Hall & Hstats & Hmain)]];
    [contradiction |].
  exists scored, stats, events.
  split; [exact Hmain |]. split; [exact Hall |]. split; [exact Hstats |].
  rewrite lines_entry_count, top_posts_len by lia.
  unfold len. rewrite (Forall2_length _ _ _ Hall). reflexivity.
Qed.

Lemma main_writes_the_briefing_witness :
  exists scored stats events,
    main all_platforms false sample_main_env ∅
    = Some (Returned,
            <[ briefing_path (saved sample_main_env) (root sample_main_env)
               := generate_briefing (generated sample_main_env) scored
                                    Sample.bluesky_config stats 10 ]> ∅,
            events)
    /\ total_fetched stats = 4.
Proof.
  destruct (main_writes_the_briefing all_platforms sample_main_env
              Sample.bluesky_config ∅ eq_refl)
    as (scored & stats & events & Hmain & _ & Hstats & _).
  - vm_compute. discriminate.
  - exists scored, stats, events. split; [exact Hmain |].
    rewrite Hstats. vm_compute. reflexivity.
Defined.

(** X23. A run that fetches no post writes no file.  This is the case of
    every run with [--platform twitter], which fetches from no
    platform at all. *)
Theorem main_without_posts_writes_nothing (choice : PlatformChoice)
    (env : MainEnv) (config : Config) (fs : FileSystem) :
  config_file env = Some config ->
  Pipeline.fetched_posts choice env config = [] \/ choice = only_twitter ->
  exists events,
    main choice false env fs = Some (Returned, fs, events).
Proof.
  intros Hconfig Hnone.
  assert (Hposts : Pipeline.fetched_posts choice env config = []).
  { destruct Hnone as [H | ->]; [exact H | reflexivity]. }
  destruct (main_run choice env config fs Hconfig)
    as [events [[_ Hmain] | (scored & stats & Hsome & _)]];
    [| contradiction].
  exists events. exact Hmain.
Qed.

Lemma main_without_posts_writes_nothing_witness :
  exists events,
    main only_twitter false sample_main_env ∅ = Some (Returned, ∅, events).
Proof.
  apply (main_without_posts_writes_nothing
           only_twitter sample_main_env Sample.bluesky_config ∅ eq_refl).
  right. reflexivity.
Defined.

End PipelineTheorems.

Section PipelineIndependence.

(** X24. A dry run contacts no service, scores nothing and writes nothing:
    it ends the same way whatever the platform chosen, the services
    and the context files are, with the files untouched. *)
Theorem main_dry_run (choice choice' : PlatformChoice) (env env' : MainEnv)
    (fs : FileSystem) :
  config_file env' = config_file env -> root env' = root env ->
  started env' = started env ->
  main choice true env fs = main choice' true env' fs
  /\ exists outcome events,
       main choice true env fs = Some (outcome, fs, events).
Proof.
  intros Hconfig Hroot Hstarted. unfold main.
  rewrite Hconfig, Hroot, Hstarted.
  destruct (config_file env); split; try reflexivity;
    do 2 eexists; reflexivity.
Qed.

Lemma main_dry_run_witness :
  main all_platforms true sample_main_env ∅
  = main only_twitter true
         (with_youtube_services
            (with_bluesky_services sample_main_env
               (with_bluesky_queries Sample.bluesky_env []))
            (with_youtube_queries Sample.youtube_env []))
         ∅.
Proof.
  apply (main_dry_run all_platforms only_twitter sample_main_env
           (with_youtube_services
              (with_bluesky_services sample_main_env
                 (with_bluesky_queries Sample.bluesky_env []))
              (with_youtube_queries Sample.youtube_env []))
           ∅); reflexivity.
Defined.

Lemma platform_part_not_selected {A : Type} (name : string)
    (queries queries' : list A)
    (fetched fetched' : list NormalizedPost * list Event) :
  Pipeline.platform_part false name queries fetched
  = Pipeline.platform_part false name queries' fetched'.
Proof. reflexivity. Qed.

(** X25. A run restricted to one platform does not depend on the services
    of the other. *)
Theorem main_reads_selected_platform_only (dry_run : bool) (env : MainEnv)
    (other_bluesky : BlueskyEnv) (other_youtube : YouTubeEnv)
    (fs : FileSystem) :
  main only_youtube dry_run (with_bluesky_services env other_bluesky) fs
  = main only_youtube dry_run env fs
  /\ main only_bluesky dry_run (with_youtube_services env other_youtube) fs
     = main only_bluesky dry_run env fs.
Proof.
  unfold main, with_bluesky_services, with_youtube_services.
  cbn [config_file icp_profile positioning bluesky_services
       youtube_services root started generated saved
       Pipeline.runs_bluesky Pipeline.runs_youtube].
  split.
  - destruct (config_file env) as [config|]; [| reflexivity].
    rewrite (platform_part_not_selected
               "Bluesky" (bluesky_queries other_bluesky)
               (bluesky_queries (bluesky_services env))
               (fetch_bluesky other_bluesky config)
               (fetch_bluesky (bluesky_services env) config)).
    reflexivity.
  - destruct (config_file env) as [config|]; [| reflexivity].
    rewrite (platform_part_not_selected
               "YouTube" (youtube_queries other_youtube)
               (youtube_queries (youtube_services env))
               (fetch_youtube other_youtube config)
               (fetch_youtube (youtube_services env) config)).
    reflexivity.
Qed.

End PipelineIndependence.

Section EntryOrder.

Lemma entry_lines_headings (i : Z) (sp : ScoredPost) :
  List.filter Briefing.is_entry_heading (Briefing.entry_lines i sp)
  = [entry_heading i sp].
Proof. vm_compute. reflexivity. Qed.

Lemma entries_from_headings (i : Z) (top : list ScoredPost) :
  List.filter Briefing.is_entry_heading (Briefing.entries_from i top)
  = headings_from i top.
Proof.
  revert i. induction top as [|sp top IH]; intros i; [reflexivity |].
  cbn [Briefing.entries_from headings_from].
  rewrite List.filter_app, entry_lines_headings, IH. reflexivity.
Qed.

Lemma frontmatter_headings (now : DateTime) (stats : Stats) (s h m : Z) :
  List.filter Briefing.is_entry_heading (Briefing.frontmatter now stats s h m)
  = [].
Proof. vm_compute. reflexivity. Qed.

Lemma summary_headings (stats : Stats) (s h : Z) :
  List.filter Briefing.is_entry_heading (Briefing.summary stats s h) = [].
Proof.
  unfold Briefing.summary. destruct (h >? 0); vm_compute; reflexivity.
Qed.

Lemma statistics_headings (stats : Stats) (h m l : Z) :
  List.filter Briefing.is_entry_heading (Briefing.statistics stats h m l)
  = [].
Proof. vm_compute. reflexivity. Qed.

(** The headings among the items of [lines] are those of the selected
    posts, in rank order. *)
Lemma lines_headings (now : DateTime)
    (scored_posts : list ScoredPost) (config : Config) (stats : Stats)
    (max_results : Z) :
  List.filter Briefing.is_entry_heading
              (Briefing.lines now scored_posts config stats max_results)
  = headings_from 1 (Briefing.top_posts scored_posts max_results).
Proof.
  unfold Briefing.lines. cbv zeta.
  rewrite !List.filter_app, entries_from_headings.
  rewrite frontmatter_headings, summary_headings, statistics_headings.
  rewrite app_nil_r. reflexivity.
Qed.

End EntryOrder.

Section ReportText.

(** Splitting after a line feed starts a new line. *)
Lemma split_lines_from_app (a b acc : string) :
  Text.split_lines_from acc (a +:+ Text.nl +:+ b)
  = Text.split_lines_from acc a ++ Text.split_lines b.
Proof.
  revert acc. induction a as [|c a IH]; intros acc.
  - rewrite string_app_nil. unfold Text.nl. rewrite string_app_cons.
    cbn [Text.split_lines_from]. rewrite Ascii.eqb_refl, string_app_nil.
    reflexivity.
  - rewrite string_app_cons. cbn [Text.split_lines_from].
    destruct (Ascii.eqb c Text.newline); rewrite IH; reflexivity.
Qed.

Lemma heading_lines_app (a b : string) :
  heading_lines (a +:+ Text.nl +:+ b) = heading_lines a ++ heading_lines b.
Proof.
  unfold heading_lines, Text.split_lines.
  rewrite split_lines_from_app, List.filter_app. reflexivity.
Qed.

(** The lines of the joined text are those of the items. *)
Lemma heading_lines_join (items : list string) :
  heading_lines (Str.join Text.nl items) = concat (map heading_lines items).
Proof.
  destruct items as [|item items]; [reflexivity |].
  revert item. induction items as [|next items IH]; intros item.
  - cbn [Str.join map concat]. rewrite app_nil_r. reflexivity.
  - rewrite join_cons, heading_lines_app, IH. reflexivity.
Qed.

Lemma split_lines_from_one_line (acc s : string) :
  Str.contains Text.nl s = false ->
  Text.split_lines_from acc s = [(acc +:+ s)%string].
Proof.
  revert acc. induction s as [|c s IH]; intros acc Hs.
  - rewrite string_app_nil_r. reflexivity.
  - rewrite contains_newline_cons in Hs.
    apply orb_false_iff in Hs as [Hc Hs].
    cbn [Text.split_lines_from]. rewrite Ascii.eqb_sym, Hc, IH by exact Hs.
    rewrite app_snoc_cons. reflexivity.
Qed.

Lemma heading_lines_one_line (s : string) :
  Str.contains Text.nl s = false ->
  heading_lines s = List.filter Briefing.is_entry_heading [s].
Proof.
  intros Hs. unfold heading_lines, Text.split_lines.
  rewrite split_lines_from_one_line by exact Hs. reflexivity.
Qed.

Lemma contains_hash_line_cons (c : ascii) (s : string) :
  Str.contains (String Text.newline "#") (String c s)
  = Ascii.eqb Text.newline c && Str.startswith "#" s
    || Str.contains (String Text.newline "#") s.
Proof. reflexivity. Qed.

Lemma startswith_hash_cons (c : ascii) (s : string) :
  Str.startswith "#" (String c s) = Ascii.eqb "#" c.
Proof. cbn [Str.startswith]. apply andb_true_r. Qed.

Lemma no_hash_line_one_line (s : string) :
  Str.contains Text.nl s = false -> no_hash_line s.
Proof.
  unfold no_hash_line. induction s as [|c s IH]; intros Hs; [reflexivity |].
  rewrite contains_newline_cons in Hs.
  apply orb_false_iff in Hs as [Hc Hs].
  rewrite contains_hash_line_cons, Hc, IH by exact Hs. reflexivity.
Qed.

(** After a text of one line, a text goes on as it started. *)
Lemma no_hash_line_after_line (a b : string) :
  Str.contains Text.nl a = false -> no_hash_line b -> no_hash_line (a +:+ b).
Proof.
  unfold no_hash_line. intros Ha Hb.
  induction a as [|c a IH]; [exact Hb |].
  rewrite contains_newline_cons in Ha.
  apply orb_false_iff in Ha as [Hc Ha].
  rewrite string_app_cons, contains_hash_line_cons, Hc, IH by exact Ha.
  reflexivity.
Qed.

Lemma startswith_hash_app (a b : string) :
  Str.startswith "#" a = false -> Str.startswith "#" b = false ->
  Str.startswith "#" (a +:+ b) = false.
Proof.
  intros Ha Hb. destruct a as [|c a]; [exact Hb |].
  rewrite string_app_cons, startswith_hash_cons in *. exact Ha.
Qed.

(** Before a text that does not start with a hash, a text keeps its
    lines free of a leading hash. *)
Lemma no_hash_line_app (a b : string) :
  no_hash_line a -> no_hash_line b -> Str.startswith "#" b = false ->
  no_hash_line (a +:+ b).
Proof.
  unfold no_hash_line. intros Ha Hb Hstart.
  induction a as [|c a IH]; [exact Hb |].
  rewrite contains_hash_line_cons in Ha.
  apply orb_false_iff in Ha as [Hc Ha].
  rewrite string_app_cons, contains_hash_line_cons, IH by exact Ha.
  rewrite orb_false_r.
  destruct (Ascii.eqb Text.newline c); [| reflexivity].
  cbn [andb] in *. destruct a as [|d a]; [exact Hstart |].
  rewrite string_app_cons, startswith_hash_cons in *. exact Hc.
Qed.

Lemma not_heading (s : string) :
  Str.startswith "#" s = false -> Briefing.is_entry_heading s = false.
Proof.
  destruct s as [|c s]; [reflexivity |].
  rewrite startswith_hash_cons. unfold Briefing.is_entry_heading.
  cbn [Str.startswith]. intros ->. reflexivity.
Qed.

(** A text none of whose lines starts with a hash has no heading:
    [acc] is the line read so far, which is empty or starts with
    another character than the hash. *)
Lemma split_lines_from_no_heading (s acc : string) :
  Str.startswith "#" (acc +:+ s) = false ->
  no_hash_line s ->
  List.filter Briefing.is_entry_heading (Text.split_lines_from acc s) = [].
Proof.
  unfold no_hash_line. revert acc.
  induction s as [|c s IH]; intros acc Hstart Hs.
  - rewrite string_app_nil_r in Hstart. cbn [Text.split_lines_from List.filter].
    rewrite not_heading by exact Hstart. reflexivity.
  - rewrite contains_hash_line_cons in Hs.
    apply orb_false_iff in Hs as [Hc Hs].
    cbn [Text.split_lines_from].
    destruct (Ascii.eqb c Text.newline) eqn:Hnl.
    + cbn [List.filter].
      assert (Hacc : Str.startswith "#" acc = false).
      { destruct acc as [|d acc]; [reflexivity |].
        rewrite string_app_cons, startswith_hash_cons in Hstart.
        rewrite startswith_hash_cons. exact Hstart. }
      rewrite not_heading by exact Hacc.
      apply IH; [| exact Hs].
      rewrite string_app_nil. rewrite Ascii.eqb_sym, Hnl in Hc. exact Hc.
    + apply IH; [| exact Hs].
      rewrite <- app_snoc_cons in Hstart.
      destruct (acc +:+ String c "")%string as [|d acc'] eqn:Hacc.
      * destruct acc; discriminate Hacc.
      * rewrite string_app_cons, startswith_hash_cons in *. exact Hstart.
Qed.

Lemma heading_lines_no_hash (s : string) :
  Str.startswith "#" s = false -> no_hash_line s ->
  heading_lines s = List.filter Briefing.is_entry_heading [s].
Proof.
  intros Hstart Hs. cbn [List.filter]. rewrite not_heading by exact Hstart.
  apply split_lines_from_no_heading; [rewrite string_app_nil |]; assumption.
Qed.

End ReportText.

Section ReportLines.

Lemma heading_lines_plain_item (item : string) :
  plain_item item ->
  heading_lines item = List.filter Briefing.is_entry_heading [item].
Proof.
  intros [Hline | [Hstart Hfree]];
    [apply heading_lines_one_line | apply heading_lines_no_hash]; assumption.
Qed.

Lemma heading_lines_plain_items (items : list string) :
  Forall plain_item items ->
  heading_lines (Str.join Text.nl items)
  = List.filter Briefing.is_entry_heading items.
Proof.
  intros Hitems. rewrite heading_lines_join.
  induction Hitems as [|item items Hitem _ IH]; [reflexivity |].
  cbn [map concat]. rewrite IH, heading_lines_plain_item by exact Hitem.
  destruct (Briefing.is_entry_heading item) eqn:E; cbn [List.filter];
    rewrite E; reflexivity.
Qed.

Lemma digits_one_line (d : Decimal.uint) :
  Str.contains Text.nl (NilEmpty.string_of_uint d) = false.
Proof.
  induction d as [|d IH|d IH|d IH|d IH|d IH|d IH|d IH|d IH|d IH|d IH];
    [reflexivity | ..]; exact IH.
Qed.

Lemma string_of_uint_one_line (d : Decimal.uint) :
  Str.contains Text.nl (NilZero.string_of_uint d) = false.
Proof. destruct d; [reflexivity | ..]; apply digits_one_line. Qed.

Lemma of_Z_one_line (n : Z) : Str.contains Text.nl (Str.of_Z n) = false.
Proof.
  unfold Str.of_Z, NilZero.string_of_int.
  destruct (Z.to_int n) as [d | d];
    [| rewrite contains_newline_cons]; apply string_of_uint_one_line.
Qed.

Lemma zfill_one_line (width : nat) (s : string) :
  Str.contains Text.nl s = false ->
  Str.contains Text.nl (Str.zfill width s) = false.
Proof.
  intros Hs. unfold Str.zfill.
  induction (width - String.length s)%nat as [|n IH]; [exact Hs |].
  change (Nat.iter (S n) (String "0") s)
    with (String "0" (Nat.iter n (String "0") s)).
  rewrite contains_newline_cons. exact IH.
Qed.

Lemma pad2_one_line (n : Z) : Str.contains Text.nl (Str.pad2 n) = false.
Proof. apply zfill_one_line, of_Z_one_line. Qed.

Lemma month_abbr_one_line (m : Z) :
  Str.contains Text.nl (Clock.month_abbr m) = false.
Proof.
  unfold Clock.month_abbr.
  generalize (Z.to_nat (m - 1)). intros n.
  do 12 (destruct n as [|n]; [reflexivity |]).
  destruct n; reflexivity.
Qed.

Lemma badge_one_line (p : Priority) :
  Str.contains Text.nl (Briefing.badge p) = false.
Proof. destruct p; reflexivity. Qed.

Ltac one_line :=
  lazymatch goal with
  | |- Str.contains Text.nl (String.append _ _) = false =>
      apply contains_newline_app; one_line
  | |- Str.contains Text.nl (Str.of_Z _) = false => apply of_Z_one_line
  | |- Str.contains Text.nl (Str.pad2 _) = false => apply pad2_one_line
  | |- Str.contains Text.nl (Str.zfill _ _) = false =>
      apply zfill_one_line; one_line
  | |- Str.contains Text.nl (Clock.month_abbr _) = false =>
      apply month_abbr_one_line
  | |- Str.contains Text.nl (Briefing.badge _) = false =>
      apply badge_one_line
  | |- Str.contains Text.nl _ = false => first [assumption | reflexivity]
  end.

Lemma date_str_one_line (now : DateTime) :
  Str.contains Text.nl (Clock.date_str now) = false.
Proof. unfold Clock.date_str. one_line. Qed.

Lemma isoformat_one_line (now : DateTime) :
  Str.contains Text.nl (Clock.isoformat now) = false.
Proof.
  unfold Clock.isoformat. destruct (microsecond now =? 0); one_line.
Qed.

Ltac no_hash :=
  lazymatch goal with
  | |- no_hash_line (String.append _ _) =>
      first [ apply no_hash_line_after_line; [one_line | no_hash]
            | apply no_hash_line_app; [no_hash | no_hash | reflexivity] ]
  | |- no_hash_line _ =>
      first [ assumption | apply no_hash_line_one_line; one_line ]
  end.

Ltac plain :=
  first [ left; one_line
        | right; split; [reflexivity | no_hash] ].

Ltac plain_items :=
  repeat first [ apply Forall_nil_2 | apply Forall_cons_2; [plain |] ].

Lemma frontmatter_plain (now : DateTime) (stats : Stats) (s h m : Z) :
  Forall plain_item (Briefing.frontmatter now stats s h m).
Proof.
  pose proof (date_str_one_line now). pose proof (isoformat_one_line now).
  unfold Briefing.frontmatter. plain_items.
Qed.

Lemma summary_plain (stats : Stats) (s h : Z) :
  no_hash_line (platforms stats) ->
  Forall plain_item (Briefing.summary stats s h).
Proof.
  intros Hplatforms. unfold Briefing.summary.
  destruct (h >? 0); plain_items.
Qed.

Lemma statistics_plain (stats : Stats) (h m l : Z) :
  no_hash_line (platforms stats) ->
  Forall plain_item (Briefing.statistics stats h m l).
Proof.
  intros Hplatforms. unfold Briefing.statistics. plain_items.
Qed.

Lemma entry_lines_plain (i : Z) (sp : ScoredPost) :
  heading_free sp -> Forall plain_item (Briefing.entry_lines i sp).
Proof.
  intros (Hhandle & Hname & Htext & Hquery & Hurl).
  unfold Briefing.entry_lines. cbv zeta. plain_items.
Qed.

Lemma entries_from_plain (top : list ScoredPost) :
  forall i,
    Forall heading_free top -> Forall plain_item (Briefing.entries_from i top).
Proof.
  induction top as [|sp top IH]; intros i Htop; [constructor |].
  apply Forall_cons in Htop as [Hsp Htop].
  cbn [Briefing.entries_from]. apply Forall_app. split.
  - apply entry_lines_plain, Hsp.
  - apply IH, Htop.
Qed.

Lemma top_posts_heading_free (scored_posts : list ScoredPost)
    (max_results : Z) :
  Forall heading_free scored_posts ->
  Forall heading_free (Briefing.top_posts scored_posts max_results).
Proof.
  intros Hposts. unfold Briefing.top_posts, slice_to.
  assert (Hsorted : Forall heading_free (sorted_by_total scored_posts)).
  { rewrite sorted_by_total_permutation. exact Hposts. }
  destruct (max_results <? 0); apply Forall_take, Hsorted.
Qed.

Lemma lines_plain (now : DateTime) (scored_posts : list ScoredPost)
    (config : Config) (stats : Stats) (max_results : Z) :
  Forall heading_free scored_posts ->
  no_hash_line (platforms stats) ->
  Forall plain_item
         (Briefing.lines now scored_posts config stats max_results).
Proof.
  intros Hposts Hplatforms. unfold Briefing.lines. cbv zeta.
  apply Forall_app. split; [apply frontmatter_plain |].
  apply Forall_app. split; [apply summary_plain, Hplatforms |].
  apply Forall_app. split; [plain_items |].
  apply Forall_app. split.
  - apply entries_from_plain, top_posts_heading_free, Hposts.
  - apply statistics_plain, Hplatforms.
Qed.

End ReportLines.

Section ReportHeadings.

(** X7. The detailed entries of the report follow the ranking: when no
    field rendered in it starts a line of its own with a hash (the
    handle of every scored post is one line; its name, text, matched
    query and link, and the platforms of the statistics, hold no line
    feed followed by a hash), the lines of the returned text that
    start with the heading mark are exactly the headings of the
    selected posts, from top to bottom in rank order, numbered from
    1, each with the handle, the total and the tier of its post. *)
Theorem briefing_entries_follow_ranking (now : DateTime)
    (scored_posts : list ScoredPost) (config : Config) (stats : Stats)
    (max_results : Z) :
  Forall heading_free scored_posts ->
  no_hash_line (platforms stats) ->
  heading_lines (generate_briefing now scored_posts config stats max_results)
  = headings_from 1 (Briefing.top_posts scored_posts max_results).
Proof.
  intros Hposts Hplatforms. unfold generate_briefing.
  change (String "010" EmptyString) with Text.nl.
  rewrite heading_lines_plain_items
    by (apply lines_plain; assumption).
  apply lines_headings.
Qed.

Lemma briefing_entries_follow_ranking_witness :
  heading_lines
    (generate_briefing Sample.run_090307 sample_tagged_posts empty_config
                       Sample.stats 2)
  = headings_from 1 (Briefing.top_posts sample_tagged_posts 2).
Proof.
  apply briefing_entries_follow_ranking.
  - repeat (apply Forall_cons_2 || apply Forall_nil_2);
      repeat split; vm_compute; reflexivity.
  - vm_compute. reflexivity.
Defined.

(** Without the condition on the fields the report can show a heading
    that is no entry: a text that goes on with a line of the form of
    a heading adds one. *)
Example forged_heading :
  heading_lines
    (generate_briefing Sample.run_090307 [sample_forging_post] empty_config
                       Sample.stats 1)
  = [ entry_heading 1 sample_forging_post;
      "### 2. @mallory — Score: 99 (HIGH SIGNAL)"%string ].
Proof. vm_compute. reflexivity. Qed.

End ReportHeadings.

Section BlueskyLogin.

(** X26. Without credentials, or when the login fails, [fetch_bluesky]
    returns no post and reports the failed authentication, whatever the
    search service would answer. *)
Theorem fetch_bluesky_without_login (env : BlueskyEnv) (config : Config) :
  get (enabled (get (listener_bluesky config) no_listener_config)) false
  = true ->
  atproto_available env = true ->
  bluesky_queries env <> [] ->
  truthy (get (bluesky_username config) ""%string) = false
  \/ truthy (get (bluesky_password config) ""%string) = false
  \/ (exists e,
        bluesky_login env (get (bluesky_username config) ""%string)
                      (get (bluesky_password config) ""%string) = inl e) ->
  fst (fetch_bluesky env config) = []
  /\ In (Print "Bluesky: Authentication failed")
        (snd (fetch_bluesky env config))
  /\ forall i n q,
       ~ In (Print (progress_line i n q)) (snd (fetch_bluesky env config)).
Proof.
  intros Henabled Hsdk Hqueries Hlogin.
  unfold fetch_bluesky, no_listener_config in *. cbv zeta.
  rewrite Henabled, Hsdk. cbn [negb].
  destruct (bluesky_queries env) as [|q0 qs]; [contradiction |].
  assert (Hclient :
    exists events,
      get_bluesky_client env config = (None, events)
      /\ forall i n q, ~ In (Print (progress_line i n q)) events).
  { unfold get_bluesky_client. rewrite Hsdk. cbn [negb].
    destruct (truthy (get (bluesky_username config) ""%string)) eqn:Hu;
      cbn [negb orb]; [| exists []; split; [reflexivity | intros i n q []]].
    destruct (truthy (get (bluesky_password config) ""%string)) eqn:Hp;
      cbn [negb orb]; [| exists []; split; [reflexivity | intros i n q []]].
    destruct Hlogin as [H | [H | [e He]]]; try discriminate.
    rewrite He. eexists. split; [reflexivity |].
    intros i n q [H | []]. injection H as H.
    unfold progress_line in H. discriminate H. }
  destruct Hclient as (events & -> & Hquiet).
  split; [reflexivity |]. split.
  - cbn [snd]. right. apply in_or_app. right. left. reflexivity.
  - intros i n q. cbn [snd]. intros [H | H].
    + injection H as H. unfold progress_line in H. discriminate H.
    + apply in_app_or in H as [H | [H | []]].
      * exact (Hquiet i n q H).
      * injection H as H. unfold progress_line in H. discriminate H.
Qed.

Lemma fetch_bluesky_without_login_witness :
  fst (fetch_bluesky
         {| atproto_available := true;
            bluesky_queries := ["big tech"%string];
            bluesky_login := fun _ _ => inl "invalid password"%string;
            search_posts := fun _ _ _ => inr [Sample.hit_a] |}
         Sample.bluesky_config)
  = [].
Proof.
  refine (proj1 (fetch_bluesky_without_login
                   {| atproto_available := true;
                      bluesky_queries := ["big tech"%string];
                      bluesky_login :=
                        fun _ _ => inl "invalid password"%string;
                      search_posts := fun _ _ _ => inr [Sample.hit_a] |}
                   Sample.bluesky_config eq_refl eq_refl _ _)).
  - discriminate.
  - right. right. exists "invalid password"%string. reflexivity.
Defined.

End BlueskyLogin.

Section UrlLessTweet.

(** X27. A tweet without [url] is keyed by the empty string during a run,
    but its signal file stores the status link built from user name
    and identifier.  So, when that link can be stored (one line, free
    of [url:], no white space at its ends) and its identifier is one
    line, a later run that finds only this file in the inbox knows
    the link and not the tweet: if the tweet passes the thresholds it
    is counted as new again, and saved again unless its rendering or
    the writing of its file raises. *)
Theorem url_less_tweet_is_saved_again
    (detected_at : string) (generate_signal_id : string -> string)
    (name query : string) (t : Tweet) :
  tweet_url t = None ->
  storable (Signal.stored_url t) ->
  Str.contains Text.nl (generate_signal_id (Signal.stored_url t)) = false ->
  let known :=
    fst (Signal.load_existing_urls
           (Some [(name,
                   inr (Signal.tweet_to_markdown detected_at
                          generate_signal_id t query))])) in
  known = {[ Signal.stored_url t ]}
  /\ (""%string ∉ known)
  /\ forall generate_signal_id' tweet_to_markdown' write_error' timestamp
            inbox_path cfg query' st,
       existing_urls st = known ->
       get (min_likes cfg) 0 <= get (tweet_like_count t) 0 ->
       get (min_replies cfg) 0 <= get (tweet_reply_count t) 0 ->
       let again :=
         listener_collect_raising generate_signal_id' tweet_to_markdown'
                                  write_error' timestamp inbox_path cfg
                                  query' st t in
       total_new (fst again) = total_new st + 1
       /\ (snd again = None -> total_saved (fst again) = total_saved st + 1).
Proof.
  intros Hurl Hstorable Hid known.
  assert (Hknown : known = {[ Signal.stored_url t ]}).
  { unfold known.
    cbn [Signal.load_existing_urls fold_left Signal.load_file].
    rewrite url_of_tweet_to_markdown by assumption. cbn [fst].
    apply union_empty_r_L. }
  clearbody known. subst known.
  assert (Hne : ""%string <> Signal.stored_url t).
  { unfold Signal.stored_url. rewrite Hurl. cbn [get]. discriminate. }
  split; [reflexivity |].
  split; [intros Hin; apply elem_of_singleton in Hin; contradiction |].
  intros gsid' t2m' we' timestamp inbox_path cfg query' st Hst Hlikes
    Hreplies. cbv zeta.
  destruct (collect_cases gsid' t2m' we' timestamp inbox_path cfg query' st t)
    as [[Hskip _] | [(st' & -> & _ & _ & _ & Hnew & Hsaved)
                    | (st' & e & -> & _ & _ & Hnew & _)]];
    cbn [fst snd].
  - exfalso. destruct Hskip as [Hin | [Hlow | Hlow]]; [| lia | lia].
    rewrite Hurl, Hst in Hin. cbn [get] in Hin.
    apply elem_of_singleton in Hin. contradiction.
  - split; [exact Hnew | intros _; exact Hsaved].
  - split; [exact Hnew | discriminate].
Qed.

Lemma url_less_tweet_is_saved_again_witness :
  fst (Signal.load_existing_urls
         (Some [("signal.md"%string,
                 inr (Signal.tweet_to_markdown
                        "2026-01-05T09:03:07+00:00"
                        (fun _ => "abcdef012345"%string)
                        {| tweet_id := Some "17"%string;
                           tweet_author_user_name := Some "carol"%string;
                           tweet_author_name := None;
                           tweet_author_followers := None;
                           tweet_author_description := None;
                           tweet_text := Some "text"%string;
                           tweet_url := None; tweet_created_at := None;
                           tweet_like_count := Some 4;
                           tweet_retweet_count := None;
                           tweet_reply_count := None;
                           tweet_is_reply := None |}
                        "big tech"))]))
  = {[ "https://twitter.com/carol/status/17"%string ]}.
Proof.
  refine (proj1 (url_less_tweet_is_saved_again
                   "2026-01-05T09:03:07+00:00"
                   (fun _ => "abcdef012345"%string) "signal.md" "big tech"
                   {| tweet_id := Some "17"%string;
                      tweet_author_user_name := Some "carol"%string;
                      tweet_author_name := None;
                      tweet_author_followers := None;
                      tweet_author_description := None;
                      tweet_text := Some "text"%string;
                      tweet_url := None; tweet_created_at := None;
                      tweet_like_count := Some 4;
                      tweet_retweet_count := None;
                      tweet_reply_count := None;
                      tweet_is_reply := None |}
                   eq_refl _ _)).
  - repeat split; vm_compute; reflexivity.
  - vm_compute. reflexivity.
Defined.

End UrlLessTweet.
